(** * Deduplication of funnel records: a shallow embedding of
      [app/deduplicate.py], with the properties of the specification and
      further properties of the code.

    The engine is one method, [Deduplication.deduplicate_records], with the
    helper [_log_formation].  It works on a pandas data frame that the caller
    passes by reference, so the embedding keeps a store of frame objects and
    threads it, with the log, through the method in a small
    state-and-exception monad.  The pandas operations the method calls are
    embedded as functions on frames, one per call.

    Scope of the model.
    - The pandas operations are those of pandas 2.x on columns of Python
      objects.  A cell holds an integer, a string, [None] or the float
      [NaN]; other floating point cells are not modelled.
    - The threshold is a Python number, held as the rational it denotes; the
      conversion to a float of line 86 fails for an integer beyond the range
      of the floats, and a number within that range is converted without
      rounding: the removed share and the threshold fraction are rationals.
    - A frame is a list of labelled rows; a row maps column names to cells
      (column labels are unique, as in the data model of the specification).
      Row labels are kept because the method selects survivors by label
      ([idxmax], [isin], [loc]); a frame built from a sequence of records has
      the labels 0, 1, 2, ...
    - A string is a Python [str] over the code points U+0000..U+00FF, one
      character per code point; [str.strip] removes the white space of
      Python in that range: [\t\n\v\f\r], [\x1c]..[\x1f], the blank,
      U+0085 and U+00A0.
    - A configuration is [None] (for [None] and for the empty dict) or a
      record of the four entries the method reads with [dict.get]; an absent
      entry is the default the source gives it.
    - A row is a map, so a frame never holds two columns of one name.
      pandas does when a configuration names a column twice (a flag column
      among the keys, a column named like one the engine writes); the
      statements that follow the engine through [_log_formation] are
      therefore made for plain configurations ([plain_config]): distinct
      key columns, no key or flag column named like a column the engine
      writes, no flag column among the keys. *)

From Stdlib Require Import ZArith QArith Qabs Lqa Ascii DecimalString DecimalPos DecimalZ.
From stdpp Require Import gmap strings list fin_maps sorting.

Open Scope Z_scope.

(** ** Cells *)

Inductive value :=
  | VInt (z : Z)
  | VStr (s : string)
  | VNone
  | VNaN.

#[global] Instance value_eq_dec : EqDecision value.
Proof. solve_decision. Defined.

(** [str(n)] for a Python integer. *)
Definition Z_to_string (z : Z) : string :=
  NilZero.string_of_int (Z.to_int z).

(** [Series.astype(str)] on one cell of a column of Python objects. *)
Definition astype_str (v : value) : string :=
  match v with
  | VInt z => Z_to_string z
  | VStr s => s
  | VNone => "None"
  | VNaN => "nan"
  end.

(** [str.isspace] on one character. *)
Definition isspace (a : ascii) : bool :=
  let n := N_of_ascii a in
  ((9 <=? n)%N && (n <=? 13)%N) || ((28 <=? n)%N && (n <=? 32)%N)
  || (n =? 133)%N || (n =? 160)%N.

Fixpoint lstrip (s : string) : string :=
  match s with
  | EmptyString => EmptyString
  | String a s' => if isspace a then lstrip s' else s
  end.

Fixpoint rstrip (s : string) : string :=
  match s with
  | EmptyString => EmptyString
  | String a s' =>
      match rstrip s' with
      | EmptyString => if isspace a then EmptyString else String a EmptyString
      | t => String a t
      end
  end.

(** [str.strip()] *)
Definition strip (s : string) : string := lstrip (rstrip s).

(** The lambda of line 23 on one cell: [x.astype(str).str.strip()]. *)
Definition strip_cell (v : value) : value := VStr (strip (astype_str v)).

(** ** Rows and frames *)

Abbreviation Row := (gmap string value).

Record DataFrame := mkDataFrame {
  columns : list string;
  rows : list (nat * Row)
}.

(** [pd.DataFrame()] *)
Definition empty_frame : DataFrame := {| columns := []; rows := [] |}.

Definition index (d : DataFrame) : list nat := fst <$> rows d.

(** A frame built from a sequence of records gets the labels 0, 1, 2, ... *)
Definition from_records (cols : list string) (recs : list Row) : DataFrame :=
  {| columns := cols; rows := imap (λ i r, (i, r)) recs |}.

(** A cell read as a value; a hole in the table reads as [NaN]. *)
Definition cell (r : Row) (c : string) : value := default VNaN (r !! c).

(** [df[c] = f(row)] for every row: the column is overwritten when it exists
    and appended otherwise. *)
Definition assign (c : string) (f : Row → value) (d : DataFrame) : DataFrame :=
  {| columns := if decide (c ∈ columns d) then columns d else columns d ++ [c];
     rows := (λ x, (x.1, <[c := f x.2]> x.2)) <$> rows d |}.

Definition drop_row (cs : list string) (r : Row) : Row := foldr delete r cs.

(** [df.drop(cs, axis=1)]: a new frame. *)
Definition drop_cols (cs : list string) (d : DataFrame) : DataFrame :=
  {| columns := filter (λ c, c ∉ cs) (columns d);
     rows := (λ x, (x.1, drop_row cs x.2)) <$> rows d |}.

Definition select_row (cs : list string) (r : Row) : Row :=
  filter (λ kv, kv.1 ∈ cs) r.

(** [df.loc[mask]]: the rows whose mask entry is set. *)
Fixpoint loc_mask {A} (mask : list bool) (l : list A) : list A :=
  match mask, l with
  | b :: mask', x :: l' => if b then x :: loc_mask mask' l' else loc_mask mask' l'
  | _, _ => []
  end.

(** [df.loc[labels]]: for each label in turn, the rows that carry it. *)
Definition loc_labels (labels : list nat) (l : list (nat * Row)) : list (nat * Row) :=
  flat_map (λ i, filter (λ x, x.1 = i) l) labels.

(** [df[keys] = df[keys].apply(lambda x: x.astype(str).str.strip())] on the
    rows of a frame whose columns include [keys]. *)
Definition strip_row (keys : list string) (r : Row) : Row :=
  map_imap (λ c v, Some (if decide (c ∈ keys) then strip_cell v else v)) r.

Definition strip_keys (keys : list string) (d : DataFrame) : DataFrame :=
  {| columns := columns d;
     rows := (λ x, (x.1, strip_row keys x.2)) <$> rows d |}.

(** ** Configuration *)

Record Config := mkConfig {
  keys : list string;
  flags : gmap string string;
  funnel_priority : list string;
  threshold_for_removing : option Q
}.

(** Python truthiness of the result of [flags.get(label)]. *)
Definition truthy (col : option string) : bool :=
  match col with
  | Some (String _ _) => true
  | _ => false
  end.

(** ** Stage derivation (lines 37-47) *)

(** [row.get(col)]; [col] is [None] when the label is not configured. *)
Definition row_get (row : Row) (col : option string) : option value :=
  col ≫= (row !!.).

(** [... == 1] *)
Definition eq_1 (v : option value) : bool :=
  match v with
  | Some (VInt 1) => true
  | _ => false
  end.

Section derive.
Variables col_apply col_admit col_commit col_enroll : option string.

Definition derive_stage (row : Row) : option string :=
  if eq_1 (row_get row col_enroll) then Some "ENROLL"
  else if eq_1 (row_get row col_commit) then Some "COMMIT"
  else if eq_1 (row_get row col_admit) then Some "ADMIT"
  else if eq_1 (row_get row col_apply) then Some "APPLY"
  else None.
End derive.

(** A Python [str] or [None] as a cell. *)
Definition of_option_str (o : option string) : value :=
  match o with
  | Some s => VStr s
  | None => VNone
  end.

(** ** Scores (lines 52-53) *)

Definition enumerate {A} (l : list A) : list (nat * A) := imap pair l.

(** The dict comprehension of line 52, read with [n = len(funnel_priority)]:
    a later entry overwrites an earlier one with the same key. *)
Definition score_map_of (n : nat) (fp : list string) : gmap string Z :=
  foldl (λ m ix, <[ix.2 := Z.of_nat n - Z.of_nat ix.1]> m) ∅ (enumerate fp).

Definition score_map (funnel_priority : list string) : gmap string Z :=
  score_map_of (length funnel_priority) funnel_priority.

(** [.map(score_map).fillna(0).astype(int)] on one cell of [STAGE]. *)
Definition map_score (sm : gmap string Z) (v : value) : Z :=
  match v with
  | VStr s => default 0 (sm !! s)
  | _ => 0
  end.

(** The integer held by a cell of [_score]. *)
Definition score_cell (r : Row) : Z :=
  match r !! "_score" with
  | Some (VInt z) => z
  | _ => 0
  end.

(** ** Duplicate groups (lines 56, 71, 74) *)

Definition key_tuple (keys : list string) (r : Row) : list (option value) :=
  (λ k, r !! k) <$> keys.

(** [df.duplicated(subset=keys, keep=False)] *)
Definition duplicated (keys : list string) (l : list (nat * Row)) : list bool :=
  (λ x, bool_decide
          (1 < length (filter (λ y, key_tuple keys y.2 = key_tuple keys x.2) l))%nat)
    <$> l.

(** [Series.idxmax]: label and value of the first occurrence of the maximum. *)
Fixpoint idxmax (l : list (nat * Z)) : option (nat * Z) :=
  match l with
  | [] => None
  | (i, s) :: l' =>
      match idxmax l' with
      | Some (j, t) => if s <? t then Some (j, t) else Some (i, s)
      | None => Some (i, s)
      end
  end.

(** The order in which [groupby] (with its default [sort=True]) lists the
    groups: key tuples compared component by component, strings by code
    point.  Cells of different kinds only meet when a key column is one of
    the engine's own columns; integers then come first and missing cells
    last. *)
Definition value_compare (a b : value) : comparison :=
  match a, b with
  | VInt x, VInt y => x ?= y
  | VInt _, _ => Lt
  | VStr _, VInt _ => Gt
  | VStr s, VStr t => String.compare s t
  | VStr _, _ => Lt
  | VNone, VNone => Eq
  | VNone, VNaN => Lt
  | VNone, _ => Gt
  | VNaN, VNaN => Eq
  | VNaN, _ => Gt
  end.

Definition cell_compare (a b : option value) : comparison :=
  match a, b with
  | Some x, Some y => value_compare x y
  | Some _, None => Lt
  | None, Some _ => Gt
  | None, None => Eq
  end.

Fixpoint key_compare (k1 k2 : list (option value)) : comparison :=
  match k1, k2 with
  | [], [] => Eq
  | [], _ :: _ => Lt
  | _ :: _, [] => Gt
  | a :: k1', b :: k2' =>
      match cell_compare a b with
      | Eq => key_compare k1' k2'
      | c => c
      end
  end.

Definition key_le (k1 k2 : list (option value)) : Prop := key_compare k1 k2 ≠ Gt.

#[global] Instance key_le_dec k1 k2 : Decision (key_le k1 k2).
Proof. unfold key_le. apply _. Defined.

Definition group_keys (keys : list string) (l : list (nat * Row)) : list (list (option value)) :=
  merge_sort key_le (remove_dups ((λ x, key_tuple keys x.2) <$> l)).

(** [df.loc[dup_mask].groupby(keys, dropna=False)['_score'].idxmax()]: one
    label per group, groups in sorted key order. *)
Definition groupby_idxmax (keys : list string) (l : list (nat * Row)) : list nat :=
  omap (λ g, fst <$> idxmax ((λ x, (x.1, score_cell x.2))
                               <$> filter (λ x, key_tuple keys x.2 = g) l))
       (group_keys keys l).

(** [dup_mask & ~df.index.isin(keep_idx)] *)
Definition to_remove (dup_mask : list bool) (keep_idx : list nat) (l : list (nat * Row)) : list bool :=
  zip_with (λ b x, b && negb (bool_decide (x.1 ∈ keep_idx))) dup_mask l.

(** ** The audit log (lines 105-128) *)

(** [removed[keys].astype(str).agg('||'.join, axis=1)] on one row. *)
Definition merge_key (keys : list string) (r : Row) : string :=
  String.concat "||" ((λ k, astype_str (cell r k)) <$> keys).

Definition with_merge_key (keys : list string) (r : Row) : Row :=
  <["_merge_key" := VStr (merge_key keys r)]> r.

(** [kept[['_merge_key', 'STAGE', '_score']].rename(columns=...)] on one row. *)
Definition rename_kept (k : Row) : Row :=
  <["_merge_key" := cell k "_merge_key"]>
    (<["STAGE_kept" := cell k "STAGE"]> (<["_score_kept" := cell k "_score"]> ∅)).

(** [left.merge(right, on='_merge_key', how='left')]: every left row is
    paired with every right row that has its merge key, in the order of the
    right frame; a left row without a partner is kept once with missing
    cells. *)
Definition merge_left (left right : list Row) : list Row :=
  flat_map
    (λ r, match filter (λ k, k !! "_merge_key" = r !! "_merge_key") right with
          | [] => [ <["_score_kept" := VNaN]> (<["STAGE_kept" := VNaN]> r) ]
          | ms => (λ k, <["_score_kept" := cell k "_score_kept"]>
                          (<["STAGE_kept" := cell k "STAGE_kept"]> r)) <$> ms
          end)
    left.

(** [<] and [==] on two cells of the score columns, which hold integers
    and, where the merge found no partner, [NaN]; a comparison with [NaN] is
    false. *)
Definition py_lt (a b : value) : bool :=
  match a, b with
  | VInt x, VInt y => x <? y
  | _, _ => false
  end.

Definition py_eq (a b : value) : bool :=
  match a, b with
  | VInt x, VInt y => x =? y
  | _, _ => false
  end.

Definition reason_fn (r : Row) : string :=
  if py_lt (cell r "_score") (cell r "_score_kept") then
    "duplicate: lower-priority stage"
  else if py_eq (cell r "_score") (cell r "_score_kept") then
    "duplicate: same stage, kept first"
  else "duplicate".

Definition log_columns (keys : list string) : list string :=
  keys ++ ["STAGE"; "STAGE_kept"; "_score"; "_score_kept"; "reason"].

Definition _log_formation (df : DataFrame) (to_remove_mask : list bool)
    (keys flag_cols : list string) (keep_idx : list nat) : DataFrame :=
  let removed :=
    (λ x, select_row (keys ++ flag_cols ++ ["STAGE"; "_score"]) x.2)
      <$> loc_mask to_remove_mask (rows df) in
  let kept :=
    (λ x, select_row (keys ++ ["STAGE"; "_score"]) x.2)
      <$> loc_labels keep_idx (rows df) in
  let removed := with_merge_key keys <$> removed in
  let kept := with_merge_key keys <$> kept in
  let removed := merge_left removed (rename_kept <$> kept) in
  let removed := (λ r, <["reason" := VStr (reason_fn r)]> r) <$> removed in
  from_records (log_columns keys) (select_row (log_columns keys) <$> removed).

(** ** Store, exceptions and log events *)

Inductive exn :=
  | ValueError (msg : string) (cols : list string)
  | KeyError (cols : list string)
  | TypeError (msg : string)
  | OverflowError (msg : string).

Inductive event :=
  | LogEmptyConfig
  | LogNoDuplicates
  | LogStats (total_rows removed_rows : nat) (removed_share threshold : Q)
  | LogWarning (removed_rows total_rows : nat) (removed_share threshold : Q).

Record state := mkState {
  heap : list DataFrame;
  log : list event
}.

Definition M (A : Type) : Type := state → (exn + A) * state.

#[global] Instance M_ret : MRet M := λ A x s, (inr x, s).

#[global] Instance M_bind : MBind M := λ A B f m s,
  match m s with
  | (inr x, s') => f x s'
  | (inl e, s') => (inl e, s')
  end.

Definition raise {A} (e : exn) : M A := λ s, (inl e, s).

Definition info (e : event) : M unit :=
  λ s, (inr tt, {| heap := heap s; log := log s ++ [e] |}).

(** The frame object behind a reference. *)
Definition read (l : nat) : M DataFrame :=
  λ s, (inr (default empty_frame (heap s !! l)), s).

(** In-place update of the object behind a reference. *)
Definition modify (l : nat) (f : DataFrame → DataFrame) : M unit :=
  λ s, (inr tt, {| heap := alter f l (heap s); log := log s |}).

(** A new frame object. *)
Definition alloc (d : DataFrame) : M nat :=
  λ s, (inr (length (heap s)), {| heap := heap s ++ [d]; log := log s |}).

(** ** The engine (lines 8-103) *)

Definition truthy_cols (cols : list (option string)) : list string :=
  omap (λ col, if truthy col then col else None) cols.

Definition count_true (mask : list bool) : nat := length (filter (λ b, b = true) mask).

(** The least positive integer that has no float: it rounds to 2^1024, past
    the largest float 2^1024 - 2^971. *)
Definition float_limit : Z := 2 ^ 1024 - 2 ^ 970.

(** The conversions of line 86, [threshold_for_removing / 100.0] and
    [float(threshold_for_removing)], raise [OverflowError] for an integer
    of at least that magnitude; a float never reaches it. *)
Definition float_overflow (t : Q) : bool :=
  Qle_bool (inject_Z float_limit) (Qabs t).

Definition deduplicate_records (df : nat) (dedup_config : option Config)
    : M (nat * nat) :=
  match dedup_config with
  | None =>
      info LogEmptyConfig;;
      e ← alloc empty_frame;
      mret (df, e)
  | Some cfg =>
      let keys := keys cfg in
      let flags := flags cfg in
      let funnel_priority := funnel_priority cfg in
      let threshold_for_removing := threshold_for_removing cfg in
      if decide (keys = []) then raise (ValueError "keys are empty" []) else
      (* whitespace removing *)
      d ← read df;
      (if decide (Forall (λ k, k ∈ columns d) keys) then mret tt
       else raise (KeyError (filter (λ k, k ∉ columns d) keys)));;
      modify df (strip_keys keys);;
      (* get priority columns *)
      let col_apply := flags !! "APPLY" in
      let col_admit := flags !! "ADMIT" in
      let col_commit := flags !! "COMMIT" in
      let col_enroll := flags !! "ENROLL" in
      (* check missing columns *)
      d ← read df;
      let missing_cols :=
        filter (λ col, col ∉ columns d)
               (truthy_cols [col_apply; col_admit; col_commit; col_enroll]) in
      if decide (missing_cols = []) then
        (* creating new stage column *)
        modify df (assign "STAGE"
          (λ row, of_option_str
                    (derive_stage col_apply col_admit col_commit col_enroll row)));;
        (* defining priority *)
        let score_map := score_map funnel_priority in
        modify df (assign "_score"
          (λ row, VInt (map_score score_map (cell row "STAGE"))));;
        (* duplicate group mask *)
        d ← read df;
        let dup_mask := duplicated keys (rows d) in
        if negb (existsb id dup_mask) then
          let d' := drop_cols ["STAGE"; "_score"] d in
          info LogNoDuplicates;;
          r ← alloc d';
          e ← alloc empty_frame;
          mret (r, e)
        else
          let keep_idx := groupby_idxmax keys (loc_mask dup_mask (rows d)) in
          let flag_cols := truthy_cols [col_apply; col_admit; col_commit; col_enroll] in
          let to_remove_mask := to_remove dup_mask keep_idx (rows d) in
          (* log df formation *)
          removed_log_df ←
            alloc (_log_formation d to_remove_mask keys flag_cols keep_idx);
          (* final df *)
          let dropped := drop_cols ["STAGE"; "_score"] d in
          df_deduped ←
            alloc {| columns := columns dropped;
                     rows := loc_mask (negb <$> to_remove_mask) (rows dropped) |};
          (* logging some additional info *)
          let total := length (rows d) in
          let removed_n := count_true to_remove_mask in
          let removed_share :=
            if decide (total = 0%nat) then 0%Q
            else (inject_Z (Z.of_nat removed_n) / inject_Z (Z.of_nat total))%Q in
          match threshold_for_removing with
          | None => raise (TypeError "'>' not supported between instances of 'NoneType' and 'int'")
          | Some t =>
              if float_overflow t
              then raise (OverflowError "int too large to convert to float")
              else
              let threshold := if Qlt_le_dec 1 t then (t / 100)%Q else t in
              info (LogStats total removed_n removed_share threshold);;
              (if Qlt_le_dec threshold removed_share
               then info (LogWarning removed_n total removed_share threshold)
               else mret tt);;
              mret (df_deduped, removed_log_df)
          end
      else raise (ValueError "Dataset has no flag columns" missing_cols)
  end.

(** ** One call, as the host sees it *)

Record call := mkCall {
  outcome : exn + (DataFrame * DataFrame);
  (** the object the caller passed, after the call *)
  caller_frame : DataFrame;
  (** is the first returned frame the very object the caller passed? *)
  returns_argument : bool;
  events : list event
}.

Definition deduplicate (dataset : DataFrame) (config : option Config) : call :=
  let '(r, s) := deduplicate_records 0%nat config {| heap := [dataset]; log := [] |} in
  {| outcome :=
       match r with
       | inl e => inl e
       | inr (a, b) =>
           inr (default empty_frame (heap s !! a), default empty_frame (heap s !! b))
       end;
     caller_frame := default empty_frame (heap s !! 0%nat);
     returns_argument :=
       match r with
       | inr (a, _) => bool_decide (a = 0%nat)
       | inl _ => false
       end;
     events := log s |}.

(** ** Vocabulary of the specification *)

(** The Derived Stage of a row, from the configured flag columns. *)
Definition stage_of (cfg : Config) (row : Row) : option string :=
  derive_stage (flags cfg !! "APPLY") (flags cfg !! "ADMIT")
               (flags cfg !! "COMMIT") (flags cfg !! "ENROLL") row.

(** The Priority Score of a stage under a ranking. *)
Definition priority (funnel_priority : list string) (stage : option string) : Z :=
  map_score (score_map funnel_priority) (of_option_str stage).

(** The frame the engine works on once stages and scores are attached
    (the state of the caller's object after line 53). *)
Definition staged (cfg : Config) (d : DataFrame) : DataFrame :=
  assign "_score"
    (λ row, VInt (map_score (score_map (funnel_priority cfg)) (cell row "STAGE")))
    (assign "STAGE" (λ row, of_option_str (stage_of cfg row))
       (strip_keys (keys cfg) d)).

(** The frames of the duplicate path (lines 56-80), as functions of the
    input. *)
Definition flag_cols_of (cfg : Config) : list string :=
  truthy_cols [flags cfg !! "APPLY"; flags cfg !! "ADMIT";
               flags cfg !! "COMMIT"; flags cfg !! "ENROLL"].

Definition missing_cols_of (cfg : Config) (d : DataFrame) : list string :=
  filter (λ col, col ∉ columns d) (flag_cols_of cfg).

Definition dup_mask_of (cfg : Config) (d : DataFrame) : list bool :=
  duplicated (keys cfg) (rows (staged cfg d)).

Definition keep_idx_of (cfg : Config) (d : DataFrame) : list nat :=
  groupby_idxmax (keys cfg) (loc_mask (dup_mask_of cfg d) (rows (staged cfg d))).

Definition to_remove_mask_of (cfg : Config) (d : DataFrame) : list bool :=
  to_remove (dup_mask_of cfg d) (keep_idx_of cfg d) (rows (staged cfg d)).

Definition deduped_frame (cfg : Config) (d : DataFrame) : DataFrame :=
  let dropped := drop_cols ["STAGE"; "_score"] (staged cfg d) in
  {| columns := columns dropped;
     rows := loc_mask (negb <$> to_remove_mask_of cfg d) (rows dropped) |}.

Definition audit_frame (cfg : Config) (d : DataFrame) : DataFrame :=
  _log_formation (staged cfg d) (to_remove_mask_of cfg d) (keys cfg)
                 (flag_cols_of cfg) (keep_idx_of cfg d).

(** What the engine sees of an input record: its normalized key values,
    its stage and its score. *)
Definition record_key (cfg : Config) (r : Row) : list (option value) :=
  key_tuple (keys cfg) (strip_row (keys cfg) r).

Definition record_stage (cfg : Config) (r : Row) : option string :=
  stage_of cfg (strip_row (keys cfg) r).

Definition record_score (cfg : Config) (r : Row) : Z :=
  priority (funnel_priority cfg) (record_stage cfg r).

(** An input record as the engine holds it after line 53. *)
Definition stage_row (cfg : Config) (x : nat * Row) : nat * Row :=
  (x.1, <["_score" := VInt (record_score cfg x.2)]>
          (<["STAGE" := of_option_str (record_stage cfg x.2)]>
             (strip_row (keys cfg) x.2))).

(** Is the record marked "to remove"?  (One entry of the mask of line 74.) *)
Definition marked (cfg : Config) (d : DataFrame) (x : nat * Row) : bool :=
  bool_decide
    (1 < length (filter (λ y, key_tuple (keys cfg) y.2
                              = key_tuple (keys cfg) (stage_row cfg x).2)
                        (rows (staged cfg d))))%nat
  && negb (bool_decide (x.1 ∈ keep_idx_of cfg d)).

(** An input record as it appears in the deduped frame. *)
Definition out_row (cfg : Config) (x : nat * Row) : nat * Row :=
  (x.1, drop_row ["STAGE"; "_score"] (strip_row (keys cfg) x.2)).

Section groups.
Context {K : Type} (kf : Row → K) (sf : Row → Z).

(** The record at position [i] shares its key with another record. *)
Definition dup_at (l : list (nat * Row)) (i : nat) : Prop :=
  ∃ x j y, l !! i = Some x ∧ l !! j = Some y ∧ j ≠ i ∧ kf y.2 = kf x.2.

(** Positions [i] and [j] hold records of one group. *)
Definition same_group (l : list (nat * Row)) (i j : nat) : Prop :=
  ∃ x y, l !! i = Some x ∧ l !! j = Some y ∧ kf y.2 = kf x.2.

(** The record at position [i] has the largest score of its group and is
    the first of the group to have it. *)
Definition first_max_at (l : list (nat * Row)) (i : nat) : Prop :=
  ∃ x, l !! i = Some x ∧
    ∀ j y, l !! j = Some y → kf y.2 = kf x.2 →
      sf y.2 ≤ sf x.2 ∧ ((j < i)%nat → sf y.2 < sf x.2).
End groups.

Definition in_duplicate_group (cfg : Config) := dup_at (record_key cfg).
Definition is_survivor (cfg : Config) := first_max_at (record_key cfg) (record_score cfg).

(** Names the engine writes itself.  A key column with one of these names
    is overwritten by the engine's own column. *)
Definition transient_columns : list string := ["STAGE"; "_score"].

Definition engine_columns : list string :=
  ["STAGE"; "_score"; "_merge_key"; "STAGE_kept"; "_score_kept"; "reason"].

(** The four stage labels, in the precedence order of the Stage Deriver. *)
Definition precedence : list string := ["ENROLL"; "COMMIT"; "ADMIT"; "APPLY"].

(** The flag column configured for [label] holds the value 1 in [row]. *)
Definition holds_1 (cfg : Config) (row : Row) (label : string) : Prop :=
  ∃ c, flags cfg !! label = Some c ∧ row !! c = Some (VInt 1).


(** A string of white space only. *)
Fixpoint blank (s : string) : bool :=
  match s with
  | EmptyString => true
  | String a s' => isspace a && blank s'
  end.

(** The key cells of the frame already are trimmed strings. *)
Definition trimmed_keys (cfg : Config) (d : DataFrame) : Prop :=
  ∀ x k v, x ∈ rows d → k ∈ keys cfg → x.2 !! k = Some v → strip_cell v = v.

(** The frame has no column called [STAGE] or [_score]. *)
Definition no_transient (d : DataFrame) : Prop :=
  (∀ c, c ∈ transient_columns → c ∉ columns d) ∧
  (∀ x c, x ∈ rows d → c ∈ transient_columns → x.2 !! c = None).

(** The frame of the no-duplicates path: keys normalized, transient columns
    dropped, nothing else changed. *)
Definition normalized_frame (cfg : Config) (d : DataFrame) : DataFrame :=
  {| columns := filter (λ c, c ∉ transient_columns) (columns d);
     rows := out_row cfg <$> rows d |}.

(** The configurations the model follows pandas on: the key columns are
    pairwise distinct, neither a key column nor a flag column has a name the
    engine writes itself, and no flag column is a key column.  (Outside of
    them pandas meets repeated column labels.) *)
Definition plain_config (cfg : Config) : Prop :=
  NoDup (keys cfg) ∧
  Forall (λ k, k ∉ engine_columns) (keys cfg) ∧
  Forall (λ c, (c ∉ engine_columns) ∧ (c ∉ keys cfg)) (flag_cols_of cfg).

#[global] Instance plain_config_dec cfg : Decision (plain_config cfg).
Proof. unfold plain_config. apply _. Defined.

(** Records of different groups have different merge keys. *)
Definition merge_keys_distinct (cfg : Config) (d : DataFrame) : Prop :=
  ∀ x y, x ∈ rows d → y ∈ rows d →
    merge_key (keys cfg) (strip_row (keys cfg) x.2)
    = merge_key (keys cfg) (strip_row (keys cfg) y.2) →
    record_key cfg x.2 = record_key cfg y.2.

(** The Removal Reason of the specification. *)
Definition reason_of (removed_score survivor_score : Z) : string :=
  if removed_score <? survivor_score then "duplicate: lower-priority stage"
  else "duplicate: same stage, kept first".

(** [row] is the audit row of the removed record [x]: it shows the key
    cells, stage and score of [x], the stage and score of the survivor of the
    group of [x], and the reason. *)
Definition audit_row_of (cfg : Config) (l : list (nat * Row))
    (row : Row) (x : nat * Row) : Prop :=
  ∃ j y, l !! j = Some y ∧ is_survivor cfg l j ∧
    record_key cfg y.2 = record_key cfg x.2 ∧
    (∀ k, k ∈ keys cfg → row !! k = strip_cell <$> x.2 !! k) ∧
    cell row "STAGE" = of_option_str (record_stage cfg x.2) ∧
    cell row "STAGE_kept" = of_option_str (record_stage cfg y.2) ∧
    cell row "_score" = VInt (record_score cfg x.2) ∧
    cell row "_score_kept" = VInt (record_score cfg y.2) ∧
    (record_score cfg x.2 ≤ record_score cfg y.2) ∧
    cell row "reason"
    = VStr (reason_of (record_score cfg x.2) (record_score cfg y.2)).

(** The reason the code writes for a removed score and the score it is
    paired with. *)
Definition reason_between (removed_score paired_score : Z) : string :=
  if removed_score <? paired_score then "duplicate: lower-priority stage"
  else if removed_score =? paired_score then "duplicate: same stage, kept first"
  else "duplicate".

(** [row] pairs the removed record [x] with a survivor whose ['||']-joined
    key is the one of [x]: it shows the key cells, stage and score of [x],
    the stage and score of that survivor, and the reason computed from the
    two scores. *)
Definition audit_pair_of (cfg : Config) (l : list (nat * Row))
    (row : Row) (x : nat * Row) : Prop :=
  ∃ j y, l !! j = Some y ∧ is_survivor cfg l j ∧
    merge_key (keys cfg) (strip_row (keys cfg) y.2)
    = merge_key (keys cfg) (strip_row (keys cfg) x.2) ∧
    (∀ k, k ∈ keys cfg → row !! k = strip_cell <$> x.2 !! k) ∧
    cell row "STAGE" = of_option_str (record_stage cfg x.2) ∧
    cell row "STAGE_kept" = of_option_str (record_stage cfg y.2) ∧
    cell row "_score" = VInt (record_score cfg x.2) ∧
    cell row "_score_kept" = VInt (record_score cfg y.2) ∧
    cell row "reason"
    = VStr (reason_between (record_score cfg x.2) (record_score cfg y.2)).

(** [t] is [s] without the white space around it: [s] is [t] between two
    runs of white space, and [t] neither starts nor ends with white space. *)
Definition starts_with_space (s : string) : bool :=
  match s with
  | EmptyString => false
  | String a _ => isspace a
  end.

Fixpoint ends_with_space (s : string) : bool :=
  match s with
  | EmptyString => false
  | String a EmptyString => isspace a
  | String _ s' => ends_with_space s'
  end.

Definition trimmed_form (s t : string) : Prop :=
  ∃ pre post, s = pre +:+ (t +:+ post) ∧
    blank pre = true ∧ blank post = true ∧
    starts_with_space t = false ∧ ends_with_space t = false.

(** Kinds of failure. *)
Definition is_ValueError (o : exn + DataFrame * DataFrame) : Prop :=
  ∃ msg cols, o = inl (ValueError msg cols).

Definition is_KeyError (o : exn + DataFrame * DataFrame) : Prop :=
  ∃ cols, o = inl (KeyError cols).

(** Some stage label is configured with a non-empty column name that the
    dataset does not have. *)
Definition flag_column_missing (cfg : Config) (d : DataFrame) : Prop :=
  ∃ label c, label ∈ precedence ∧ flags cfg !! label = Some c ∧
             c ≠ "" ∧ c ∉ columns d.

(** ** Example inputs *)

(** The configuration of [main.py]. *)
Definition main_config : Config :=
  {| keys := ["STUDENTID"];
     flags := <["APPLY" := "FLAG_APP"]> (<["ADMIT" := "FLAG_ADM"]>
              (<["COMMIT" := "FLAG_CON"]> (<["ENROLL" := "FLAG_ENR"]> ∅)));
     funnel_priority := ["ENROLL"; "COMMIT"; "ADMIT"; "APPLY"];
     threshold_for_removing := Some (2 # 1)%Q |}.

Definition student (id : value) (app adm con enr : Z) : Row :=
  <["STUDENTID" := id]> (<["FLAG_APP" := VInt app]> (<["FLAG_ADM" := VInt adm]>
    (<["FLAG_CON" := VInt con]> (<["FLAG_ENR" := VInt enr]> ∅)))).

Definition student_columns : list string :=
  ["STUDENTID"; "FLAG_APP"; "FLAG_ADM"; "FLAG_CON"; "FLAG_ENR"].

(** One student recorded at two stages (once with a padded id), and one
    student recorded once. *)
Definition students : DataFrame :=
  from_records student_columns
    [student (VInt 1) 1 0 0 0; student (VStr " 1 ") 1 1 1 1; student (VInt 2) 1 1 0 0].

(** Two duplicate groups under the keys [A], [B] whose key values join to
    the same merge key ["x||y||z"]. *)
Definition pair_config : Config :=
  {| keys := ["A"; "B"];
     flags := <["ENROLL" := "E"]> ∅;
     funnel_priority := ["ENROLL"];
     threshold_for_removing := Some (2 # 1)%Q |}.

Definition pair_row (a b : string) (e : Z) : Row :=
  <["A" := VStr a]> (<["B" := VStr b]> (<["E" := VInt e]> ∅)).

Definition pairs : DataFrame :=
  from_records ["A"; "B"; "E"]
    [pair_row "x||y" "z" 1; pair_row "x||y" "z" 1;
     pair_row "x" "y||z" 0; pair_row "x" "y||z" 0].

(** The rows of a frame as plain association lists, for display. *)
Definition show_rows (d : DataFrame) : list (list (string * value)) :=
  (λ x, (λ c, (c, cell x.2 c)) <$> columns d) <$> rows d.

(** A configuration whose key column is not a column of [students]. *)
Definition missing_key_config : Config :=
  {| keys := ["ID"]; flags := ∅; funnel_priority := [];
     threshold_for_removing := Some (2 # 1)%Q |}.

(** The same, with a flag column that [students] lacks as well. *)
Definition missing_both_config : Config :=
  {| keys := ["ID"]; flags := <["ENROLL" := "FLAG_X"]> ∅;
     funnel_priority := ["ENROLL"];
     threshold_for_removing := Some (2 # 1)%Q |}.

(** A stage label configured with the empty column name. *)
Definition empty_flag_name_config : Config :=
  {| keys := ["STUDENTID"]; flags := <["ENROLL" := ""]> ∅;
     funnel_priority := ["ENROLL"];
     threshold_for_removing := Some (2 # 1)%Q |}.

(** Two students, each recorded once, with integer ids. *)
Definition two_students : DataFrame :=
  from_records student_columns
    [student (VInt 1) 1 0 0 0; student (VInt 2) 1 1 0 0].

(** The two scenarios of the specification: one applicant recorded at the
    APPLY stage and at the ENROLL stage, and one applicant recorded twice at
    the ENROLL stage. *)
Definition apply_then_enroll : DataFrame :=
  from_records student_columns
    [student (VInt 1) 1 0 0 0; student (VInt 1) 0 0 0 1].

Definition enroll_twice : DataFrame :=
  from_records student_columns
    [student (VInt 1) 0 0 0 1; student (VInt 1) 0 0 0 1].


(** A frame whose row labels repeat, as after [pd.concat] of two frames:
    two records of the applicant [a] and two of the applicant [b], with the
    labels 0, 1, 1, 2. *)
Definition label_config : Config :=
  {| keys := ["K"]; flags := <["ENROLL" := "F"]> ∅;
     funnel_priority := ["ENROLL"];
     threshold_for_removing := Some (2 # 1)%Q |}.

Definition label_row (k : string) (f : Z) : Row :=
  <["K" := VStr k]> (<["F" := VInt f]> ∅).

Definition repeated_labels : DataFrame :=
  {| columns := ["K"; "F"];
     rows := [(0%nat, label_row "a" 1); (1%nat, label_row "a" 0);
              (1%nat, label_row "b" 0); (2%nat, label_row "b" 0)] |}.

(** Key columns named like columns the engine writes. *)
Definition stage_key_config : Config :=
  {| keys := ["STAGE"]; flags := ∅; funnel_priority := [];
     threshold_for_removing := Some (2 # 1)%Q |}.

Definition stage_key_frame : DataFrame :=
  from_records ["STAGE"] [<["STAGE" := VStr " x "]> ∅].

Definition reason_key_config : Config :=
  {| keys := ["reason"]; flags := ∅; funnel_priority := [];
     threshold_for_removing := Some (2 # 1)%Q |}.

Definition reason_key_frame : DataFrame :=
  from_records ["reason"]
    [<["reason" := VStr "a"]> ∅; <["reason" := VStr "a"]> ∅].


(** ** The run statistics *)

(** A configuration with another [threshold_for_removing] entry. *)
Definition with_threshold (cfg : Config) (t : option Q) : Config :=
  {| keys := keys cfg; flags := flags cfg;
     funnel_priority := funnel_priority cfg;
     threshold_for_removing := t |}.

(** Line 86: a threshold above 1 is a percentage. *)
Definition threshold_fraction (t : Q) : Q :=
  if Qlt_le_dec 1 t then (t / 100)%Q else t.

(** Line 85 for a non-empty dataset. *)
Definition share (removed_n total : nat) : Q :=
  (inject_Z (Z.of_nat removed_n) / inject_Z (Z.of_nat total))%Q.

Definition is_warning (e : event) : bool :=
  match e with
  | LogWarning _ _ _ _ => true
  | _ => false
  end.

(** Configurations on which the call on [students] fails. *)
Definition no_keys_config : Config :=
  {| keys := []; flags := ∅; funnel_priority := [];
     threshold_for_removing := None |}.

Definition missing_flag_config : Config :=
  {| keys := ["STUDENTID"]; flags := <["ENROLL" := "FLAG_X"]> ∅;
     funnel_priority := ["ENROLL"];
     threshold_for_removing := Some (2 # 1)%Q |}.

(** A configuration with another [flags] entry. *)
Definition with_flags (cfg : Config) (f : gmap string string) : Config :=
  {| keys := keys cfg; flags := f;
     funnel_priority := funnel_priority cfg;
     threshold_for_removing := threshold_for_removing cfg |}.

(** No character of [s] is white space. *)
Fixpoint no_space (s : string) : bool :=
  match s with
  | EmptyString => true
  | String a s' => negb (isspace a) && no_space s'
  end.
(** * Properties *)

(** ** White space *)

Lemma lstrip_idem s : lstrip (lstrip s) = lstrip s.
Proof.
  induction s as [|a s IH]; simpl; [done|].
  destruct (isspace a) eqn:E; [done|]. simpl. by rewrite E.
Qed.

Lemma rstrip_idem s : rstrip (rstrip s) = rstrip s.
Proof.
  induction s as [|a s IH]; simpl; [done|].
  destruct (rstrip s) as [|b t] eqn:E.
  - destruct (isspace a) eqn:Ea; simpl; [done|]. by rewrite Ea.
  - change (rstrip (String a (String b t)) = String a (String b t)).
    simpl rstrip at 1. change (match rstrip t with
      | EmptyString => if isspace b then EmptyString else String b EmptyString
      | String a0 s0 => String b (String a0 s0) end) with (rstrip (String b t)).
    by rewrite IH.
Qed.

Lemma rstrip_lstrip s : rstrip s = s → rstrip (lstrip s) = lstrip s.
Proof.
  induction s as [|a s IH]; [done|]. intros H.
  simpl lstrip. destruct (isspace a) eqn:Ea; [|done].
  apply IH. simpl in H. destruct (rstrip s) eqn:E.
  - rewrite Ea in H. discriminate.
  - by injection H.
Qed.

Lemma strip_idem s : strip (strip s) = strip s.
Proof.
  unfold strip. rewrite (rstrip_lstrip (rstrip s)) by apply rstrip_idem.
  apply lstrip_idem.
Qed.

Lemma strip_cell_idem v : strip_cell (strip_cell v) = strip_cell v.
Proof. unfold strip_cell. simpl. by rewrite strip_idem. Qed.

(** ** Masks *)

Lemma loc_mask_fmap {A B} (f : A → bool) (g : A → B) (l : list A) :
  loc_mask (f <$> l) (g <$> l) = g <$> filter (λ x, f x = true) l.
Proof.
  induction l as [|x l IH]; [done|]. csimpl.
  rewrite IH. rewrite filter_cons. by destruct (f x).
Qed.

Lemma loc_mask_self {A} (f : A → bool) (l : list A) :
  loc_mask (f <$> l) l = filter (λ x, f x = true) l.
Proof.
  rewrite <- (list_fmap_id l) at 2. rewrite loc_mask_fmap. apply list_fmap_id.
Qed.

Lemma zip_with_fmap_self {A B C} (h : B → A → C) (f : A → B) (l : list A) :
  zip_with h (f <$> l) l = (λ x, h (f x) x) <$> l.
Proof. induction l as [|x l IH]; [done|]. csimpl. by rewrite IH. Qed.

Lemma existsb_id_fmap {A} (f : A → bool) (l : list A) :
  existsb id (f <$> l) = false ↔ ∀ x, x ∈ l → f x = false.
Proof.
  induction l as [|x l IH]; simpl.
  - split; [|done]. intros _ x Hx. by apply elem_of_nil in Hx.
  - unfold id at 1. rewrite orb_false_iff, IH. split.
    + intros [H1 H2] y Hy. apply elem_of_cons in Hy as [->|Hy]; auto.
    + intros H. split; [apply H; left|]. intros y Hy. apply H. by right.
Qed.

(** ** [idxmax] *)

Lemma idxmax_elem l p : idxmax l = Some p → p ∈ l.
Proof.
  revert p. induction l as [|[i s] l IH]; intros p; simpl; [done|].
  destruct (idxmax l) as [[j t]|].
  - destruct (s <? t); intros [= <-].
    + right. by apply IH.
    + left.
  - intros [= <-]. left.
Qed.

Lemma idxmax_None l : idxmax l = None ↔ l = [].
Proof.
  destruct l as [|[i s] l]; simpl; [done|].
  destruct (idxmax l) as [[j t]|]; [destruct (s <? t)|]; done.
Qed.

Lemma idxmax_max l p : idxmax l = Some p → Forall (λ y, y.2 ≤ p.2) l.
Proof.
  revert p. induction l as [|[i s] l IH]; intros p; simpl; [constructor|].
  destruct (idxmax l) as [[j t]|] eqn:E.
  - specialize (IH _ eq_refl). simpl in IH.
    destruct (Z.ltb_spec s t); intros [= <-]; simpl.
    + constructor; [simpl; lia | done].
    + constructor; [simpl; lia|].
      eapply Forall_impl; [exact IH|]. simpl. intros; lia.
  - apply idxmax_None in E as ->. intros [= <-]. by constructor.
Qed.

(** With distinct labels, the element at a given place is the result of
    [idxmax] exactly when everything before it is strictly smaller and
    nothing after it is larger. *)
Lemma idxmax_middle l1 i s l2 :
  NoDup (fst <$> (l1 ++ (i, s) :: l2)) →
  (fst <$> idxmax (l1 ++ (i, s) :: l2)) = Some i ↔
  Forall (λ y, y.2 < s) l1 ∧ Forall (λ y, y.2 ≤ s) l2.
Proof.
  induction l1 as [|[a u] l1 IH]; simpl.
  - intros Hnd. apply NoDup_cons in Hnd as [Hi _].
    destruct (idxmax l2) as [[j t]|] eqn:E.
    + pose proof (idxmax_max _ _ E) as Hmax. simpl in Hmax.
      pose proof (idxmax_elem _ _ E) as Hel.
      destruct (Z.ltb_spec s t); simpl.
      * split.
        -- intros [= ->]. exfalso. apply Hi.
           apply list_elem_of_fmap. by exists (i, t).
        -- intros [_ H2]. rewrite Forall_forall in H2.
           specialize (H2 _ Hel). simpl in H2. lia.
      * split; [|done]. intros _. split; [constructor|].
        eapply Forall_impl; [exact Hmax|]. simpl. intros; lia.
    + apply idxmax_None in E as ->. simpl. split; [|done].
      intros _. split; constructor.
  - intros Hnd. apply NoDup_cons in Hnd as [Ha Hnd]. specialize (IH Hnd).
    destruct (idxmax (l1 ++ (i, s) :: l2)) as [[j t]|] eqn:E.
    + pose proof (idxmax_max _ _ E) as Hmax. simpl in Hmax.
      destruct (Z.ltb_spec u t); simpl.
      * simpl in IH. rewrite IH. rewrite Forall_cons. simpl.
        split; [|tauto]. intros [H1 H2]. split; [|done]. split; [|done].
        assert (t = s) as ->; [|done].
        assert (fst <$> Some (j, t) = Some i) as [= ->] by (apply IH; done).
        apply idxmax_elem in E.
        rewrite Forall_forall in Hmax.
        assert ((i, s) ∈ l1 ++ (i, s) :: l2) as Hs
          by (apply elem_of_app; right; left).
        specialize (Hmax _ Hs). simpl in Hmax.
        apply elem_of_app in E as [E|E].
        -- rewrite Forall_forall in H1. specialize (H1 _ E). simpl in H1. lia.
        -- apply elem_of_cons in E as [[= ->]|E]; [done|].
           rewrite Forall_forall in H2. specialize (H2 _ E). simpl in H2. lia.
      * split.
        -- intros [= ->]. exfalso. apply Ha. rewrite fmap_app. simpl.
           apply elem_of_app. right. left.
        -- intros [H1 H2]. exfalso. apply Forall_cons in H1 as [H1 H1'].
           simpl in H1. rewrite Forall_forall in Hmax.
           assert ((i, s) ∈ l1 ++ (i, s) :: l2) as Hs
             by (apply elem_of_app; right; left).
           specialize (Hmax _ Hs). simpl in Hmax. lia.
    + apply idxmax_None in E. by destruct l1.
Qed.

(** ** Positions in a list *)

Lemma lookup_split {A} (l : list A) i x :
  l !! i = Some x → l = take i l ++ x :: drop (S i) l ∧ length (take i l) = i.
Proof.
  intros H. split; [by rewrite take_drop_middle|].
  apply length_take_le. apply lookup_lt_Some in H. lia.
Qed.

Lemma lookup_middle_inv {A} (l1 : list A) x l2 j y :
  (l1 ++ x :: l2) !! j = Some y →
  ((j < length l1)%nat ∧ y ∈ l1) ∨ (j = length l1 ∧ y = x) ∨
  ((length l1 < j)%nat ∧ y ∈ l2).
Proof.
  intros H. destruct (decide (j < length l1)%nat) as [Hlt|Hge].
  - left. split; [done|]. rewrite lookup_app_l in H by done.
    by eapply list_elem_of_lookup_2.
  - right. rewrite lookup_app_r in H by lia.
    destruct (j - length l1)%nat as [|n] eqn:E; simpl in H.
    + left. split; [lia|congruence].
    + right. split; [lia|]. by eapply list_elem_of_lookup_2.
Qed.

Lemma elem_of_before {A} (l1 : list A) x l2 y :
  y ∈ l1 → ∃ j, (j < length l1)%nat ∧ (l1 ++ x :: l2) !! j = Some y.
Proof.
  intros H. apply list_elem_of_lookup_1 in H as [j Hj]. exists j.
  pose proof (lookup_lt_Some _ _ _ Hj). split; [done|].
  by rewrite lookup_app_l.
Qed.

Lemma elem_of_after {A} (l1 : list A) x l2 y :
  y ∈ l2 → ∃ j, (length l1 < j)%nat ∧ (l1 ++ x :: l2) !! j = Some y.
Proof.
  intros H. apply list_elem_of_lookup_1 in H as [j Hj].
  exists (length l1 + S j)%nat. split; [lia|].
  rewrite lookup_app_r by lia.
  replace (length l1 + S j - length l1)%nat with (S j) by lia. done.
Qed.

Section group_lemmas.
Context {K : Type} (kf : Row → K) (sf : Row → Z).

Lemma first_max_middle l1 x l2 :
  first_max_at kf sf (l1 ++ x :: l2) (length l1) ↔
  (∀ y, y ∈ l1 → kf y.2 = kf x.2 → sf y.2 < sf x.2) ∧
  (∀ y, y ∈ l2 → kf y.2 = kf x.2 → sf y.2 ≤ sf x.2).
Proof.
  split.
  - intros (x' & Hx & H). rewrite list_lookup_middle in Hx by done.
    injection Hx as <-. split; intros y Hy Hk.
    + destruct (elem_of_before l1 x l2 y Hy) as (j & Hj & Hl).
      by apply (H j y Hl Hk).
    + destruct (elem_of_after l1 x l2 y Hy) as (j & Hj & Hl).
      by apply (H j y Hl Hk).
  - intros [H1 H2]. exists x. split; [by apply list_lookup_middle|].
    intros j y Hl Hk.
    destruct (lookup_middle_inv _ _ _ _ _ Hl) as [[Hj Hy]|[[-> ->]|[Hj Hy]]].
    + specialize (H1 y Hy Hk). split; [lia|done].
    + split; [lia|lia].
    + specialize (H2 y Hy Hk). split; [done|lia].
Qed.

Lemma dup_middle l1 x l2 :
  dup_at kf (l1 ++ x :: l2) (length l1) ↔
  ∃ y, (y ∈ l1 ∨ y ∈ l2) ∧ kf y.2 = kf x.2.
Proof.
  split.
  - intros (x' & j & y & Hx & Hy & Hne & Hk).
    rewrite list_lookup_middle in Hx by done. injection Hx as <-.
    exists y. split; [|done].
    destruct (lookup_middle_inv _ _ _ _ _ Hy) as [[_ ?]|[[? _]|[_ ?]]]; auto.
    done.
  - intros (y & [Hy|Hy] & Hk).
    + destruct (elem_of_before l1 x l2 y Hy) as (j & Hj & Hl).
      exists x, j, y. split; [by apply list_lookup_middle|].
      split; [done|]. split; [lia|done].
    + destruct (elem_of_after l1 x l2 y Hy) as (j & Hj & Hl).
      exists x, j, y. split; [by apply list_lookup_middle|].
      split; [done|]. split; [lia|done].
Qed.

(** Two survivors of one group are the same record. *)
Lemma first_max_unique l i j :
  first_max_at kf sf l i → first_max_at kf sf l j →
  same_group kf l i j → i = j.
Proof.
  intros (x & Hx & Hi) (y & Hy & Hj) (x' & y' & Hx' & Hy' & Hk).
  rewrite Hx in Hx'. injection Hx' as <-.
  rewrite Hy in Hy'. injection Hy' as <-.
  destruct (Hi j y Hy Hk) as [Hle Hlt].
  destruct (Hj i x Hx (eq_sym Hk)) as [Hle' Hlt'].
  destruct (decide (i < j)%nat); [specialize (Hlt' ltac:(done)); lia|].
  destruct (decide (j < i)%nat); [specialize (Hlt ltac:(done)); lia|].
  lia.
Qed.

(** The predicates only look at keys and scores, so they are preserved by
    a position-wise change of representation. *)
Lemma dup_at_fmap {K'} (kf' : Row → K') (g : nat * Row → nat * Row) l i :
  (∀ x y, kf' (g y).2 = kf' (g x).2 ↔ kf y.2 = kf x.2) →
  dup_at kf' (g <$> l) i ↔ dup_at kf l i.
Proof.
  intros Hk. split.
  - intros (x & j & y & Hx & Hy & Hne & He).
    rewrite list_lookup_fmap in Hx, Hy.
    destruct (l !! i) as [x0|] eqn:Ei; [|done].
    destruct (l !! j) as [y0|] eqn:Ej; [|done].
    simpl in *. injection Hx as <-. injection Hy as <-.
    exists x0, j, y0. by rewrite <- Hk.
  - intros (x & j & y & Hx & Hy & Hne & He).
    exists (g x), j, (g y). rewrite !list_lookup_fmap, Hx, Hy.
    by rewrite Hk.
Qed.

Lemma first_max_at_fmap {K'} (kf' : Row → K') (sf' : Row → Z)
    (g : nat * Row → nat * Row) l i :
  (∀ x y, kf' (g y).2 = kf' (g x).2 ↔ kf y.2 = kf x.2) →
  (∀ x, sf' (g x).2 = sf x.2) →
  first_max_at kf' sf' (g <$> l) i ↔ first_max_at kf sf l i.
Proof.
  intros Hk Hs. split.
  - intros (x & Hx & H). rewrite list_lookup_fmap in Hx.
    destruct (l !! i) as [x0|] eqn:Ei; [|done]. injection Hx as <-.
    exists x0. split; [done|]. intros j y Hy He.
    specialize (H j (g y)). rewrite list_lookup_fmap, Hy in H.
    rewrite !Hs in H. apply H; [done|]. by rewrite Hk.
  - intros (x & Hx & H). exists (g x).
    rewrite list_lookup_fmap, Hx. split; [done|].
    intros j y' Hy He. rewrite list_lookup_fmap in Hy.
    destruct (l !! j) as [y|] eqn:Ej; [|done]. injection Hy as <-.
    rewrite !Hs. apply H; [done|]. by rewrite <- Hk.
Qed.
End group_lemmas.

(** ** Lists of lists *)

Lemma filter_flat_map {A B} (P : B → Prop) `{!∀ x, Decision (P x)}
    (F : A → list B) (G : list A) :
  filter P (flat_map F G) = flat_map (λ g, filter P (F g)) G.
Proof. induction G as [|g G IH]; simpl; [done|]. by rewrite filter_app, IH. Qed.

Lemma flat_map_nil_all {A B} (F : A → list B) (G : list A) :
  (∀ g, g ∈ G → F g = []) → flat_map F G = [].
Proof.
  induction G as [|g G IH]; intros H; simpl; [done|].
  rewrite (H g) by left. simpl. apply IH. intros g' Hg'. apply H. by right.
Qed.

Lemma flat_map_single {A B} (F : A → list B) (G : list A) g0 :
  NoDup G → g0 ∈ G → (∀ g, g ∈ G → g ≠ g0 → F g = []) →
  flat_map F G = F g0.
Proof.
  induction G as [|g G IH]; intros Hnd Hin HF; [by apply elem_of_nil in Hin|].
  apply NoDup_cons in Hnd as [Hg Hnd]. simpl.
  apply elem_of_cons in Hin as [->|Hin].
  - rewrite flat_map_nil_all; [apply app_nil_r|].
    intros g' Hg'. apply HF; [by right|]. by intros ->.
  - rewrite (HF g); [|left|by intros ->]. simpl.
    apply IH; [done|done|]. intros g' Hg' Hne. apply HF; [by right|done].
Qed.

Lemma flat_map_omap {A B C} (h : A → option B) (F : B → list C) (G : list A) :
  flat_map F (omap h G)
  = flat_map (λ g, match h g with Some n => F n | None => [] end) G.
Proof.
  induction G as [|g G IH]; [done|]. csimpl.
  destruct (h g); simpl; by rewrite IH.
Qed.

Lemma flat_map_singletons {A B C} (F : B → list C) (g : A → B) (h : A → C)
    (l : list A) :
  (∀ x, x ∈ l → F (g x) = [h x]) → flat_map F (g <$> l) = h <$> l.
Proof.
  induction l as [|x l IH]; intros H; [done|]. csimpl.
  rewrite (H x) by left. simpl. f_equal. apply IH.
  intros y Hy. apply H. by right.
Qed.

Lemma filter_label_absent (l : list (nat * Row)) n :
  n ∉ fst <$> l → filter (λ y, y.1 = n) l = [].
Proof.
  induction l as [|a l IH]; [done|]. csimpl. intros H.
  apply not_elem_of_cons in H as [H1 H2].
  rewrite filter_cons_False by (intros He; by apply H1). by apply IH.
Qed.

Lemma filter_label_singleton (l : list (nat * Row)) z :
  NoDup (fst <$> l) → z ∈ l → filter (λ y, y.1 = z.1) l = [z].
Proof.
  induction l as [|a l IH]; [by intros _ H; apply elem_of_nil in H|].
  csimpl. intros [Ha Hnd]%NoDup_cons Hz.
  apply elem_of_cons in Hz as [->|Hz].
  - rewrite filter_cons_True by done. by rewrite filter_label_absent.
  - rewrite filter_cons_False; [by apply IH|].
    intros He. apply Ha. rewrite He. apply list_elem_of_fmap. by exists z.
Qed.

(** ** The duplicate mask and the kept labels *)

Section resolver.
Variable ks : list string.
Variable l : list (nat * Row).
Hypothesis unique_labels : NoDup (fst <$> l).

Let key (x : nat * Row) := key_tuple ks x.2.
Let dupP (x : nat * Row) : Prop :=
    (1 < length (filter (λ y, key y = key x) l))%nat.
Let dups := loc_mask (duplicated ks l) l.
Let keep_idx := groupby_idxmax ks dups.

Lemma duplicated_unfold : duplicated ks l = (λ x, bool_decide (dupP x)) <$> l.
Proof. done. Qed.

Lemma dups_filter : dups = filter dupP l.
Proof.
  unfold dups. rewrite duplicated_unfold, loc_mask_self.
  apply list_filter_iff. intros x. by rewrite bool_decide_eq_true.
Qed.

Lemma dupP_key x y : key y = key x → dupP y ↔ dupP x.
Proof. unfold dupP. by intros ->. Qed.

Lemma dupP_dup_at i x : l !! i = Some x → dupP x ↔ dup_at (key_tuple ks) l i.
Proof.
  intros Hx. destruct (lookup_split _ _ _ Hx) as [Hl Hlen].
  unfold dupP. remember (take i l) as l1. remember (drop (S i) l) as l2.
  rewrite Hl, <- Hlen. clear.
  rewrite dup_middle. rewrite filter_app, filter_cons_True by done.
  rewrite length_app. simpl. split.
  - intros H.
    destruct (filter (λ y, key y = key x) l1) as [|y t] eqn:E1.
    + destruct (filter (λ y, key y = key x) l2) as [|y t] eqn:E2;
        [simpl in H; lia|].
      assert (y ∈ filter (λ y, key y = key x) l2) as Hy
        by (rewrite E2; left).
      apply list_elem_of_filter in Hy as [Hk Hy]. exists y. auto.
    + assert (y ∈ filter (λ y, key y = key x) l1) as Hy
        by (rewrite E1; left).
      apply list_elem_of_filter in Hy as [Hk Hy]. exists y. auto.
  - intros (y & [Hy|Hy] & Hk).
    + assert (y ∈ filter (λ y, key y = key x) l1) as Hf
        by (apply list_elem_of_filter; done).
      destruct (filter (λ y, key y = key x) l1); simpl; [|lia].
      by apply elem_of_nil in Hf.
    + assert (y ∈ filter (λ y, key y = key x) l2) as Hf
        by (apply list_elem_of_filter; done).
      destruct (filter (λ y, key y = key x) l2); simpl; [|lia].
      by apply elem_of_nil in Hf.
Qed.

Lemma same_label x y : x ∈ l → y ∈ l → x.1 = y.1 → x = y.
Proof.
  intros Hx Hy He.
  apply list_elem_of_lookup_1 in Hx as [i Hi].
  apply list_elem_of_lookup_1 in Hy as [j Hj].
  assert (i = j) as ->.
  { eapply NoDup_lookup; [exact unique_labels| |].
    - by rewrite list_lookup_fmap, Hi.
    - by rewrite list_lookup_fmap, Hj, He. }
  congruence.
Qed.

Lemma group_of_dups x :
  dupP x → filter (λ y, key y = key x) dups = filter (λ y, key y = key x) l.
Proof.
  intros Hd. rewrite dups_filter, list_filter_filter.
  apply list_filter_iff. intros y. split; [tauto|].
  intros Hk. split; [done|]. by apply (dupP_key x y).
Qed.

Lemma elem_of_group_keys g : g ∈ group_keys ks dups ↔ ∃ x, x ∈ dups ∧ key x = g.
Proof.
  unfold group_keys. rewrite merge_sort_Permutation, elem_of_remove_dups.
  rewrite list_elem_of_fmap. split; [intros (x & -> & ?)|intros (x & ? & <-)]; by exists x.
Qed.

Lemma elem_of_keep_idx n :
  n ∈ keep_idx ↔
  ∃ x, x ∈ dups ∧
    fst <$> idxmax ((λ y, (y.1, score_cell y.2))
                      <$> filter (λ y, key y = key x) dups) = Some n.
Proof.
  unfold keep_idx, groupby_idxmax. rewrite list_elem_of_omap. split.
  - intros (g & Hg & Hn). apply elem_of_group_keys in Hg as (x & Hx & <-).
    by exists x.
  - intros (x & Hx & Hn). exists (key x). split; [|done].
    apply elem_of_group_keys. by exists x.
Qed.

(** A record of a duplicate group is kept exactly when it is the first
    record of its group with the largest score. *)
Lemma keep_idx_first_max i x :
  l !! i = Some x → dupP x →
  x.1 ∈ keep_idx ↔ first_max_at (key_tuple ks) score_cell l i.
Proof.
  intros Hx Hd.
  assert (x ∈ l) as Hxl by (by eapply list_elem_of_lookup_2).
  assert (x ∈ dups) as Hxd by (rewrite dups_filter; by apply list_elem_of_filter).
  destruct (lookup_split _ _ _ Hx) as [Hl Hlen].
  set (m := λ y : nat * Row, (y.1, score_cell y.2)).
  assert (fst <$> idxmax (m <$> filter (λ y, key y = key x) dups) = Some x.1
          ↔ first_max_at (key_tuple ks) score_cell l i) as Hmain.
  { rewrite (group_of_dups x Hd).
    pose proof unique_labels as Hnd. revert Hnd.
    remember (take i l) as l1. remember (drop (S i) l) as l2.
    rewrite Hl, <- Hlen. intros Hnd.
    rewrite filter_app, filter_cons_True by done.
    rewrite fmap_app, fmap_cons. rewrite first_max_middle.
    change (m x) with (x.1, score_cell x.2).
    rewrite idxmax_middle.
    - rewrite !Forall_fmap, !Forall_forall. simpl.
      setoid_rewrite list_elem_of_filter. unfold key.
      split; intros [H1 H2]; split; intros y;
        [specialize (H1 y)|specialize (H2 y)|specialize (H1 y)|specialize (H2 y)];
        tauto.
    - change (x.1, score_cell x.2) with (m x).
      rewrite <- fmap_cons, <- fmap_app, <- list_fmap_compose.
      rewrite <- (filter_cons_True (λ y, key y = key x)) by done.
      rewrite <- filter_app.
      change (fst ∘ m) with (@fst nat Row).
      apply (sublist_NoDup _ (fst <$> (l1 ++ x :: l2))); [exact Hnd|].
      apply fmap_sublist, sublist_filter. }
  rewrite <- Hmain, elem_of_keep_idx. clear Hmain. split.
  - intros (y & Hy & Hn).
    assert (key x = key y) as Hk; [|by rewrite Hk].
    revert Hn. destruct (idxmax _) as [p|] eqn:E; [|done].
    intros [= Hn]. apply idxmax_elem in E.
    apply list_elem_of_fmap in E as (z & -> & Hz).
    apply list_elem_of_filter in Hz as [Hk Hz]. simpl in Hn.
    assert (z = x) as ->; [|done].
    apply same_label; [|done|done].
    rewrite dups_filter in Hz. by apply list_elem_of_filter in Hz as [_ ?].
  - intros H. by exists x.
Qed.
(** The row that [groupby_idxmax] picks for a group. *)
Lemma idxmax_group_row g n :
  fst <$> idxmax ((λ y, (y.1, score_cell y.2))
                    <$> filter (λ y, key y = g) dups) = Some n →
  ∃ z, z ∈ dups ∧ z ∈ l ∧ key z = g ∧ z.1 = n ∧ filter (λ y, y.1 = n) l = [z].
Proof.
  destruct (idxmax _) as [p|] eqn:E; [|done]. intros [= Hn].
  apply idxmax_elem, list_elem_of_fmap in E as (z & -> & Hz).
  apply list_elem_of_filter in Hz as [Hk Hz]. exists z.
  assert (z ∈ l) as Hzl
    by (rewrite dups_filter in Hz; by apply list_elem_of_filter in Hz as [_ ?]).
  repeat split; try done. rewrite <- Hn. by apply filter_label_singleton.
Qed.

(** The kept frame holds exactly one row of each duplicate group: its first
    maximum. *)
Lemma kept_of_group i x :
  l !! i = Some x → dupP x →
  ∃ j z, l !! j = Some z ∧ key z = key x ∧
    first_max_at (key_tuple ks) score_cell l j ∧
    filter (λ s, key s = key x) (loc_labels keep_idx l) = [z].
Proof.
  intros Hx Hd.
  assert (x ∈ l) as Hxl by (by eapply list_elem_of_lookup_2).
  assert (x ∈ dups) as Hxd by (rewrite dups_filter; by apply list_elem_of_filter).
  assert (NoDup (group_keys ks dups)) as Hnd.
  { unfold group_keys. rewrite merge_sort_Permutation. apply NoDup_remove_dups. }
  assert (key x ∈ group_keys ks dups) as Hin
    by (apply elem_of_group_keys; by exists x).
  destruct (idxmax ((λ y, (y.1, score_cell y.2))
                      <$> filter (λ y, key y = key x) dups)) as [p|] eqn:E.
  2:{ apply idxmax_None, fmap_nil_inv in E.
      assert (x ∈ filter (λ y, key y = key x) dups) as H
        by (by apply list_elem_of_filter).
      rewrite E in H. by apply elem_of_nil in H. }
  destruct (idxmax_group_row (key x) p.1) as (z & Hzd & Hzl & Hk & Hn & Hf);
    [by rewrite E|].
  apply list_elem_of_lookup_1 in Hzl as [j Hj]. exists j, z.
  split; [done|]. split; [done|]. split.
  - apply (keep_idx_first_max j z Hj); [by apply (dupP_key x z)|].
    apply elem_of_keep_idx. exists x. split; [done|].
    rewrite E. simpl. by rewrite Hn.
  - unfold keep_idx, groupby_idxmax, loc_labels.
    rewrite flat_map_omap, filter_flat_map.
    rewrite (flat_map_single _ _ (key x)); [|done|done|].
    + unfold key in *. rewrite E. simpl. rewrite Hf.
      by rewrite filter_cons_True.
    + intros g Hg Hne.
      destruct (fst <$> idxmax _) as [n|] eqn:En; [|done].
      destruct (idxmax_group_row g n En) as (z' & _ & _ & Hk' & _ & ->).
      rewrite filter_cons_False; [done|]. unfold key in *. congruence.
Qed.
End resolver.

(** ** The engine, one outcome at a time *)

#[local] Opaque truthy_cols duplicated groupby_idxmax to_remove _log_formation
  drop_cols assign strip_keys loc_mask count_true score_map float_overflow.

Ltac run_engine :=
  unfold deduplicate, deduplicate_records, mbind, M_bind, mret, M_ret,
    read, modify, alloc, info, raise; simpl.

Lemma outcome_None d : outcome (deduplicate d None) = inr (d, empty_frame).
Proof. done. Qed.

Lemma outcome_Some d cfg :
  outcome (deduplicate d (Some cfg)) =
    if decide (keys cfg = []) then inl (ValueError "keys are empty" [])
    else if decide (Forall (λ k, k ∈ columns d) (keys cfg)) then
      if decide (missing_cols_of cfg d = []) then
        if existsb id (dup_mask_of cfg d) then
          match threshold_for_removing cfg with
          | Some t =>
              if float_overflow t
              then inl (OverflowError "int too large to convert to float")
              else inr (deduped_frame cfg d, audit_frame cfg d)
          | None =>
              inl (TypeError "'>' not supported between instances of 'NoneType' and 'int'")
          end
        else inr (drop_cols ["STAGE"; "_score"] (staged cfg d), empty_frame)
      else inl (ValueError "Dataset has no flag columns" (missing_cols_of cfg d))
    else inl (KeyError (filter (λ k, k ∉ columns d) (keys cfg))).
Proof.
  run_engine.
  destruct (decide (keys cfg = [])); [done|]. simpl.
  destruct (decide (Forall _ (keys cfg))); [|done]. simpl.
  change (filter _ (truthy_cols _)) with (missing_cols_of cfg d).
  destruct (decide (missing_cols_of cfg d = [])); [|done]. simpl.
  change (duplicated _ _) with (dup_mask_of cfg d).
  destruct (existsb id (dup_mask_of cfg d)); [|done]. simpl.
  destruct (threshold_for_removing cfg) as [t|]; [|done]. simpl.
  destruct (float_overflow t); [done|]. simpl.
  by destruct (Qlt_le_dec _ _).
Qed.

Lemma caller_frame_Some d cfg :
  caller_frame (deduplicate d (Some cfg)) =
    if decide (keys cfg = []) then d
    else if decide (Forall (λ k, k ∈ columns d) (keys cfg)) then
      if decide (missing_cols_of cfg d = []) then staged cfg d
      else strip_keys (keys cfg) d
    else d.
Proof.
  run_engine.
  destruct (decide (keys cfg = [])); [done|]. simpl.
  destruct (decide (Forall _ (keys cfg))); [|done]. simpl.
  change (filter _ (truthy_cols _)) with (missing_cols_of cfg d).
  destruct (decide (missing_cols_of cfg d = [])); [|done]. simpl.
  change (duplicated _ _) with (dup_mask_of cfg d).
  destruct (existsb id (dup_mask_of cfg d)); [|done]. simpl.
  destruct (threshold_for_removing cfg) as [t|]; [|done]. simpl.
  destruct (float_overflow t); [done|]. simpl.
  by destruct (Qlt_le_dec _ _).
Qed.

#[local] Transparent truthy_cols duplicated groupby_idxmax to_remove _log_formation
  drop_cols assign strip_keys loc_mask count_true score_map float_overflow.

(** ** Staged rows *)

Lemma rows_staged cfg d : rows (staged cfg d) = stage_row cfg <$> rows d.
Proof.
  unfold staged, assign, strip_keys. simpl.
  rewrite <- !list_fmap_compose. apply list_fmap_ext. intros i [n r] _.
  unfold stage_row, record_score, record_stage, priority, cell. simpl.
  by rewrite lookup_insert_eq.
Qed.

Lemma score_cell_stage_row cfg x :
  score_cell (stage_row cfg x).2 = record_score cfg x.2.
Proof. unfold score_cell, stage_row. simpl. by rewrite lookup_insert_eq. Qed.

Lemma stage_row_lookup_ne cfg x k :
  k ≠ "STAGE" → k ≠ "_score" →
  (stage_row cfg x).2 !! k = strip_row (keys cfg) x.2 !! k.
Proof.
  intros H1 H2. unfold stage_row. simpl.
  by rewrite !lookup_insert_ne.
Qed.

Lemma key_tuple_stage_row cfg x :
  "STAGE" ∉ keys cfg → "_score" ∉ keys cfg →
  key_tuple (keys cfg) (stage_row cfg x).2 = record_key cfg x.2.
Proof.
  intros H1 H2. unfold record_key, key_tuple.
  apply list_fmap_ext. intros i k Hk. apply list_elem_of_lookup_2 in Hk.
  apply stage_row_lookup_ne; intros ->; done.
Qed.

Lemma drop_row_stage_row cfg x :
  drop_row ["STAGE"; "_score"] (stage_row cfg x).2
  = drop_row ["STAGE"; "_score"] (strip_row (keys cfg) x.2).
Proof.
  unfold drop_row, stage_row. simpl.
  rewrite delete_insert_eq, delete_insert_ne by done.
  by rewrite delete_insert_eq.
Qed.

Lemma index_staged cfg d : fst <$> rows (staged cfg d) = index d.
Proof.
  rewrite rows_staged, <- list_fmap_compose. by apply list_fmap_ext.
Qed.

Lemma to_remove_mask_marked cfg d :
  to_remove_mask_of cfg d = marked cfg d <$> rows d.
Proof.
  unfold to_remove_mask_of, to_remove, dup_mask_of, duplicated.
  rewrite zip_with_fmap_self, rows_staged, <- list_fmap_compose.
  apply list_fmap_ext. intros i x _.
  unfold marked, keep_idx_of, dup_mask_of, duplicated.
  rewrite rows_staged. reflexivity.
Qed.

(** The rows of the deduped frame, on both successful paths. *)
Lemma rows_deduped_frame cfg d :
  rows (deduped_frame cfg d)
  = out_row cfg <$> filter (λ x, marked cfg d x = false) (rows d).
Proof.
  change (rows (deduped_frame cfg d)) with
    (loc_mask (negb <$> to_remove_mask_of cfg d)
       ((λ x, (x.1, drop_row ["STAGE"; "_score"] x.2)) <$> rows (staged cfg d))).
  rewrite to_remove_mask_marked, rows_staged, <- !list_fmap_compose.
  rewrite loc_mask_fmap.
  erewrite (list_filter_iff _ (λ x, marked cfg d x = false)).
  - apply list_fmap_ext. intros i x _. unfold out_row, compose. cbn [fst snd].
    by rewrite drop_row_stage_row.
  - intros x. unfold compose. by destruct (marked cfg d x).
Qed.

Lemma no_duplicates_marked cfg d x :
  existsb id (dup_mask_of cfg d) = false → x ∈ rows d → marked cfg d x = false.
Proof.
  unfold dup_mask_of, duplicated. rewrite existsb_id_fmap. intros H Hx.
  unfold marked. rewrite (H (stage_row cfg x)); [done|].
  rewrite rows_staged. apply list_elem_of_fmap. by exists x.
Qed.

Lemma rows_no_duplicates cfg d :
  existsb id (dup_mask_of cfg d) = false →
  rows (drop_cols ["STAGE"; "_score"] (staged cfg d))
  = out_row cfg <$> filter (λ x, marked cfg d x = false) (rows d).
Proof.
  intros H.
  change (rows (drop_cols ["STAGE"; "_score"] (staged cfg d))) with
    ((λ x, (x.1, drop_row ["STAGE"; "_score"] x.2)) <$> rows (staged cfg d)).
  rewrite rows_staged, <- list_fmap_compose.
  assert (filter (λ x, marked cfg d x = false) (rows d) = rows d) as ->.
  { pose proof (no_duplicates_marked cfg d) as Hm. specialize (λ x, Hm x H).
    induction (rows d) as [|x l IH]; [done|].
    rewrite filter_cons_True by (apply Hm; left).
    f_equal. apply IH. intros y Hy. apply Hm. by right. }
  apply list_fmap_ext. intros i x _. unfold out_row, compose. cbn [fst snd].
  by rewrite drop_row_stage_row.
Qed.

(** ** Every group has a first maximum *)

Section first_max_exists.
Context {K : Type} `{EqDecision K} (kf : Row → K) (sf : Row → Z).

Lemma first_max_of_group (l : list (nat * Row)) g :
  (∀ j y, l !! j = Some y → kf y.2 ≠ g) ∨
  (∃ j y, l !! j = Some y ∧ kf y.2 = g ∧
     ∀ j' y', l !! j' = Some y' → kf y'.2 = g →
       sf y'.2 ≤ sf y.2 ∧ ((j' < j)%nat → sf y'.2 < sf y.2)).
Proof.
  induction l as [|z l IH] using rev_ind.
  - left. intros j y Hy. done.
  - assert (∀ j' y', (l ++ [z]) !! j' = Some y' →
              (l !! j' = Some y' ∧ (j' < length l)%nat)
              ∨ (j' = length l ∧ y' = z)) as Hcases.
    { intros j' y' H. destruct (decide (j' < length l)%nat).
      - left. by rewrite lookup_app_l in H.
      - right. rewrite lookup_app_r in H by lia.
        destruct (j' - length l)%nat eqn:E; simpl in H; [|done].
        split; [lia|congruence]. }
    destruct (decide (kf z.2 = g)) as [Hz|Hz].
    + right. destruct IH as [IH|(j & y & Hy & Hk & IH)].
      * exists (length l), z. split; [by apply list_lookup_middle|].
        split; [done|]. intros j' y' H' Hk'.
        destruct (Hcases _ _ H') as [[H'' _]|[-> ->]].
        -- by destruct (IH _ _ H'').
        -- split; lia.
      * pose proof (lookup_lt_Some _ _ _ Hy) as Hj.
        destruct (decide (sf z.2 ≤ sf y.2)) as [Hle|Hgt].
        -- exists j, y. split; [by rewrite lookup_app_l|]. split; [done|].
           intros j' y' H' Hk'.
           destruct (Hcases _ _ H') as [[H'' _]|[-> ->]]; [by apply IH|].
           split; [done|lia].
        -- exists (length l), z. split; [by apply list_lookup_middle|].
           split; [done|]. intros j' y' H' Hk'.
           destruct (Hcases _ _ H') as [[H'' ?]|[-> ->]].
           ++ destruct (IH _ _ H'' Hk'). split; intros; lia.
           ++ split; lia.
    + destruct IH as [IH|(j & y & Hy & Hk & IH)].
      * left. intros j' y' H'.
        destruct (Hcases _ _ H') as [[H'' _]|[-> ->]]; [by eapply IH|done].
      * right. pose proof (lookup_lt_Some _ _ _ Hy) as Hj.
        exists j, y. split; [by rewrite lookup_app_l|]. split; [done|].
        intros j' y' H' Hk'.
        destruct (Hcases _ _ H') as [[H'' _]|[-> ->]]; [by apply IH|done].
Qed.

Lemma first_max_exists (l : list (nat * Row)) i x :
  l !! i = Some x → ∃ j, same_group kf l i j ∧ first_max_at kf sf l j.
Proof.
  intros Hx. destruct (first_max_of_group l (kf x.2)) as [H|(j & y & Hy & Hk & H)].
  - by destruct (H _ _ Hx).
  - exists j. split; [by exists x, y|].
    exists y. split; [done|]. intros j' y' H' Hk'. apply H; [done|congruence].
Qed.
End first_max_exists.

(** ** Which records are marked *)

Section marked.
Variables (cfg : Config) (d : DataFrame).
Hypothesis unique_index : NoDup (index d).
Hypothesis stage_not_key : "STAGE" ∉ keys cfg.
Hypothesis score_not_key : "_score" ∉ keys cfg.

Lemma key_tuple_stage_row_iff x y :
  key_tuple (keys cfg) (stage_row cfg y).2 = key_tuple (keys cfg) (stage_row cfg x).2
  ↔ record_key cfg y.2 = record_key cfg x.2.
Proof. by rewrite !key_tuple_stage_row. Qed.

Lemma marked_parts i x :
  rows d !! i = Some x →
  ∃ b1 b2 : bool, marked cfg d x = b1 && negb b2 ∧
    (b1 = true ↔ in_duplicate_group cfg (rows d) i) ∧
    (b1 = true → b2 = true ↔ is_survivor cfg (rows d) i).
Proof.
  intros Hx.
  assert (rows (staged cfg d) !! i = Some (stage_row cfg x)) as Hs
    by (by rewrite rows_staged, list_lookup_fmap, Hx).
  assert (NoDup (fst <$> rows (staged cfg d))) as Hnd
    by (by rewrite index_staged).
  pose proof (dupP_dup_at (keys cfg) _ i _ Hs) as Hdup.
  pose proof (keep_idx_first_max (keys cfg) _ Hnd i _ Hs) as Hkeep.
  assert (dup_at (key_tuple (keys cfg)) (rows (staged cfg d)) i
          ↔ in_duplicate_group cfg (rows d) i) as Hd.
  { rewrite rows_staged. apply dup_at_fmap, key_tuple_stage_row_iff. }
  assert (first_max_at (key_tuple (keys cfg)) score_cell (rows (staged cfg d)) i
          ↔ is_survivor cfg (rows d) i) as Hf.
  { rewrite rows_staged. apply first_max_at_fmap.
    - apply key_tuple_stage_row_iff.
    - apply score_cell_stage_row. }
  cbv beta in Hdup, Hkeep. eexists _, _. split; [reflexivity|].
  rewrite !bool_decide_eq_true. rewrite <- Hd, <- Hf.
  split; [exact Hdup|exact Hkeep].
Qed.

Lemma marked_true i x :
  rows d !! i = Some x →
  marked cfg d x = true
  ↔ in_duplicate_group cfg (rows d) i ∧ ¬ is_survivor cfg (rows d) i.
Proof.
  intros Hx. destruct (marked_parts i x Hx) as (b1 & b2 & -> & H1 & H2).
  rewrite <- H1. destruct b1, b2; simpl; split; try done.
  - intros [_ H]. destruct H. by apply H2.
  - intros _. split; [done|]. intros H. by apply H2 in H.
  - by intros [? _].
  - by intros [? _].
Qed.

Lemma marked_false i x :
  rows d !! i = Some x →
  marked cfg d x = false
  ↔ (in_duplicate_group cfg (rows d) i → is_survivor cfg (rows d) i).
Proof.
  intros Hx. destruct (marked_parts i x Hx) as (b1 & b2 & -> & H1 & H2).
  rewrite <- H1. destruct b1, b2; simpl; split; try done.
  - intros _ _. by apply H2.
  - intros H. specialize (H eq_refl). by apply H2 in H.
Qed.
End marked.

(** ** Plain configurations *)

Lemma plain_keys cfg k : plain_config cfg → k ∈ keys cfg → k ∉ engine_columns.
Proof. intros (_ & H & _). rewrite Forall_forall in H. apply H. Qed.

Lemma plain_stage_not_key cfg : plain_config cfg → "STAGE" ∉ keys cfg.
Proof.
  intros H Hin. apply (plain_keys _ _ H Hin). unfold engine_columns. left.
Qed.

Lemma plain_score_not_key cfg : plain_config cfg → "_score" ∉ keys cfg.
Proof.
  intros H Hin. apply (plain_keys _ _ H Hin). unfold engine_columns. right. left.
Qed.

Lemma plain_flags_not_transient cfg c :
  plain_config cfg → c ∈ flag_cols_of cfg → c ∉ transient_columns.
Proof.
  intros (_ & _ & H) Hc Hin. rewrite Forall_forall in H.
  destruct (H c Hc) as [Hne _]. apply Hne.
  unfold transient_columns in Hin. unfold engine_columns.
  apply elem_of_cons in Hin as [->|Hin]; [left|].
  apply list_elem_of_singleton in Hin as ->. right. left.
Qed.

(** ** Successful calls *)

Lemma outcome_success d cfg deduped audit :
  outcome (deduplicate d (Some cfg)) = inr (deduped, audit) →
  keys cfg ≠ [] ∧ Forall (λ k, k ∈ columns d) (keys cfg) ∧
  missing_cols_of cfg d = [] ∧
  ((existsb id (dup_mask_of cfg d) = true ∧
    deduped = deduped_frame cfg d ∧ audit = audit_frame cfg d)
   ∨ (existsb id (dup_mask_of cfg d) = false ∧
      deduped = drop_cols ["STAGE"; "_score"] (staged cfg d) ∧
      audit = empty_frame)).
Proof.
  rewrite outcome_Some.
  destruct (decide (keys cfg = [])); [done|].
  destruct (decide (Forall _ (keys cfg))); [|done].
  destruct (decide (missing_cols_of cfg d = [])); [|done].
  destruct (existsb id (dup_mask_of cfg d)).
  - destruct (threshold_for_removing cfg) as [t|]; [|done].
    destruct (float_overflow t); [done|].
    intros [= <- <-]. auto 10.
  - intros [= <- <-]. auto 10.
Qed.

Lemma rows_of_success d cfg deduped audit :
  outcome (deduplicate d (Some cfg)) = inr (deduped, audit) →
  rows deduped = out_row cfg <$> filter (λ x, marked cfg d x = false) (rows d).
Proof.
  intros H. apply outcome_success in H as (_ & _ & _ & [(_ & -> & _)|(H & -> & _)]).
  - apply rows_deduped_frame.
  - by apply rows_no_duplicates.
Qed.

Lemma dup_at_same_group {K} (kf : Row → K) (l : list (nat * Row)) i j :
  dup_at kf l i → same_group kf l i j → dup_at kf l j.
Proof.
  intros (x & k & z & Hx & Hz & Hne & Hk) (x' & y & Hx' & Hy & Hky).
  rewrite Hx in Hx'. injection Hx' as <-.
  destruct (decide (j = i)) as [->|Hji].
  - exists y, k, z. rewrite Hx in Hy. injection Hy as <-. done.
  - exists y, i, x. repeat split; [done|done|congruence|congruence].
Qed.

(** ** The scenarios of the specification *)

Example scenario_lower_priority :
  ∃ deduped audit,
    outcome (deduplicate apply_then_enroll (Some main_config))
    = inr (deduped, audit) ∧
    index deduped = [1%nat] ∧
    (λ x, (cell x.2 "STAGE", cell x.2 "_score", cell x.2 "STAGE_kept",
           cell x.2 "_score_kept", cell x.2 "reason")) <$> rows audit
    = [(VStr "APPLY", VInt 1, VStr "ENROLL", VInt 4,
        VStr "duplicate: lower-priority stage")].
Proof. eexists _, _. split; [vm_compute; reflexivity|]. by vm_compute. Qed.

Example scenario_kept_first :
  ∃ deduped audit,
    outcome (deduplicate enroll_twice (Some main_config))
    = inr (deduped, audit) ∧
    index deduped = [0%nat] ∧
    (λ x, (cell x.2 "STAGE", cell x.2 "_score", cell x.2 "STAGE_kept",
           cell x.2 "_score_kept", cell x.2 "reason")) <$> rows audit
    = [(VStr "ENROLL", VInt 4, VStr "ENROLL", VInt 4,
        VStr "duplicate: same stage, kept first")].
Proof. eexists _, _. split; [vm_compute; reflexivity|]. by vm_compute. Qed.

Example scenario_no_config :
  outcome (deduplicate students None) = inr (students, empty_frame) ∧
  returns_argument (deduplicate students None) = true ∧
  caller_frame (deduplicate students None) = students.
Proof. done. Qed.

Example scenario_empty_keys :
  outcome (deduplicate students
             (Some {| keys := []; flags := ∅; funnel_priority := [];
                      threshold_for_removing := None |}))
  = inl (ValueError "keys are empty" []).
Proof. done. Qed.

Example scenario_missing_threshold :
  outcome (deduplicate students
             (Some {| keys := ["STUDENTID"]; flags := ∅; funnel_priority := [];
                      threshold_for_removing := None |}))
  = inl (TypeError "'>' not supported between instances of 'NoneType' and 'int'").
Proof. by vm_compute. Qed.

Example scenario_warning :
  events (deduplicate students (Some main_config))
  = [LogStats 3 1 (1 # 3) (2 # 100); LogWarning 1 3 (1 # 3) (2 # 100)].
Proof. by vm_compute. Qed.

(** ** C1: survivor selection *)

(** C1 (defect of the code).  The engine finds the survivor of each duplicate
    group by row label ([idxmax], line 71) and keeps every record that
    carries the label of a survivor ([df.index.isin], line 74).  When row
    labels repeat, a record that is no survivor can carry the label of the
    survivor of another group.  In [repeated_labels] the records at the
    positions 0 and 1 form the group of [a]; the record at position 0 is its
    survivor, the record at position 1 is not, and it is kept all the same,
    because its label 1 is the label of the survivor of the group of [b]:
    two records of one group are in the deduped frame. *)
Theorem repeated_labels_keep_two_of_a_group :
  ∃ deduped audit,
    outcome (deduplicate repeated_labels (Some label_config))
    = inr (deduped, audit) ∧
    index repeated_labels = [0; 1; 1; 2]%nat ∧
    same_group (record_key label_config) (rows repeated_labels) 0 1 ∧
    is_survivor label_config (rows repeated_labels) 0 ∧
    ¬ is_survivor label_config (rows repeated_labels) 1 ∧
    (λ x, (x.1, cell x.2 "K", cell x.2 "F")) <$> rows deduped
    = [(0%nat, VStr "a", VInt 1); (1%nat, VStr "a", VInt 0);
       (1%nat, VStr "b", VInt 0)].
Proof.
  eexists _, _. split; [vm_compute; reflexivity|].
  split; [by vm_compute|]. split; [|split; [|split; [|by vm_compute]]].
  - eexists _, _. split; [reflexivity|]. split; [reflexivity|]. by vm_compute.
  - eexists. split; [reflexivity|]. intros j y Hy Hk.
    destruct j as [|[|[|[|j]]]]; simplify_eq/=; try (vm_compute in Hk; done).
    all: split; [by vm_compute | lia].
  - intros (x & Hx & H). simplify_eq/=.
    destruct (H 0%nat (0%nat, label_row "a" 1)) as [Hle _]; [done|by vm_compute|].
    vm_compute in Hle. by apply Hle.
Qed.

(** X18.  Survivor selection with distinct row labels.  For a dataset with
    distinct row labels and a plain non-empty configuration on which the
    call returns, there is a removal mark on the input records such that:
    the deduped frame is the input records without the marked ones, in the
    original order (each shown with normalized keys and without the
    transient columns); a record is marked exactly when it is in a duplicate
    group and is not the first record with the largest Priority Score of its
    group; and every duplicate group keeps exactly one record, that first
    maximum. *)
Theorem survivor_selection d cfg deduped audit :
  NoDup (index d) → plain_config cfg →
  outcome (deduplicate d (Some cfg)) = inr (deduped, audit) →
  ∃ removed : nat * Row → bool,
    rows deduped = out_row cfg <$> filter (λ x, removed x = false) (rows d) ∧
    (∀ i x, rows d !! i = Some x →
       removed x = true
       ↔ in_duplicate_group cfg (rows d) i ∧ ¬ is_survivor cfg (rows d) i) ∧
    (∀ i, in_duplicate_group cfg (rows d) i →
       ∃ j y, same_group (record_key cfg) (rows d) i j ∧
         rows d !! j = Some y ∧ removed y = false ∧
         is_survivor cfg (rows d) j ∧
         ∀ j' y', same_group (record_key cfg) (rows d) i j' →
           rows d !! j' = Some y' → removed y' = false → j' = j).
Proof.
  intros Hnd Hplain Hout.
  pose proof (plain_stage_not_key cfg Hplain) as Hs1.
  pose proof (plain_score_not_key cfg Hplain) as Hs2.
  exists (marked cfg d).
  split; [by eapply rows_of_success|].
  split; [intros i x Hx; by apply marked_true|].
  intros i Hdup. pose proof Hdup as (x & _ & _ & Hx & _).
  destruct (first_max_exists (record_key cfg) (record_score cfg) _ _ _ Hx)
    as (j & Hg & Hj).
  pose proof Hj as (y & Hy & _). exists j, y.
  split; [done|]. split; [done|].
  split; [by apply (marked_false cfg d Hnd Hs1 Hs2 j)|]. split; [done|].
  intros j' y' Hg' Hy' Hm.
  apply (marked_false cfg d Hnd Hs1 Hs2 j' y' Hy') in Hm;
    [|by apply (dup_at_same_group _ _ i)].
  apply (first_max_unique (record_key cfg) (record_score cfg) (rows d));
    [done|done|].
  destruct Hg as (x1 & y1 & Hx1 & Hy1 & Hk1).
  destruct Hg' as (x2 & y2 & Hx2 & Hy2 & Hk2).
  exists y2, y1. rewrite Hx1 in Hx2. injection Hx2 as <-.
  repeat split; [done|done|congruence].
Qed.

Lemma survivor_selection_witness :
  ∃ removed : nat * Row → bool,
    rows (deduped_frame main_config students)
    = out_row main_config <$> filter (λ x, removed x = false) (rows students) ∧
    (∀ i x, rows students !! i = Some x →
       removed x = true
       ↔ in_duplicate_group main_config (rows students) i
         ∧ ¬ is_survivor main_config (rows students) i) ∧
    (∀ i, in_duplicate_group main_config (rows students) i →
       ∃ j y, same_group (record_key main_config) (rows students) i j ∧
         rows students !! j = Some y ∧ removed y = false ∧
         is_survivor main_config (rows students) j ∧
         ∀ j' y', same_group (record_key main_config) (rows students) i j' →
           rows students !! j' = Some y' → removed y' = false → j' = j).
Proof.
  apply (survivor_selection students main_config
           (deduped_frame main_config students) (audit_frame main_config students)).
  - apply (bool_decide_unpack _). vm_compute. exact I.
  - apply (bool_decide_unpack _). vm_compute. exact I.
  - vm_compute. reflexivity.
Defined.

(** ** C2: stage derivation *)

Lemma eq_1_holds cfg row label :
  eq_1 (row_get row (flags cfg !! label)) = true ↔ holds_1 cfg row label.
Proof.
  unfold holds_1, row_get. split.
  - destruct (flags cfg !! label) as [c|]; simpl; [|done].
    destruct (row !! c) as [[z| | |]|] eqn:E; simpl; try done.
    destruct z as [|[]|]; try done. intros _. by exists c.
  - intros (c & -> & H). simpl. by rewrite H.
Qed.

Lemma eq_1_not_holds cfg row label :
  eq_1 (row_get row (flags cfg !! label)) = false ↔ ¬ holds_1 cfg row label.
Proof. rewrite <- eq_1_holds. by destruct (eq_1 _). Qed.

Lemma find_Some_split {A} (p : A → bool) (l : list A) s :
  List.find p l = Some s
  ↔ ∃ pre post, l = pre ++ s :: post ∧ p s = true ∧ ∀ s', s' ∈ pre → p s' = false.
Proof.
  induction l as [|a l IH]; simpl.
  - split; [done|]. intros (pre & post & H & _). by destruct pre.
  - destruct (p a) eqn:E.
    + split.
      * intros [= <-]. exists [], l. split; [done|]. split; [done|].
        intros s' Hs'. by apply elem_of_nil in Hs'.
      * intros ([|b pre] & post & H & Hs & Hpre); simplify_eq/=; [done|].
        rewrite Hpre in E; [done|left].
    + rewrite IH. split.
      * intros (pre & post & -> & Hs & Hpre). exists (a :: pre), post.
        split; [done|]. split; [done|]. intros s' Hs'.
        apply elem_of_cons in Hs' as [->|Hs']; auto.
      * intros ([|b pre] & post & H & Hs & Hpre); simplify_eq/=; [congruence|].
        exists pre, post. split; [done|]. split; [done|].
        intros s' Hs'. apply Hpre. by right.
Qed.

Lemma find_None_all {A} (p : A → bool) (l : list A) :
  List.find p l = None ↔ ∀ s, s ∈ l → p s = false.
Proof.
  induction l as [|a l IH]; simpl.
  - split; [|done]. intros _ s Hs. by apply elem_of_nil in Hs.
  - destruct (p a) eqn:E.
    + split; [done|]. intros H. rewrite H in E; [done|left].
    + rewrite IH. split.
      * intros H s Hs. apply elem_of_cons in Hs as [->|Hs]; auto.
      * intros H s Hs. apply H. by right.
Qed.

(** The chain of [if]/[elif] of [derive_stage] is a search along the
    precedence order. *)
Lemma stage_of_find cfg row :
  stage_of cfg row
  = List.find (λ s, eq_1 (row_get row (flags cfg !! s))) precedence.
Proof.
  unfold stage_of, derive_stage, precedence. simpl.
  by repeat destruct (eq_1 _).
Qed.

(** C2.  The Derived Stage of a row is the first label, in the order
    ENROLL, COMMIT, ADMIT, APPLY, whose configured flag column holds the
    value 1; it is "no stage" exactly when no configured flag column holds 1
    (in particular when no flag is configured); and it does not depend on
    [funnel_priority]. *)
Theorem stage_derivation cfg row :
  (∀ s, stage_of cfg row = Some s
        ↔ ∃ higher lower, precedence = higher ++ s :: lower ∧
            holds_1 cfg row s ∧ ∀ s', s' ∈ higher → ¬ holds_1 cfg row s') ∧
  (stage_of cfg row = None ↔ ∀ s, s ∈ precedence → ¬ holds_1 cfg row s) ∧
  (flags cfg = ∅ → stage_of cfg row = None) ∧
  (∀ ranking threshold,
     stage_of {| keys := keys cfg; flags := flags cfg;
                 funnel_priority := ranking;
                 threshold_for_removing := threshold |} row
     = stage_of cfg row).
Proof.
  split; [|split; [|split]].
  - intros s. rewrite stage_of_find, find_Some_split.
    setoid_rewrite eq_1_holds. by setoid_rewrite eq_1_not_holds.
  - rewrite stage_of_find, find_None_all. by setoid_rewrite eq_1_not_holds.
  - intros H. unfold stage_of, derive_stage. by rewrite H.
  - done.
Qed.

(** ** C3: priority scores *)

Lemma score_map_of_snoc n (l : list string) s :
  score_map_of n (l ++ [s])
  = <[s := Z.of_nat n - Z.of_nat (length l)]> (score_map_of n l).
Proof.
  unfold score_map_of, enumerate. rewrite imap_app, foldl_app. simpl.
  by rewrite Nat.add_0_r.
Qed.

Lemma score_map_of_absent n (l : list string) s :
  s ∉ l → score_map_of n l !! s = None.
Proof.
  induction l as [|z l IH] using rev_ind; intros Hs.
  - done.
  - rewrite score_map_of_snoc. rewrite not_elem_of_app in Hs.
    destruct Hs as [Hs Hz]. rewrite lookup_insert_ne; [by apply IH|].
    intros ->. apply Hz. left.
Qed.

Lemma score_map_of_last n (l : list string) i s :
  l !! i = Some s → (∀ j, (i < j)%nat → l !! j ≠ Some s) →
  score_map_of n l !! s = Some (Z.of_nat n - Z.of_nat i).
Proof.
  revert i. induction l as [|z l IH] using rev_ind; intros i Hi Hlast.
  - done.
  - rewrite score_map_of_snoc.
    destruct (decide (i < length l)%nat) as [Hlt|Hge].
    + rewrite lookup_app_l in Hi by done.
      assert (z ≠ s) as Hz.
      { intros ->. apply (Hlast (length l) Hlt). by apply list_lookup_middle. }
      rewrite lookup_insert_ne by done. apply IH; [done|].
      intros j Hj Hl. apply (Hlast j Hj).
      pose proof (lookup_lt_Some _ _ _ Hl). by rewrite lookup_app_l.
    + pose proof (lookup_lt_Some _ _ _ Hi) as Hlen. rewrite length_app in Hlen.
      simpl in Hlen. assert (i = length l) as -> by lia.
      rewrite list_lookup_middle in Hi by done. injection Hi as ->.
      by rewrite lookup_insert_eq.
Qed.

(** C3.  The Priority Score of a stage is an integer read off
    [funnel_priority]: a stage whose place in the ranking is [i] (counted
    from 0; for a label listed more than once the last place counts) scores
    [len(funnel_priority) - i]; a stage that is not ranked scores 0, and so
    does "no stage". *)
Theorem priority_score (ranking : list string) :
  (∀ i s, ranking !! i = Some s →
     (∀ j, (i < j)%nat → ranking !! j ≠ Some s) →
     priority ranking (Some s) = Z.of_nat (length ranking) - Z.of_nat i) ∧
  (NoDup ranking → ∀ i s, ranking !! i = Some s →
     priority ranking (Some s) = Z.of_nat (length ranking) - Z.of_nat i) ∧
  (∀ s, s ∉ ranking → priority ranking (Some s) = 0) ∧
  priority ranking None = 0.
Proof.
  assert (∀ i s, ranking !! i = Some s →
     (∀ j, (i < j)%nat → ranking !! j ≠ Some s) →
     priority ranking (Some s) = Z.of_nat (length ranking) - Z.of_nat i) as H.
  { intros i s Hi Hlast. unfold priority, score_map. simpl.
    by rewrite (score_map_of_last _ _ i s). }
  split; [exact H|]. split; [|split; [|done]].
  - intros Hnd i s Hi. apply H; [done|]. intros j Hj Hs.
    pose proof (NoDup_lookup _ _ _ _ Hnd Hi Hs). lia.
  - intros s Hs. unfold priority, score_map. simpl.
    by rewrite score_map_of_absent.
Qed.

Lemma priority_score_witness :
  priority ["ENROLL"; "COMMIT"; "ADMIT"; "APPLY"] (Some "COMMIT") = 4 - 1 ∧
  priority ["ENROLL"; "COMMIT"; "ADMIT"; "APPLY"] (Some "WAITLIST") = 0.
Proof.
  destruct (priority_score ["ENROLL"; "COMMIT"; "ADMIT"; "APPLY"])
    as (_ & Hrank & Habsent & _).
  split.
  - apply (Hrank ltac:(apply (bool_decide_unpack _); vm_compute; exact I) 1%nat).
    reflexivity.
  - apply Habsent. apply (bool_decide_unpack _). vm_compute. exact I.
Defined.

(** ** Key columns of the returned frames *)

Lemma strip_row_lookup keys r k :
  strip_row keys r !! k
  = (λ v, if decide (k ∈ keys) then strip_cell v else v) <$> r !! k.
Proof. unfold strip_row. rewrite map_lookup_imap. by destruct (r !! k). Qed.

Lemma strip_row_lookup_key keys r k :
  k ∈ keys → strip_row keys r !! k = strip_cell <$> r !! k.
Proof.
  intros Hk. rewrite strip_row_lookup. destruct (r !! k); simpl; [|done].
  by rewrite decide_True.
Qed.

Lemma drop_row_lookup_ne r k :
  k ∉ transient_columns → drop_row ["STAGE"; "_score"] r !! k = r !! k.
Proof.
  intros Hk. unfold drop_row. simpl.
  assert (k ≠ "STAGE" ∧ k ≠ "_score") as [H1 H2]
    by (split; intros ->; apply Hk; unfold transient_columns; set_solver).
  rewrite lookup_delete_ne by done. by rewrite lookup_delete_ne.
Qed.

Lemma drop_row_lookup_eq r k :
  k ∈ transient_columns → drop_row ["STAGE"; "_score"] r !! k = None.
Proof.
  unfold transient_columns, drop_row. simpl. intros Hk.
  apply elem_of_cons in Hk as [->|Hk]; [by rewrite lookup_delete_eq|].
  apply list_elem_of_singleton in Hk as ->.
  rewrite lookup_delete_ne by done. by rewrite lookup_delete_eq.
Qed.

Lemma select_row_lookup cs (r : Row) k :
  k ∈ cs → select_row cs r !! k = r !! k.
Proof.
  intros Hk. unfold select_row. rewrite map_lookup_filter.
  destruct (r !! k); simpl; [|done]. by rewrite option_guard_True.
Qed.

Lemma loc_mask_elem {A} (m : list bool) (l : list A) x :
  x ∈ loc_mask m l → x ∈ l.
Proof.
  revert m. induction l as [|y l IH]; intros [|b m]; simpl; try done.
  - intros H. by apply elem_of_nil in H.
  - destruct b.
    + intros H. apply elem_of_cons in H as [->|H]; [left|right; eauto].
    + intros H. right. eauto.
Qed.

Lemma elem_of_merge_left r' (L K : list Row) :
  r' ∈ merge_left L K →
  ∃ r a b, r ∈ L ∧ r' = <["_score_kept" := a]> (<["STAGE_kept" := b]> r).
Proof.
  unfold merge_left. rewrite list_elem_of_In, in_flat_map.
  intros (r & Hr & H). apply list_elem_of_In in Hr. exists r.
  destruct (filter _ K) as [|k ms].
  - apply list_elem_of_In, list_elem_of_singleton in H. by eexists _, _.
  - apply list_elem_of_In, list_elem_of_fmap in H as (k' & -> & _).
    by eexists _, _.
Qed.

(** Every audit row shows the key cells of a row of the staged frame. *)
Lemma audit_row_keys df mask ks flag_cols keep y :
  y ∈ rows (_log_formation df mask ks flag_cols keep) →
  ∃ s, s ∈ rows df ∧
    ∀ k, k ∈ ks → k ∉ engine_columns → y.2 !! k = s.2 !! k.
Proof.
  unfold _log_formation, from_records. simpl. intros Hy.
  apply elem_of_lookup_imap in Hy as (i & r & -> & Hr). simpl.
  apply list_elem_of_lookup_2, list_elem_of_fmap in Hr as (r1 & -> & Hr).
  apply list_elem_of_fmap in Hr as (r2 & -> & Hr).
  apply elem_of_merge_left in Hr as (r3 & a & b & Hr & ->).
  apply list_elem_of_fmap in Hr as (r4 & -> & Hr).
  apply list_elem_of_fmap in Hr as (s & -> & Hs).
  apply loc_mask_elem in Hs. exists s. split; [done|]. intros k Hk Hne.
  assert (∀ c, c ∈ engine_columns → k ≠ c) as Hc by (intros c Hin ->; done).
  rewrite select_row_lookup
    by (unfold log_columns; apply elem_of_app; by left).
  unfold with_merge_key.
  rewrite !lookup_insert_ne
    by (apply not_eq_sym, Hc; unfold engine_columns; set_solver).
  apply select_row_lookup. apply elem_of_app. by left.
Qed.

Lemma staged_row_key cfg d s k :
  s ∈ rows (staged cfg d) → k ∈ keys cfg → k ∉ engine_columns →
  ∃ x, x ∈ rows d ∧ x.1 = s.1 ∧ s.2 !! k = strip_cell <$> x.2 !! k.
Proof.
  rewrite rows_staged. intros Hs Hk Hne.
  apply list_elem_of_fmap in Hs as (x & -> & Hx). exists x.
  split; [done|]. split; [done|].
  rewrite stage_row_lookup_ne.
  - by apply strip_row_lookup_key.
  - intros ->. apply Hne. unfold engine_columns. set_solver.
  - intros ->. apply Hne. unfold engine_columns. set_solver.
Qed.

Lemma rstrip_blank s : blank s = true → rstrip s = EmptyString.
Proof.
  induction s as [|a s IH]; simpl; [done|].
  intros [Ha Hs]%andb_true_iff. by rewrite IH, Ha.
Qed.

Lemma rstrip_app_blank s post :
  blank post = true → rstrip (s +:+ post) = rstrip s.
Proof.
  intros Hp. induction s as [|a s IH]; simpl.
  - by apply rstrip_blank.
  - by rewrite IH.
Qed.

Lemma strip_blank_app pre s :
  blank pre = true → lstrip (rstrip (pre +:+ s)) = lstrip (rstrip s).
Proof.
  induction pre as [|a pre IH]; simpl; [done|].
  intros [Ha Hp]%andb_true_iff. specialize (IH Hp).
  destruct (rstrip (pre +:+ s)) as [|b t].
  - by rewrite Ha.
  - simpl. by rewrite Ha.
Qed.

(** [strip] removes the white space around a string. *)
Lemma strip_surrounded pre s post :
  blank pre = true → blank post = true →
  strip (pre +:+ (s +:+ post)) = strip s.
Proof.
  intros Hpre Hpost. unfold strip.
  by rewrite strip_blank_app, rstrip_app_blank.
Qed.

Lemma record_key_ext cfg (r1 r2 : Row) :
  (∀ k, k ∈ keys cfg → strip_cell <$> r1 !! k = strip_cell <$> r2 !! k) →
  record_key cfg r1 = record_key cfg r2.
Proof.
  intros H. unfold record_key, key_tuple. apply list_fmap_ext.
  intros i k Hk. apply list_elem_of_lookup_2 in Hk.
  rewrite !strip_row_lookup_key by done. by apply H.
Qed.

(** ** The audit log when merge keys tell the groups apart *)

Lemma cell_insert_eq (r : Row) c v : cell (<[c := v]> r) c = v.
Proof. unfold cell. by rewrite lookup_insert_eq. Qed.

Lemma cell_insert_ne (r : Row) c c' v :
  c ≠ c' → cell (<[c := v]> r) c' = cell r c'.
Proof. intros H. unfold cell. by rewrite lookup_insert_ne. Qed.

Lemma cell_select cs (r : Row) c : c ∈ cs → cell (select_row cs r) c = cell r c.
Proof. intros H. unfold cell. by rewrite select_row_lookup. Qed.

Lemma merge_key_ext ks (r1 r2 : Row) :
  (∀ k, k ∈ ks → cell r1 k = cell r2 k) → merge_key ks r1 = merge_key ks r2.
Proof.
  intros H. unfold merge_key. f_equal. apply list_fmap_ext.
  intros i k Hk. apply list_elem_of_lookup_2 in Hk. by rewrite H.
Qed.

Lemma key_tuple_cells ks (r1 r2 : Row) k :
  key_tuple ks r1 = key_tuple ks r2 → k ∈ ks → r1 !! k = r2 !! k.
Proof.
  unfold key_tuple. induction ks as [|k' ks IH]; csimpl.
  - intros _ H. by apply elem_of_nil in H.
  - intros [= H1 H2] [->|Hk]%elem_of_cons; auto.
Qed.

Lemma filter_fmap {A B} (P : B → Prop) `{!∀ x, Decision (P x)}
    (f : A → B) (l : list A) :
  filter P (f <$> l) = f <$> filter (λ x, P (f x)) l.
Proof.
  induction l as [|x l IH]; [done|]. csimpl. rewrite !filter_cons, IH.
  by destruct (decide (P (f x))).
Qed.

Lemma filter_iff_elem {A} (P Q : A → Prop)
    `{!∀ x, Decision (P x), !∀ x, Decision (Q x)} (l : list A) :
  (∀ x, x ∈ l → P x ↔ Q x) → filter P l = filter Q l.
Proof.
  induction l as [|x l IH]; intros Hpq; [done|]. rewrite !filter_cons.
  rewrite IH by (intros y Hy; apply Hpq; by right).
  pose proof (Hpq x ltac:(left)) as Hx.
  destruct (decide (P x)), (decide (Q x)); tauto.
Qed.

Lemma loc_labels_elem labels (l : list (nat * Row)) s :
  s ∈ loc_labels labels l → s ∈ l.
Proof.
  unfold loc_labels. rewrite list_elem_of_In, in_flat_map.
  intros (n & _ & H). by apply list_elem_of_In, list_elem_of_filter in H as [_ ?].
Qed.

Lemma length_filter_bool {A} (f : A → bool) (l : list A) :
  (length (filter (λ x, f x = false) l) + length (filter (λ x, f x = true) l)
   = length l)%nat.
Proof.
  induction l as [|x l IH]; [done|]. rewrite !filter_cons.
  destruct (f x); simpl; lia.
Qed.

Lemma Forall2_flat_map_singletons {A B C} (Q : C → A → Prop) (F : B → list C)
    (g : A → B) (l : list A) :
  (∀ x, x ∈ l → ∃ c, F (g x) = [c] ∧ Q c x) →
  Forall2 Q (flat_map F (g <$> l)) l.
Proof.
  induction l as [|x l IH]; intros H; [constructor|]. csimpl.
  destruct (H x ltac:(left)) as (c & -> & Hc). simpl. constructor; [done|].
  apply IH. intros y Hy. apply H. by right.
Qed.

Lemma Forall2_imap_rows (Q : Row → nat * Row → Prop) (recs : list Row)
    (l : list (nat * Row)) (f : nat → nat) :
  Forall2 Q recs l →
  Forall2 (λ a x, Q a.2 x) (imap (λ i r, (f i, r)) recs) l.
Proof.
  intros H. revert f. induction H as [|r x recs l Hq Hrest IH]; intros f; csimpl.
  - constructor.
  - constructor; [done|]. apply (IH (f ∘ S)).
Qed.

Lemma snd_imap_rows (recs : list Row) (f : nat → nat) :
  snd <$> imap (λ i r, (f i, r)) recs = recs.
Proof.
  revert f. induction recs as [|r recs IH]; intros f; [done|].
  csimpl. f_equal. apply (IH (f ∘ S)).
Qed.

Lemma fmap_flat_map_groups {A B C D} (h : C → D) (F : B → list C)
    (g : A → B) (l : list A) :
  h <$> flat_map F (g <$> l) = concat ((λ x, h <$> F (g x)) <$> l).
Proof.
  induction l as [|x l IH]; [done|]. csimpl. by rewrite fmap_app, IH.
Qed.

Lemma length_concat_nonempty {A B} (P : list A → B → Prop)
    (gs : list (list A)) (l : list B) :
  Forall2 (λ g x, g ≠ [] ∧ P g x) gs l →
  (length l ≤ length (concat gs))%nat.
Proof.
  induction 1 as [|g x gs l [Hg _] _ IH]; [done|].
  csimpl. rewrite length_app. destruct g; [done|]. simpl. lia.
Qed.

Lemma reason_fn_between (m : Row) a b :
  cell m "_score" = VInt a → cell m "_score_kept" = VInt b →
  reason_fn m = reason_between a b.
Proof. intros Ha Hb. unfold reason_fn, reason_between. by rewrite Ha, Hb. Qed.

Section audit_log.
Variables (cfg : Config) (d : DataFrame).
Hypothesis unique_index : NoDup (index d).
Hypothesis keys_plain : ∀ k, k ∈ keys cfg → k ∉ engine_columns.
Hypothesis distinct : merge_keys_distinct cfg d.

Let removed_fn (s : nat * Row) : Row :=
  with_merge_key (keys cfg)
    (select_row (keys cfg ++ flag_cols_of cfg ++ ["STAGE"; "_score"]) s.2).
Let kept_fn (s : nat * Row) : Row :=
  rename_kept (with_merge_key (keys cfg)
                 (select_row (keys cfg ++ ["STAGE"; "_score"]) s.2)).

Lemma key_not_engine k c : k ∈ keys cfg → c ∈ engine_columns → k ≠ c.
Proof. intros Hk Hc ->. by apply (keys_plain c). Qed.

Lemma stage_not_key : "STAGE" ∉ keys cfg.
Proof. intros H. apply (keys_plain _ H). unfold engine_columns. left. Qed.

Lemma score_not_key : "_score" ∉ keys cfg.
Proof. intros H. apply (keys_plain _ H). unfold engine_columns. right. left. Qed.

Lemma removed_rows :
  loc_mask (to_remove_mask_of cfg d) (rows (staged cfg d))
  = stage_row cfg <$> filter (λ x, marked cfg d x = true) (rows d).
Proof. by rewrite to_remove_mask_marked, rows_staged, loc_mask_fmap. Qed.

Lemma merge_key_selected cs x :
  (∀ k, k ∈ keys cfg → k ∈ cs) →
  merge_key (keys cfg) (select_row cs (stage_row cfg x).2)
  = merge_key (keys cfg) (strip_row (keys cfg) x.2).
Proof.
  intros Hcs. apply merge_key_ext. intros k Hk.
  rewrite cell_select by auto. unfold cell.
  rewrite stage_row_lookup_ne; [done| |]; apply key_not_engine; try done;
    unfold engine_columns; [left|right; left].
Qed.

Lemma merge_key_record_key x y :
  x ∈ rows d → y ∈ rows d →
  merge_key (keys cfg) (strip_row (keys cfg) y.2)
  = merge_key (keys cfg) (strip_row (keys cfg) x.2)
  ↔ record_key cfg y.2 = record_key cfg x.2.
Proof.
  intros Hx Hy. split; [by apply distinct|].
  intros H. apply merge_key_ext. intros k Hk. unfold cell.
  by rewrite (key_tuple_cells _ _ _ k H).
Qed.

Lemma merge_key_match x y :
  x ∈ rows d → y ∈ rows d →
  kept_fn (stage_row cfg y) !! "_merge_key"
  = removed_fn (stage_row cfg x) !! "_merge_key"
  ↔ key_tuple (keys cfg) (stage_row cfg y).2
    = key_tuple (keys cfg) (stage_row cfg x).2.
Proof.
  intros Hx Hy. unfold kept_fn, removed_fn, rename_kept, with_merge_key.
  rewrite !lookup_insert_eq, cell_insert_eq.
  rewrite !merge_key_selected
    by (intros k Hk; apply elem_of_app; by left).
  rewrite !key_tuple_stage_row by (apply stage_not_key || apply score_not_key).
  rewrite <- (merge_key_record_key x y Hx Hy). split; [by intros [= ?]|by intros ->].
Qed.

Lemma cell_removed_fn s c :
  c ∈ ["STAGE"; "_score"] → cell (removed_fn s) c = cell s.2 c.
Proof.
  intros Hc. unfold removed_fn, with_merge_key.
  rewrite cell_insert_ne
    by (intros <-; repeat (apply elem_of_cons in Hc as [Hc|Hc]; [done|]);
        by apply elem_of_nil in Hc).
  apply cell_select. rewrite !elem_of_app. auto.
Qed.

Lemma lookup_removed_fn s k :
  k ∈ keys cfg → removed_fn s !! k = s.2 !! k.
Proof using keys_plain.
  clear unique_index distinct.
  intros Hk. unfold removed_fn, with_merge_key.
  rewrite lookup_insert_ne
    by (apply not_eq_sym, key_not_engine; [done|];
        unfold engine_columns; set_solver).
  apply select_row_lookup, elem_of_app. by left.
Qed.

Lemma cell_kept_fn s :
  cell (kept_fn s) "STAGE_kept" = cell s.2 "STAGE" ∧
  cell (kept_fn s) "_score_kept" = cell s.2 "_score".
Proof using Type.
  clear unique_index distinct keys_plain.
  unfold kept_fn, rename_kept, with_merge_key. split.
  - rewrite cell_insert_ne, cell_insert_eq by done.
    rewrite cell_insert_ne by done. apply cell_select. set_solver.
  - rewrite !cell_insert_ne, cell_insert_eq by done.
    rewrite cell_insert_ne by done. apply cell_select. set_solver.
Qed.

Lemma cell_stage_row x :
  cell (stage_row cfg x).2 "STAGE" = of_option_str (record_stage cfg x.2) ∧
  cell (stage_row cfg x).2 "_score" = VInt (record_score cfg x.2).
Proof.
  unfold stage_row. cbn [snd]. split.
  - by rewrite cell_insert_ne, cell_insert_eq.
  - by rewrite cell_insert_eq.
Qed.

(** The survivor paired with a removed record. *)
Lemma partner_of_removed x :
  x ∈ rows d → marked cfg d x = true →
  ∃ j y, rows d !! j = Some y ∧ is_survivor cfg (rows d) j ∧
    record_key cfg y.2 = record_key cfg x.2 ∧
    filter (λ k, k !! "_merge_key" = removed_fn (stage_row cfg x) !! "_merge_key")
           (kept_fn <$> loc_labels (keep_idx_of cfg d) (rows (staged cfg d)))
    = [kept_fn (stage_row cfg y)].
Proof.
  intros Hx Hm. apply list_elem_of_lookup_1 in Hx as Hi. destruct Hi as [i Hi].
  assert (rows (staged cfg d) !! i = Some (stage_row cfg x)) as Hs
    by (by rewrite rows_staged, list_lookup_fmap, Hi).
  assert (NoDup (fst <$> rows (staged cfg d))) as Hnd
    by (by rewrite index_staged).
  unfold marked in Hm. apply andb_true_iff in Hm as [Hdup _].
  apply bool_decide_eq_true in Hdup.
  destruct (kept_of_group (keys cfg) _ Hnd i _ Hs Hdup)
    as (j & z & Hj & Hk & Hfm & Hf).
  rewrite rows_staged, list_lookup_fmap in Hj.
  destruct (rows d !! j) as [y|] eqn:Ey; [|done]. injection Hj as <-.
  exists j, y. split; [done|].
  rewrite !key_tuple_stage_row in Hk by (apply stage_not_key || apply score_not_key).
  split; [|split; [done|]].
  - rewrite rows_staged in Hfm.
    rewrite (first_max_at_fmap (record_key cfg) (record_score cfg)) in Hfm;
      [done| |apply score_cell_stage_row].
    apply key_tuple_stage_row_iff; (apply stage_not_key || apply score_not_key).
  - rewrite filter_fmap.
    rewrite (filter_iff_elem _
               (λ s, key_tuple (keys cfg) s.2
                     = key_tuple (keys cfg) (stage_row cfg x).2)).
    + unfold keep_idx_of, dup_mask_of. by rewrite Hf.
    + intros s Hs'. apply loc_labels_elem in Hs'. rewrite rows_staged in Hs'.
      apply list_elem_of_fmap in Hs' as (y' & -> & Hy').
      by apply merge_key_match.
Qed.

Lemma reason_fn_scores (m : Row) a b :
  cell m "_score" = VInt a → cell m "_score_kept" = VInt b → a ≤ b →
  reason_fn m = reason_of a b.
Proof.
  intros Ha Hb Hle. unfold reason_fn, reason_of. rewrite Ha, Hb. simpl.
  destruct (Z.ltb_spec a b); [done|].
  by rewrite (proj2 (Z.eqb_eq a b)) by lia.
Qed.

(** Each removed record has one audit row, paired with the survivor of its
    own group; the rows come in the order of the removed records. *)
Lemma audit_rows :
  Forall2 (λ a x, audit_row_of cfg (rows d) a.2 x)
          (rows (audit_frame cfg d))
          (filter (λ x, marked cfg d x = true) (rows d)).
Proof.
  unfold audit_frame, _log_formation, from_records. cbn [rows].
  apply (Forall2_imap_rows (audit_row_of cfg (rows d)) _ _ id).
  rewrite removed_rows, <- !list_fmap_compose.
  apply Forall2_fmap_l. unfold merge_left.
  change (rename_kept ∘ with_merge_key (keys cfg)
            ∘ (λ x, select_row (keys cfg ++ ["STAGE"; "_score"]) x.2))
    with kept_fn.
  change (with_merge_key (keys cfg)
            ∘ ((λ x, select_row (keys cfg ++ flag_cols_of cfg ++ ["STAGE"; "_score"]) x.2)
               ∘ stage_row cfg))
    with (λ x, removed_fn (stage_row cfg x)).
  apply (Forall2_flat_map_singletons _ _ (λ x, removed_fn (stage_row cfg x))).
  intros x Hx. apply list_elem_of_filter in Hx as [Hm Hx].
  destruct (partner_of_removed x Hx Hm) as (j & y & Hj & Hsurv & Hk & ->).
  eexists. split; [reflexivity|].
  destruct (cell_kept_fn (stage_row cfg y)) as [Hst Hsc].
  destruct (cell_stage_row x) as [Hxs Hxc].
  destruct (cell_stage_row y) as [Hys Hyc].
  set (m := <["_score_kept" := cell (kept_fn (stage_row cfg y)) "_score_kept"]>
              (<["STAGE_kept" := cell (kept_fn (stage_row cfg y)) "STAGE_kept"]>
                 (removed_fn (stage_row cfg x)))).
  assert (record_score cfg x.2 ≤ record_score cfg y.2) as Hle.
  { destruct Hsurv as (y' & Hy' & H). rewrite Hj in Hy'. injection Hy' as <-.
    apply list_elem_of_lookup_1 in Hx as [i Hi].
    by apply (H i x Hi (eq_sym Hk)). }
  assert (cell m "_score" = VInt (record_score cfg x.2)) as Hm1.
  { unfold m. rewrite !cell_insert_ne by done.
    rewrite cell_removed_fn by set_solver. exact Hxc. }
  assert (cell m "_score_kept" = VInt (record_score cfg y.2)) as Hm2.
  { unfold m. rewrite cell_insert_eq. by rewrite Hsc. }
  exists j, y. unfold compose. cbn [snd].
  split; [done|]. split; [done|]. split; [done|].
  split; [|split; [|split; [|split; [|split; [|split; [done|]]]]]].
  - intros k Hk'.
    rewrite select_row_lookup by (unfold log_columns; apply elem_of_app; by left).
    unfold m.
    rewrite !lookup_insert_ne
      by (apply not_eq_sym, key_not_engine; [done|];
          unfold engine_columns; set_solver).
    rewrite lookup_removed_fn by done.
    rewrite stage_row_lookup_ne
      by (apply key_not_engine; [done|]; unfold engine_columns; set_solver).
    by apply strip_row_lookup_key.
  - rewrite cell_select by (unfold log_columns; set_solver).
    unfold m. rewrite !cell_insert_ne by done.
    rewrite cell_removed_fn by set_solver. exact Hxs.
  - rewrite cell_select by (unfold log_columns; set_solver).
    unfold m. rewrite cell_insert_ne by done. rewrite cell_insert_ne by done.
    rewrite cell_insert_eq. by rewrite Hst.
  - rewrite cell_select by (unfold log_columns; set_solver).
    rewrite cell_insert_ne by done. exact Hm1.
  - rewrite cell_select by (unfold log_columns; set_solver).
    rewrite cell_insert_ne by done. exact Hm2.
  - rewrite cell_select by (unfold log_columns; set_solver).
    rewrite cell_insert_eq. f_equal. by apply reason_fn_scores.
Qed.

(** The audit log whatever the merge keys.  Every row of the kept frame is
    the staged row of a survivor. *)
Lemma kept_row_survivor s :
  s ∈ loc_labels (keep_idx_of cfg d) (rows (staged cfg d)) →
  ∃ j y, rows d !! j = Some y ∧ s = stage_row cfg y ∧
         is_survivor cfg (rows d) j.
Proof using unique_index keys_plain.
  clear distinct.
  intros Hs.
  assert (NoDup (fst <$> rows (staged cfg d))) as Hnd
    by (by rewrite index_staged).
  assert (s ∈ rows (staged cfg d) ∧ s.1 ∈ keep_idx_of cfg d) as [Hin Hkeep].
  { unfold loc_labels in Hs. apply list_elem_of_In, in_flat_map in Hs.
    destruct Hs as (n & Hn & Hs). apply list_elem_of_In in Hn, Hs.
    apply list_elem_of_filter in Hs as [-> Hs]. done. }
  pose proof Hkeep as Hk. unfold keep_idx_of, dup_mask_of in Hk.
  apply elem_of_keep_idx in Hk as (x & Hx & Hmax).
  apply (idxmax_group_row _ _ Hnd) in Hmax as (z & Hz & Hzl & _ & Hlab & _).
  assert (z = s) as -> by (by apply (same_label _ Hnd)).
  rewrite dups_filter in Hz. apply list_elem_of_filter in Hz as [Hdup _].
  apply list_elem_of_lookup_1 in Hin as [j Hj].
  apply (keep_idx_first_max (keys cfg) _ Hnd j s Hj Hdup) in Hkeep.
  rewrite rows_staged, list_lookup_fmap in Hj.
  destruct (rows d !! j) as [y|] eqn:Ey; [|done]. injection Hj as <-.
  exists j, y. split; [done|]. split; [done|].
  rewrite rows_staged in Hkeep.
  rewrite (first_max_at_fmap (record_key cfg) (record_score cfg)) in Hkeep;
    [done| |apply score_cell_stage_row].
  apply key_tuple_stage_row_iff; (apply stage_not_key || apply score_not_key).
Qed.

Lemma merge_key_of_group x y :
  record_key cfg y.2 = record_key cfg x.2 →
  kept_fn (stage_row cfg y) !! "_merge_key"
  = removed_fn (stage_row cfg x) !! "_merge_key".
Proof.
  intros H. unfold kept_fn, removed_fn, rename_kept, with_merge_key.
  rewrite !lookup_insert_eq, cell_insert_eq.
  rewrite !merge_key_selected
    by (intros k Hk; apply elem_of_app; by left).
  do 2 f_equal. apply merge_key_ext. intros k Hk. unfold cell.
  by rewrite (key_tuple_cells _ _ _ k H).
Qed.

Lemma merge_key_of_match x y :
  kept_fn (stage_row cfg y) !! "_merge_key"
  = removed_fn (stage_row cfg x) !! "_merge_key" →
  merge_key (keys cfg) (strip_row (keys cfg) y.2)
  = merge_key (keys cfg) (strip_row (keys cfg) x.2).
Proof.
  unfold kept_fn, removed_fn, rename_kept, with_merge_key.
  rewrite !lookup_insert_eq, cell_insert_eq.
  rewrite !merge_key_selected
    by (intros k Hk; apply elem_of_app; by left).
  by intros [= ?].
Qed.

(** A removed record has a partner in the kept frame: the survivor of its
    own group. *)
Lemma removed_has_partner x :
  x ∈ rows d → marked cfg d x = true →
  filter (λ k, k !! "_merge_key" = removed_fn (stage_row cfg x) !! "_merge_key")
         (kept_fn <$> loc_labels (keep_idx_of cfg d) (rows (staged cfg d)))
  ≠ [].
Proof using unique_index keys_plain.
  clear distinct.
  intros Hx Hm. apply list_elem_of_lookup_1 in Hx as Hi. destruct Hi as [i Hi].
  assert (rows (staged cfg d) !! i = Some (stage_row cfg x)) as Hs
    by (by rewrite rows_staged, list_lookup_fmap, Hi).
  assert (NoDup (fst <$> rows (staged cfg d))) as Hnd
    by (by rewrite index_staged).
  unfold marked in Hm. apply andb_true_iff in Hm as [Hdup _].
  apply bool_decide_eq_true in Hdup.
  destruct (kept_of_group (keys cfg) _ Hnd i _ Hs Hdup)
    as (j & z & Hj & Hk & _ & Hf).
  assert (z ∈ loc_labels (keep_idx_of cfg d) (rows (staged cfg d))) as Hz.
  { assert (z ∈ [z]) as Hz by left. rewrite <- Hf in Hz.
    by apply list_elem_of_filter in Hz as [_ Hz]. }
  rewrite rows_staged, list_lookup_fmap in Hj.
  destruct (rows d !! j) as [y|] eqn:Ey; [|done]. injection Hj as <-.
  rewrite !key_tuple_stage_row in Hk by (apply stage_not_key || apply score_not_key).
  intros Hnil.
  assert (kept_fn (stage_row cfg y) ∈ @nil Row) as Hbad; [|by apply elem_of_nil in Hbad].
  rewrite <- Hnil. apply list_elem_of_filter. split.
  - by apply merge_key_of_group.
  - apply list_elem_of_fmap. by exists (stage_row cfg y).
Qed.

(** The audit rows come in blocks, one block per removed record in the order
    of the removed records; a block is not empty, and each of its rows pairs
    the removed record with a survivor that has its merge key. *)
Lemma audit_blocks :
  ∃ blocks,
    snd <$> rows (audit_frame cfg d) = concat blocks ∧
    Forall2 (λ g x, g ≠ [] ∧ Forall (λ r, audit_pair_of cfg (rows d) r x) g)
            blocks (filter (λ x, marked cfg d x = true) (rows d)).
Proof using unique_index keys_plain.
  clear distinct.
  unfold audit_frame, _log_formation, from_records. cbn [rows].
  rewrite (snd_imap_rows _ id).
  rewrite removed_rows, <- !list_fmap_compose. unfold merge_left.
  change (rename_kept ∘ with_merge_key (keys cfg)
            ∘ (λ x, select_row (keys cfg ++ ["STAGE"; "_score"]) x.2))
    with kept_fn.
  change (with_merge_key (keys cfg)
            ∘ ((λ x, select_row (keys cfg ++ flag_cols_of cfg ++ ["STAGE"; "_score"]) x.2)
               ∘ stage_row cfg))
    with (λ x, removed_fn (stage_row cfg x)).
  rewrite fmap_flat_map_groups. eexists. split; [reflexivity|].
  apply Forall2_fmap_l, Forall_Forall2_diag, Forall_forall.
  intros x Hx. apply list_elem_of_filter in Hx as [Hm Hx].
  pose proof (removed_has_partner x Hx Hm) as Hne.
  unfold compose.
  change (with_merge_key (keys cfg)
            (select_row (keys cfg ++ flag_cols_of cfg ++ ["STAGE"; "_score"])
               (stage_row cfg x).2))
    with (removed_fn (stage_row cfg x)).
  destruct (filter _ (kept_fn <$> _)) as [|k0 ms] eqn:Ef; [done|].
  split; [done|]. apply Forall_forall. intros r Hr.
  apply list_elem_of_fmap in Hr as (m & -> & Hr).
  apply list_elem_of_fmap in Hr as (k & -> & Hk).
  rewrite <- Ef in Hk. apply list_elem_of_filter in Hk as [Hmk Hk].
  apply list_elem_of_fmap in Hk as (s & -> & Hs).
  apply kept_row_survivor in Hs as (j & y & Hj & -> & Hsurv).
  apply merge_key_of_match in Hmk.
  destruct (cell_kept_fn (stage_row cfg y)) as [Hst Hsc].
  destruct (cell_stage_row x) as [Hxs Hxc].
  destruct (cell_stage_row y) as [Hys Hyc].
  set (m := <["_score_kept" := cell (kept_fn (stage_row cfg y)) "_score_kept"]>
              (<["STAGE_kept" := cell (kept_fn (stage_row cfg y)) "STAGE_kept"]>
                 (removed_fn (stage_row cfg x)))).
  assert (cell m "_score" = VInt (record_score cfg x.2)) as Hm1.
  { unfold m. rewrite !cell_insert_ne by done.
    rewrite cell_removed_fn by set_solver. exact Hxc. }
  assert (cell m "_score_kept" = VInt (record_score cfg y.2)) as Hm2.
  { unfold m. rewrite cell_insert_eq. by rewrite Hsc. }
  exists j, y. unfold compose.
  split; [done|]. split; [done|]. split; [done|].
  split; [|split; [|split; [|split; [|split]]]].
  - intros k Hk'.
    rewrite select_row_lookup by (unfold log_columns; apply elem_of_app; by left).
    unfold m.
    rewrite !lookup_insert_ne
      by (apply not_eq_sym, key_not_engine; [done|];
          unfold engine_columns; set_solver).
    rewrite lookup_removed_fn by done.
    rewrite stage_row_lookup_ne
      by (apply key_not_engine; [done|]; unfold engine_columns; set_solver).
    by apply strip_row_lookup_key.
  - rewrite cell_select by (unfold log_columns; set_solver).
    unfold m. rewrite !cell_insert_ne by done.
    rewrite cell_removed_fn by set_solver. exact Hxs.
  - rewrite cell_select by (unfold log_columns; set_solver).
    unfold m. rewrite cell_insert_ne by done. rewrite cell_insert_ne by done.
    rewrite cell_insert_eq. by rewrite Hst.
  - rewrite cell_select by (unfold log_columns; set_solver).
    rewrite cell_insert_ne by done. exact Hm1.
  - rewrite cell_select by (unfold log_columns; set_solver).
    rewrite cell_insert_ne by done. exact Hm2.
  - rewrite cell_select by (unfold log_columns; set_solver).
    rewrite cell_insert_eq. f_equal. by apply reason_fn_between.
Qed.
End audit_log.

(** With a single key column that every row fills, the merge key is the key
    itself. *)
Lemma single_key_distinct cfg d k :
  keys cfg = [k] → (∀ x, x ∈ rows d → is_Some (x.2 !! k)) →
  merge_keys_distinct cfg d.
Proof.
  intros Hk Hcol x y Hx Hy. unfold record_key, key_tuple, merge_key, cell.
  rewrite Hk. csimpl.
  rewrite !strip_row_lookup_key by left.
  destruct (Hcol x Hx) as [v ->], (Hcol y Hy) as [w ->]. simpl.
  intros H. unfold strip_cell. by rewrite H.
Qed.

Lemma no_duplicates_none_marked cfg d :
  existsb id (dup_mask_of cfg d) = false →
  filter (λ x, marked cfg d x = true) (rows d) = [].
Proof.
  intros Hno. pose proof (no_duplicates_marked cfg d) as Hm.
  specialize (λ x, Hm x Hno). revert Hm.
  generalize (marked cfg d). intros f Hf.
  induction (rows d) as [|x l IH]; [done|].
  rewrite filter_cons_False by (rewrite Hf; [done|left]).
  apply IH. intros y Hy. apply Hf. by right.
Qed.

Lemma audit_of_distinct_merge_keys d cfg deduped audit :
  NoDup (index d) → plain_config cfg → merge_keys_distinct cfg d →
  outcome (deduplicate d (Some cfg)) = inr (deduped, audit) →
  Forall2 (λ a x, audit_row_of cfg (rows d) a.2 x)
          (rows audit) (filter (λ x, marked cfg d x = true) (rows d)).
Proof.
  intros Hnd Hplain Hdist Hout.
  apply outcome_success in Hout as (_ & _ & _ & [(_ & _ & ->)|(Hno & _ & ->)]).
  - apply audit_rows; [done| |done]. intros k. by apply plain_keys.
  - rewrite no_duplicates_none_marked by done. constructor.
Qed.

Lemma rows_split d cfg deduped audit :
  outcome (deduplicate d (Some cfg)) = inr (deduped, audit) →
  length (rows audit)
  = length (filter (λ x, marked cfg d x = true) (rows d)) →
  (length (rows deduped) + length (rows audit))%nat = length (rows d).
Proof.
  intros Hout ->. rewrite (rows_of_success _ _ _ _ Hout), length_fmap.
  apply length_filter_bool.
Qed.

(** X8.  The audit log and conservation, away from the defect.  When records of
    different groups have different merge keys (as they do with a single key
    column), a returning call on a dataset with distinct row labels and a
    plain configuration gives one audit row per removed record, in the order
    of the removed records, each paired with the survivor of its own group:
    the survivor's score is at least the removed record's score and the
    reason is the one of the specification.  The deduped rows and the audit
    rows then add up to the input rows. *)
Theorem audit_pairs_with_own_survivor d cfg deduped audit :
  NoDup (index d) → plain_config cfg → merge_keys_distinct cfg d →
  outcome (deduplicate d (Some cfg)) = inr (deduped, audit) →
  Forall2 (λ a x, audit_row_of cfg (rows d) a.2 x)
          (rows audit) (filter (λ x, marked cfg d x = true) (rows d)) ∧
  (length (rows deduped) + length (rows audit))%nat = length (rows d).
Proof.
  intros Hnd Hplain Hdist Hout.
  pose proof (audit_of_distinct_merge_keys d cfg deduped audit
                Hnd Hplain Hdist Hout) as HF.
  split; [exact HF|].
  apply (rows_split d cfg deduped audit Hout).
  by apply Forall2_length in HF.
Qed.

Lemma audit_pairs_with_own_survivor_witness :
  Forall2 (λ a x, audit_row_of main_config (rows students) a.2 x)
          (rows (audit_frame main_config students))
          (filter (λ x, marked main_config students x = true) (rows students)) ∧
  (length (rows (deduped_frame main_config students))
   + length (rows (audit_frame main_config students)))%nat
  = length (rows students).
Proof.
  apply audit_pairs_with_own_survivor.
  - apply (bool_decide_unpack _). vm_compute. exact I.
  - apply (bool_decide_unpack _). vm_compute. exact I.
  - apply (single_key_distinct _ _ "STUDENTID"); [done|].
    apply Forall_forall. apply (bool_decide_unpack _). vm_compute. exact I.
  - vm_compute. reflexivity.
Defined.

(** ** The audit log on two groups with one merge key *)

Example pairs_merge_keys :
  merge_key ["A"; "B"] (pair_row "x||y" "z" 1) = "x||y||z" ∧
  merge_key ["A"; "B"] (pair_row "x" "y||z" 0) = "x||y||z".
Proof. by vm_compute. Qed.

Example pairs_deduped :
  ∃ deduped audit,
    outcome (deduplicate pairs (Some pair_config)) = inr (deduped, audit) ∧
    index deduped = [0; 2]%nat.
Proof. eexists _, _. split; [vm_compute; reflexivity|]. by vm_compute. Qed.

(** C4 (defect of the code).  Conservation fails when two duplicate groups
    have the same ['||']-joined merge key: on [pairs], four input rows give
    two deduped rows and four audit rows, because the left merge pairs each
    removed record with the survivors of both groups. *)
Theorem conservation_fails_on_shared_merge_key :
  ∃ deduped audit,
    outcome (deduplicate pairs (Some pair_config)) = inr (deduped, audit) ∧
    length (rows pairs) = 4%nat ∧
    length (rows deduped) = 2%nat ∧
    length (rows audit) = 4%nat ∧
    (length (rows deduped) + length (rows audit))%nat ≠ length (rows pairs).
Proof.
  eexists _, _. split; [vm_compute; reflexivity|].
  repeat split; try by vm_compute.
Qed.

(** C5 (defect of the code).  On [pairs] the audit log holds a row with the
    third reason ["duplicate"], and it gives the record at position 3, whose
    score 0 equals the score of its own survivor at position 2, the reason
    ["duplicate: lower-priority stage"]: the reason is computed against the
    survivor of the other group that shares the merge key. *)
Theorem reasons_fail_on_shared_merge_key :
  ∃ deduped audit,
    outcome (deduplicate pairs (Some pair_config)) = inr (deduped, audit) ∧
    (λ x, cell x.2 "reason") <$> rows audit
    = [VStr "duplicate";
       VStr "duplicate: same stage, kept first";
       VStr "duplicate: same stage, kept first";
       VStr "duplicate: lower-priority stage"] ∧
    is_survivor pair_config (rows pairs) 2 ∧
    same_group (record_key pair_config) (rows pairs) 2 3 ∧
    (λ x, record_score pair_config x.2) <$> rows pairs = [1; 1; 0; 0].
Proof.
  eexists _, _. split; [vm_compute; reflexivity|].
  split; [by vm_compute|]. split; [|split; [|by vm_compute]].
  - eexists. split; [reflexivity|]. intros j y Hy Hk.
    destruct j as [|[|[|[|j]]]]; simplify_eq/=; try (vm_compute in Hk; done).
    + split; [by vm_compute | lia].
    + split; [by vm_compute | lia].
  - eexists _, _. split; [reflexivity|]. split; [reflexivity|]. by vm_compute.
Qed.

(** C6 (defect of the code).  The survivor of a group has a Priority Score
    at least that of every member of its group; all the same the audit log of
    [pairs] holds a row whose removed score 1 exceeds the paired survivor
    score 0, the pair having been formed across two groups that share a merge
    key. *)
Theorem audit_score_exceeds_on_shared_merge_key :
  (∀ cfg (l : list (nat * Row)) i j x y,
      is_survivor cfg l i → same_group (record_key cfg) l i j →
      l !! i = Some x → l !! j = Some y →
      record_score cfg y.2 ≤ record_score cfg x.2) ∧
  ∃ deduped audit row,
    outcome (deduplicate pairs (Some pair_config)) = inr (deduped, audit) ∧
    row ∈ rows audit ∧
    cell row.2 "_score" = VInt 1 ∧ cell row.2 "_score_kept" = VInt 0 ∧
    cell row.2 "reason" = VStr "duplicate".
Proof.
  split.
  - intros cfg l i j x y (x' & Hx' & H) (x'' & y' & Hx'' & Hy' & Hk) Hx Hy.
    rewrite Hx in Hx'. injection Hx' as <-.
    rewrite Hx in Hx''. injection Hx'' as <-.
    rewrite Hy in Hy'. injection Hy' as <-.
    by apply (H j y Hy Hk).
  - eexists _, _, _. split; [vm_compute; reflexivity|].
    split; [left|]. by vm_compute.
Qed.

(** ** C7: failures *)

Lemma elem_of_flag_cols cfg c :
  c ∈ flag_cols_of cfg
  ↔ ∃ label, label ∈ precedence ∧ flags cfg !! label = Some c ∧ c ≠ "".
Proof.
  unfold flag_cols_of, truthy_cols. rewrite list_elem_of_omap. split.
  - intros (col & Hcol & H). destruct col as [[|a s]|]; simpl in H; try done.
    injection H as <-.
    repeat (apply elem_of_cons in Hcol as [Hcol|Hcol];
            [eexists; split; [|split; [by rewrite <- Hcol|done]];
             unfold precedence; set_solver|]).
    by apply elem_of_nil in Hcol.
  - intros (label & Hl & Hc & Hne). exists (Some c).
    split; [|by destruct c].
    unfold precedence in Hl. rewrite <- Hc.
    repeat (apply elem_of_cons in Hl as [->|Hl]; [set_solver|]).
    by apply elem_of_nil in Hl.
Qed.

Lemma missing_cols_nonempty cfg d :
  missing_cols_of cfg d ≠ [] ↔ flag_column_missing cfg d.
Proof.
  unfold flag_column_missing, missing_cols_of. split.
  - intros H. destruct (filter _ _) as [|c l] eqn:E; [done|].
    assert (c ∈ filter (λ col, col ∉ columns d) (flag_cols_of cfg)) as Hc
      by (rewrite E; left).
    apply list_elem_of_filter in Hc as [Hc1 Hc2].
    apply elem_of_flag_cols in Hc2 as (label & ? & ? & ?). by exists label, c.
  - intros (label & c & Hl & Hc & Hne & Hcol) E.
    assert (c ∈ filter (λ col, col ∉ columns d) (flag_cols_of cfg)) as H.
    { apply list_elem_of_filter. split; [done|].
      apply elem_of_flag_cols. by exists label. }
    rewrite E in H. by apply elem_of_nil in H.
Qed.

(** C7, as amended.  The engine raises its own two errors, the
    ConfigurationError of the specification, as follows: ["keys are empty"]
    exactly when [keys] is empty, and ["Dataset has no flag columns"] only
    when [keys] is not empty, every key column exists and some stage label
    is configured with a non-empty column name that the dataset lacks, with
    the list of those names; whenever that is so the call fails with a
    ValueError.  When [keys] is not empty and a key column does not exist,
    the call fails with a KeyError instead, whatever the flag columns.
    Nothing is said of other errors. *)
Theorem error_kinds d cfg :
  (outcome (deduplicate d (Some cfg)) = inl (ValueError "keys are empty" [])
   ↔ keys cfg = []) ∧
  (∀ cols, outcome (deduplicate d (Some cfg))
           = inl (ValueError "Dataset has no flag columns" cols) →
     keys cfg ≠ [] ∧ Forall (λ k, k ∈ columns d) (keys cfg) ∧
     flag_column_missing cfg d ∧ cols = missing_cols_of cfg d) ∧
  (keys cfg ≠ [] → Forall (λ k, k ∈ columns d) (keys cfg) →
   flag_column_missing cfg d →
   is_ValueError (outcome (deduplicate d (Some cfg)))) ∧
  (keys cfg ≠ [] → (∃ k, k ∈ keys cfg ∧ k ∉ columns d) →
   is_KeyError (outcome (deduplicate d (Some cfg)))
   ∧ ¬ is_ValueError (outcome (deduplicate d (Some cfg)))).
Proof.
  rewrite outcome_Some. unfold is_ValueError, is_KeyError.
  destruct (decide (keys cfg = [])) as [Hk|Hk].
  { split; [done|]. split; [done|]. split; [by eexists _, _|done]. }
  destruct (decide (Forall (λ k, k ∈ columns d) (keys cfg))) as [Hc|Hc].
  - destruct (decide (missing_cols_of cfg d = [])) as [Hm|Hm].
    + assert (¬ flag_column_missing cfg d) as Hnm
        by (rewrite <- missing_cols_nonempty; auto).
      assert (¬ ∃ k, k ∈ keys cfg ∧ k ∉ columns d) as Hnk.
      { intros (k & Hk1 & Hk2). rewrite Forall_forall in Hc. auto. }
      split; [|split; [|split; [done|done]]].
      * split; [|done].
        destruct (existsb id (dup_mask_of cfg d)); [|done].
        destruct (threshold_for_removing cfg) as [t|]; [|done].
        by destruct (float_overflow t).
      * intros cols.
        destruct (existsb id (dup_mask_of cfg d)); [|done].
        destruct (threshold_for_removing cfg) as [t|]; [|done].
        by destruct (float_overflow t).
    + apply missing_cols_nonempty in Hm as Hm'.
      split; [done|]. split; [|split].
      * by intros cols [= <-].
      * intros _ _ _. by eexists _, _.
      * intros _ (k & Hk1 & Hk2). rewrite Forall_forall in Hc.
        by destruct (Hk2 (Hc k Hk1)).
  - split; [done|]. split; [done|]. split; [done|].
    intros _ _. split; [by eexists|]. by intros (? & ? & ?).
Qed.

(** The theorem on three failing calls: [students] with empty [keys], with a
    flag column it lacks, and with a key column it lacks. *)
Lemma error_kinds_witness :
  outcome (deduplicate students (Some no_keys_config))
  = inl (ValueError "keys are empty" []) ∧
  is_ValueError (outcome (deduplicate students (Some missing_flag_config))) ∧
  (is_KeyError (outcome (deduplicate students (Some missing_key_config)))
   ∧ ¬ is_ValueError (outcome (deduplicate students (Some missing_key_config)))).
Proof.
  split; [|split].
  - by apply (proj2 (proj1 (error_kinds students no_keys_config))).
  - apply (proj1 (proj2 (proj2 (error_kinds students missing_flag_config)))).
    + discriminate.
    + apply (bool_decide_unpack _). vm_compute. exact I.
    + exists "ENROLL", "FLAG_X". split; [unfold precedence; left|].
      split; [done|]. split; [done|].
      apply (bool_decide_unpack _). vm_compute. exact I.
  - apply (proj2 (proj2 (proj2 (error_kinds students missing_key_config)))).
    + discriminate.
    + exists "ID". split; [left|].
      apply (bool_decide_unpack _). vm_compute. exact I.
Defined.

(** The claim fails on [students]: a flag column that the dataset lacks
    gives no ConfigurationError when a key column is lacking too (the call
    fails with [KeyError] before the flag columns are looked at) or when the
    configured column name is empty (the call returns); and errors of other
    kinds are raised: [KeyError] for a key column the dataset lacks, and at
    line 86, once duplicates are found, [TypeError] for an absent threshold
    and [OverflowError] for an integer threshold beyond the floats. *)
Lemma missing_key_column_counterexample :
  (keys missing_key_config ≠ [] ∧
   ¬ flag_column_missing missing_key_config students ∧
   outcome (deduplicate students (Some missing_key_config)) = inl (KeyError ["ID"])) ∧
  (("FLAG_X" ∉ columns students) ∧
   flags missing_both_config !! "ENROLL" = Some "FLAG_X" ∧
   outcome (deduplicate students (Some missing_both_config)) = inl (KeyError ["ID"])) ∧
  (("" ∉ columns students) ∧
   flags empty_flag_name_config !! "ENROLL" = Some "" ∧
   ∃ deduped audit,
     outcome (deduplicate students (Some empty_flag_name_config))
     = inr (deduped, audit)) ∧
  outcome (deduplicate students (Some (with_threshold main_config None)))
  = inl (TypeError "'>' not supported between instances of 'NoneType' and 'int'") ∧
  outcome (deduplicate students
             (Some (with_threshold main_config (Some (inject_Z (10 ^ 400))))))
  = inl (OverflowError "int too large to convert to float").
Proof.
  split; [|split; [|split; [|split]]].
  - split; [done|]. split; [by intros (l & c & _ & H & _)|]. by vm_compute.
  - split; [apply (bool_decide_unpack _); vm_compute; exact I|].
    split; by vm_compute.
  - split; [apply (bool_decide_unpack _); vm_compute; exact I|].
    split; [by vm_compute|]. eexists _, _. vm_compute. reflexivity.
  - by vm_compute.
  - by vm_compute.
Qed.

(** ** C8: the caller's frame *)

(** C8 (defect of the code).  The engine works on the very object the caller
    passed: once the key columns are found, that object has its key cells
    replaced by trimmed strings, and once the flag columns are found it also
    carries the two transient columns [STAGE] and [_score].  On [students]
    the key column changes from [1, " 1 ", 2] to ["1", "1", "2"] and the two
    columns are added. *)
Theorem caller_frame_is_mutated :
  (∀ d cfg, keys cfg ≠ [] → Forall (λ k, k ∈ columns d) (keys cfg) →
     caller_frame (deduplicate d (Some cfg))
     = if decide (missing_cols_of cfg d = []) then staged cfg d
       else strip_keys (keys cfg) d) ∧
  caller_frame (deduplicate students (Some main_config)) ≠ students ∧
  columns (caller_frame (deduplicate students (Some main_config)))
  = student_columns ++ ["STAGE"; "_score"] ∧
  (λ x, cell x.2 "STUDENTID")
    <$> rows (caller_frame (deduplicate students (Some main_config)))
  = [VStr "1"; VStr "1"; VStr "2"] ∧
  (λ x, cell x.2 "STUDENTID") <$> rows students
  = [VInt 1; VStr " 1 "; VInt 2].
Proof.
  split.
  { intros d cfg Hk Hc. rewrite caller_frame_Some.
    by rewrite decide_False, decide_True. }
  split; [|repeat split; by vm_compute].
  intros H. apply (f_equal columns) in H. vm_compute in H. discriminate.
Qed.

(** ** C9: the no-duplicates path *)

Lemma no_duplicates_iff cfg d :
  "STAGE" ∉ keys cfg → "_score" ∉ keys cfg →
  existsb id (dup_mask_of cfg d) = false
  ↔ ∀ i, ¬ in_duplicate_group cfg (rows d) i.
Proof.
  intros H1 H2. unfold dup_mask_of, duplicated. rewrite existsb_id_fmap.
  assert (∀ i, dup_at (key_tuple (keys cfg)) (rows (staged cfg d)) i
               ↔ in_duplicate_group cfg (rows d) i) as Hd.
  { intros i. rewrite rows_staged. apply dup_at_fmap.
    by apply key_tuple_stage_row_iff. }
  split.
  - intros H i Hi. apply Hd in Hi. pose proof Hi as (s & _ & _ & Hs & _).
    apply (dupP_dup_at (keys cfg) _ i s Hs) in Hi.
    apply list_elem_of_lookup_2 in Hs. specialize (H s Hs).
    by apply bool_decide_eq_false in H.
  - intros H s Hs. apply bool_decide_eq_false. intros Hdup.
    apply list_elem_of_lookup_1 in Hs as [i Hi].
    apply (dupP_dup_at (keys cfg) _ i s Hi) in Hdup.
    by apply Hd, H in Hdup.
Qed.

Lemma filter_transient_app (cols : list string) c :
  c ∈ transient_columns →
  filter (λ c, c ∉ transient_columns)
         (if decide (c ∈ cols) then cols else cols ++ [c])
  = filter (λ c, c ∉ transient_columns) cols.
Proof.
  intros Hc. destruct (decide (c ∈ cols)); [done|].
  rewrite filter_app, filter_cons_False by auto. apply app_nil_r.
Qed.

Lemma drop_staged cfg d :
  drop_cols ["STAGE"; "_score"] (staged cfg d) = normalized_frame cfg d.
Proof.
  unfold normalized_frame, drop_cols. f_equal.
  - unfold staged, assign, strip_keys. cbn [columns].
    rewrite (filter_transient_app _ "_score")
      by (unfold transient_columns; right; left).
    by rewrite (filter_transient_app _ "STAGE")
      by (unfold transient_columns; left).
  - rewrite rows_staged, <- list_fmap_compose. apply list_fmap_ext.
    intros i x _. unfold out_row, compose. cbn [fst snd].
    by rewrite drop_row_stage_row.
Qed.

Lemma normalized_frame_id cfg d :
  trimmed_keys cfg d → no_transient d → normalized_frame cfg d = d.
Proof.
  intros Ht [Hc Hr]. destruct d as [cols rs]. unfold normalized_frame.
  cbn [columns rows] in *. f_equal.
  - clear Hr Ht. induction cols as [|c cols IH]; [done|].
    destruct (decide (c ∈ transient_columns)) as [Hin|Hin].
    + destruct (Hc c Hin). left.
    + rewrite filter_cons_True by done. f_equal. apply IH.
      intros c' Hc' Hin'. apply (Hc c' Hc'). by right.
  - rewrite <- (list_fmap_id rs) at 2. apply list_fmap_ext.
    intros i [n r] Hx. apply list_elem_of_lookup_2 in Hx.
    unfold out_row. cbn [fst snd]. apply (f_equal (pair n)).
    apply map_eq. intros k.
    destruct (decide (k ∈ transient_columns)) as [Hin|Hin].
    + rewrite drop_row_lookup_eq by done. symmetry. apply (Hr (n, r) k Hx Hin).
    + rewrite drop_row_lookup_ne, strip_row_lookup by done.
      destruct (r !! k) as [v|] eqn:E; [|done]. simpl.
      destruct (decide (k ∈ keys cfg)); [|done].
      f_equal. by apply (Ht (n, r) k v Hx).
Qed.

Lemma no_flag_column_missing cfg d :
  ¬ flag_column_missing cfg d ↔ missing_cols_of cfg d = [].
Proof.
  rewrite <- missing_cols_nonempty. split.
  - intros H. destruct (decide (missing_cols_of cfg d = [])); [done|].
    by destruct H.
  - intros H Hn. by apply Hn.
Qed.

(** The result of a call on a dataset without duplicate groups. *)
Lemma short_circuit d cfg :
  keys cfg ≠ [] → "STAGE" ∉ keys cfg → "_score" ∉ keys cfg →
  Forall (λ k, k ∈ columns d) (keys cfg) → ¬ flag_column_missing cfg d →
  (∀ i, ¬ in_duplicate_group cfg (rows d) i) →
  outcome (deduplicate d (Some cfg)) = inr (normalized_frame cfg d, empty_frame).
Proof.
  intros Hk H1 H2 Hc Hm Hd. rewrite outcome_Some.
  rewrite decide_False, decide_True by done.
  rewrite decide_True by (by apply no_flag_column_missing).
  apply (no_duplicates_iff cfg d H1 H2) in Hd. rewrite Hd.
  by rewrite drop_staged.
Qed.

(** The deduped frame of any successful call. *)
Lemma frame_of_success d cfg deduped audit :
  outcome (deduplicate d (Some cfg)) = inr (deduped, audit) →
  deduped = {| columns := filter (λ c, c ∉ transient_columns) (columns d);
               rows := out_row cfg <$> filter (λ x, marked cfg d x = false) (rows d) |}.
Proof.
  intros H. pose proof (rows_of_success _ _ _ _ H) as Hr.
  apply outcome_success in H as (_ & _ & _ & [(_ & -> & _)|(_ & -> & _)]).
  - rewrite <- Hr. unfold deduped_frame. cbn [rows]. f_equal.
    by rewrite drop_staged.
  - rewrite <- Hr. by rewrite drop_staged.
Qed.

Lemma record_key_out_row cfg x :
  "STAGE" ∉ keys cfg → "_score" ∉ keys cfg →
  record_key cfg (out_row cfg x).2 = record_key cfg x.2.
Proof.
  intros H1 H2. apply record_key_ext. intros k Hk.
  unfold out_row. cbn [snd].
  rewrite drop_row_lookup_ne, strip_row_lookup_key by
    (done || (unfold transient_columns; intros Hin;
              apply elem_of_cons in Hin as [->|Hin]; [done|];
              by apply list_elem_of_singleton in Hin as ->)).
  destruct (x.2 !! k); simpl; [|done]. by rewrite strip_cell_idem.
Qed.

Section second_run.
Variables (cfg : Config) (d : DataFrame).
Hypothesis unique_index : NoDup (index d).
Hypothesis stage_not_key : "STAGE" ∉ keys cfg.
Hypothesis score_not_key : "_score" ∉ keys cfg.

Let kept := filter (λ x, marked cfg d x = false) (rows d).

Lemma kept_no_duplicates i :
  ¬ in_duplicate_group cfg (out_row cfg <$> kept) i.
Proof.
  unfold in_duplicate_group.
  rewrite (dup_at_fmap (record_key cfg) (record_key cfg) (out_row cfg))
    by (intros x y; by rewrite !record_key_out_row).
  intros (x & j & y & Hx & Hy & Hne & Hk).
  assert (NoDup kept) as Hnd.
  { apply NoDup_filter. by apply (NoDup_fmap_1 fst). }
  assert (x ≠ y) as Hxy.
  { intros ->. apply Hne. by apply (NoDup_lookup kept j i y). }
  apply list_elem_of_lookup_2, list_elem_of_filter in Hx as [Hmx Hx].
  apply list_elem_of_lookup_2, list_elem_of_filter in Hy as [Hmy Hy].
  apply list_elem_of_lookup_1 in Hx as [p Hp].
  apply list_elem_of_lookup_1 in Hy as [q Hq].
  assert (p ≠ q) as Hpq by (intros ->; congruence).
  assert (in_duplicate_group cfg (rows d) p) as Hdp by (by exists x, q, y).
  assert (in_duplicate_group cfg (rows d) q) as Hdq
    by (exists y, p, x; repeat split; [done|done|congruence|congruence]).
  pose proof (proj1 (marked_false cfg d unique_index stage_not_key
                       score_not_key p x Hp) Hmx Hdp) as Hsx.
  pose proof (proj1 (marked_false cfg d unique_index stage_not_key
                       score_not_key q y Hq) Hmy Hdq) as Hsy.
  apply Hpq.
  apply (first_max_unique (record_key cfg) (record_score cfg) (rows d));
    [done|done|].
  by exists x, y.
Qed.

Lemma kept_trimmed x k v :
  x ∈ out_row cfg <$> kept → k ∈ keys cfg → x.2 !! k = Some v →
  strip_cell v = v.
Proof.
  intros Hx Hk. apply list_elem_of_fmap in Hx as (y & -> & _).
  unfold out_row. cbn [snd].
  rewrite drop_row_lookup_ne, strip_row_lookup_key by
    (done || (unfold transient_columns; intros Hin;
              apply elem_of_cons in Hin as [->|Hin]; [done|];
              by apply list_elem_of_singleton in Hin as ->)).
  destruct (y.2 !! k); simpl; [|done]. intros [= <-]. apply strip_cell_idem.
Qed.

Lemma second_run deduped audit :
  (∀ c, c ∈ flag_cols_of cfg → c ∉ transient_columns) →
  outcome (deduplicate d (Some cfg)) = inr (deduped, audit) →
  outcome (deduplicate deduped (Some cfg)) = inr (deduped, empty_frame).
Proof.
  intros Hflags Hout.
  pose proof (frame_of_success _ _ _ _ Hout) as Hd. fold kept in Hd.
  apply outcome_success in Hout as (Hk & Hc & Hm & _).
  assert (∀ k, k ∈ keys cfg → k ∉ transient_columns) as Hkt.
  { unfold transient_columns. intros k Hk' Hin.
    apply elem_of_cons in Hin as [->|Hin]; [done|].
    by apply list_elem_of_singleton in Hin as ->. }
  rewrite <- (normalized_frame_id cfg deduped) at 2.
  - apply short_circuit; try done.
    + rewrite Hd. cbn [columns]. rewrite Forall_forall in Hc.
      apply Forall_forall. intros k Hk'. apply list_elem_of_filter. auto.
    + intros (label & c & Hl & Hfc & Hne & Hcol). apply Hcol.
      rewrite Hd. cbn [columns].
      assert (c ∈ flag_cols_of cfg) as Hin
        by (apply elem_of_flag_cols; by exists label).
      apply list_elem_of_filter. split; [by apply Hflags|].
      destruct (decide (c ∈ columns d)) as [|Hnc]; [done|].
      assert (c ∈ missing_cols_of cfg d) as Hmc
        by (by apply list_elem_of_filter).
      rewrite Hm in Hmc. by apply elem_of_nil in Hmc.
    + rewrite Hd. cbn [rows]. apply kept_no_duplicates.
  - rewrite Hd. intros x k v. cbn [rows]. apply kept_trimmed.
  - rewrite Hd. split; cbn [columns rows].
    + intros c Hc' Hin. by apply list_elem_of_filter in Hin as [? _].
    + intros x c Hx Hc'. apply list_elem_of_fmap in Hx as (y & -> & _).
      by apply drop_row_lookup_eq.
Qed.
End second_run.

(** X19.  The no-duplicates path.  With a plain non-empty configuration
    whose key columns and configured flag columns exist, a dataset without
    duplicate groups under the normalized keys comes back with its key cells
    replaced by their trimmed string form and without any [STAGE] or
    [_score] column, together with an empty audit frame; it comes back
    unchanged when its key cells already are trimmed strings and it has no
    such column.  That is the case of every deduped frame the engine returns
    for a dataset with distinct row labels, so a second call on it returns
    it unchanged with an empty audit frame. *)
Theorem no_duplicates_short_circuit d cfg :
  keys cfg ≠ [] → plain_config cfg →
  (Forall (λ k, k ∈ columns d) (keys cfg) → ¬ flag_column_missing cfg d →
   (∀ i, ¬ in_duplicate_group cfg (rows d) i) →
   outcome (deduplicate d (Some cfg)) = inr (normalized_frame cfg d, empty_frame) ∧
   (trimmed_keys cfg d → no_transient d →
    outcome (deduplicate d (Some cfg)) = inr (d, empty_frame))) ∧
  (∀ deduped audit,
     NoDup (index d) →
     outcome (deduplicate d (Some cfg)) = inr (deduped, audit) →
     outcome (deduplicate deduped (Some cfg)) = inr (deduped, empty_frame)).
Proof.
  intros Hk Hplain.
  pose proof (plain_stage_not_key cfg Hplain) as H1.
  pose proof (plain_score_not_key cfg Hplain) as H2.
  split.
  - intros Hc Hm Hd.
    pose proof (short_circuit d cfg Hk H1 H2 Hc Hm Hd) as Hs.
    split; [done|]. intros Ht Hn. by rewrite Hs, normalized_frame_id.
  - intros deduped audit Hnd Hout.
    apply (second_run cfg d Hnd H1 H2 deduped audit); [|done].
    intros c Hc. by apply (plain_flags_not_transient cfg).
Qed.

Lemma no_duplicates_short_circuit_witness :
  outcome (deduplicate two_students (Some main_config))
  = inr (normalized_frame main_config two_students, empty_frame) ∧
  outcome (deduplicate (normalized_frame main_config two_students) (Some main_config))
  = inr (normalized_frame main_config two_students, empty_frame).
Proof.
  destruct (no_duplicates_short_circuit two_students main_config)
    as [Hfirst Hsecond].
  - done.
  - apply (bool_decide_unpack _). vm_compute. exact I.
  - assert (outcome (deduplicate two_students (Some main_config))
            = inr (normalized_frame main_config two_students, empty_frame)) as H.
    { apply Hfirst.
      - apply (bool_decide_unpack _). vm_compute. exact I.
      - apply no_flag_column_missing. vm_compute. reflexivity.
      - apply no_duplicates_iff.
        + apply (bool_decide_unpack _). vm_compute. exact I.
        + apply (bool_decide_unpack _). vm_compute. exact I.
        + vm_compute. reflexivity. }
    split; [exact H|].
    apply (Hsecond _ empty_frame).
    + apply (bool_decide_unpack _). vm_compute. exact I.
    + exact H.
Defined.

(** C9 (defect of the code).  [two_students] has no duplicate group, under
    the raw keys as under the normalized keys, and the configuration is
    valid.  The engine takes the no-duplicates path, whose log message and
    comment say that it returns the original frame, and returns a frame
    that is not the input: the integer ids 1 and 2 have become the strings
    ["1"] and ["2"] (line 23 runs before the test of line 57). *)
Theorem short_circuit_changes_the_keys :
  NoDup ((λ x, key_tuple (keys main_config) x.2) <$> rows two_students) ∧
  (∀ i, ¬ in_duplicate_group main_config (rows two_students) i) ∧
  outcome (deduplicate two_students (Some main_config))
  ≠ inr (two_students, empty_frame) ∧
  (λ x, cell x.2 "STUDENTID") <$> rows two_students = [VInt 1; VInt 2] ∧
  ∃ deduped,
    outcome (deduplicate two_students (Some main_config))
    = inr (deduped, empty_frame) ∧
    (λ x, cell x.2 "STUDENTID") <$> rows deduped = [VStr "1"; VStr "2"].
Proof.
  split; [apply (bool_decide_unpack _); vm_compute; exact I|].
  split.
  { apply no_duplicates_iff.
    - apply (bool_decide_unpack _). vm_compute. exact I.
    - apply (bool_decide_unpack _). vm_compute. exact I.
    - vm_compute. reflexivity. }
  split.
  { intros H.
    assert (match outcome (deduplicate two_students (Some main_config)) with
            | inr (a, _) => (λ x, cell x.2 "STUDENTID") <$> rows a
            | inl _ => []
            end = [VInt 1; VInt 2]) as H' by (rewrite H; by vm_compute).
    vm_compute in H'. discriminate. }
  split; [by vm_compute|].
  eexists. split; [vm_compute; reflexivity|]. by vm_compute.
Qed.

(** ** C10: normalized keys in both returned frames *)

Lemma lstrip_decompose s :
  ∃ pre, s = pre +:+ lstrip s ∧ blank pre = true ∧
         starts_with_space (lstrip s) = false.
Proof.
  induction s as [|a s IH]; [by exists EmptyString|]. simpl.
  destruct (isspace a) eqn:Ea.
  - destruct IH as (pre & Hs & Hb & Hst). exists (String a pre).
    split; [|split; [|done]].
    + change (String a s = String a (pre +:+ lstrip s)). by f_equal.
    + cbn [blank]. by rewrite Ea.
  - exists EmptyString. split; [done|]. split; [done|].
    cbn [starts_with_space]. exact Ea.
Qed.

Lemma rstrip_decompose s :
  ∃ post, s = rstrip s +:+ post ∧ blank post = true ∧
          ends_with_space (rstrip s) = false.
Proof.
  induction s as [|a s IH]; [by exists EmptyString|].
  destruct IH as (post & Hs & Hb & He). simpl.
  destruct (rstrip s) as [|b t] eqn:Er.
  - change (s = post) in Hs. subst s. destruct (isspace a) eqn:Ea.
    + exists (String a post). split; [done|]. split; [|done].
      cbn [blank]. by rewrite Ea.
    + exists post. split; [done|]. split; [done|].
      cbn [ends_with_space]. exact Ea.
  - exists post. split; [|split; [done|exact He]].
    change (String a s = String a (String b t +:+ post)). by f_equal.
Qed.

Lemma ends_with_space_lstrip s :
  ends_with_space s = false → ends_with_space (lstrip s) = false.
Proof.
  induction s as [|a s IH]; [done|]. simpl lstrip.
  destruct (isspace a) eqn:Ea; [|done].
  intros H. apply IH. destruct s; [done|]. exact H.
Qed.

Lemma string_app_assoc (a b c : string) : (a +:+ b) +:+ c = a +:+ (b +:+ c).
Proof.
  induction a as [|x a IH]; [done|].
  change (String x ((a +:+ b) +:+ c) = String x (a +:+ (b +:+ c))).
  by rewrite IH.
Qed.

Lemma strip_trimmed_form s : trimmed_form s (strip s).
Proof.
  unfold strip. destruct (rstrip_decompose s) as (post & Hs & Hpost & He).
  destruct (lstrip_decompose (rstrip s)) as (pre & Hr & Hpre & Hst).
  exists pre, post. split; [|split; [done|split; [done|split; [done|]]]].
  - rewrite Hs at 1. rewrite Hr at 1. apply string_app_assoc.
  - by apply ends_with_space_lstrip.
Qed.

Lemma lstrip_no_space s : no_space s = true → lstrip s = s.
Proof.
  destruct s as [|a s]; [done|]. simpl. intros [Ha _]%andb_true_iff.
  apply negb_true_iff in Ha. by rewrite Ha.
Qed.

Lemma rstrip_no_space s : no_space s = true → rstrip s = s.
Proof.
  induction s as [|a s IH]; [done|]. simpl. intros [Ha Hs]%andb_true_iff.
  apply negb_true_iff in Ha. rewrite (IH Hs), Ha. by destruct s.
Qed.

Lemma strip_no_space s : no_space s = true → strip s = s.
Proof.
  intros H. unfold strip. rewrite (rstrip_no_space s H). by apply lstrip_no_space.
Qed.

Lemma no_space_uint d : no_space (NilEmpty.string_of_uint d) = true.
Proof. induction d; simpl; done. Qed.

Lemma no_space_Z_to_string z : no_space (Z_to_string z) = true.
Proof.
  unfold Z_to_string, NilZero.string_of_int, NilZero.string_of_uint.
  destruct (Z.to_int z) as [d|d]; destruct d; try done;
    simpl; apply no_space_uint.
Qed.

Lemma Z_to_string_inj a b : Z_to_string a = Z_to_string b → a = b.
Proof.
  unfold Z_to_string. intros H.
  assert (∀ z, Z.to_int z ≠ Decimal.Pos Decimal.Nil
               ∧ Z.to_int z ≠ Decimal.Neg Decimal.Nil) as Hnil.
  { intros [|p|p]; simpl; split; try done; intros [= Hp];
      by apply (DecimalPos.Unsigned.to_uint_nonnil p). }
  assert (Some (Z.to_int a) = Some (Z.to_int b)) as [= E].
  { rewrite <- (NilZero.isi (Z.to_int a)) by apply Hnil.
    rewrite <- (NilZero.isi (Z.to_int b)) by apply Hnil. by rewrite H. }
  rewrite <- (DecimalZ.of_to a), <- (DecimalZ.of_to b). by rewrite E.
Qed.


Lemma numeral_Z_to_string z :
  option_map Z.of_int (NilZero.int_of_string (Z_to_string z)) = Some z.
Proof.
  unfold Z_to_string.
  assert (Z.to_int z ≠ Decimal.Pos Decimal.Nil
          ∧ Z.to_int z ≠ Decimal.Neg Decimal.Nil) as [H1 H2].
  { destruct z as [|p|p]; simpl; split; try done; intros [= Hp];
      by apply (DecimalPos.Unsigned.to_uint_nonnil p). }
  rewrite (NilZero.isi _ H1 H2). simpl. by rewrite DecimalZ.of_to.
Qed.

(** C10, as amended.  After a returning call with a configuration whose key
    columns are not named like a column the engine writes, every row of the
    deduped frame shows, in each key column, the trimmed string form of the
    cell of the input record with the same label, and every row of the audit
    frame shows the trimmed string form of the key cells of an input record.
    The trimmed string form of a string is the string without the white
    space around it; that of an integer is its decimal numeral.  Two records
    whose key cells have the same trimmed string form are in one duplicate
    group: an integer and a string are the same key exactly when the string
    is the numeral of the integer between two runs of white space, and a
    string and the same string surrounded by white space are the same key. *)
Theorem key_values_normalized d cfg deduped audit :
  Forall (λ k, k ∉ engine_columns) (keys cfg) →
  outcome (deduplicate d (Some cfg)) = inr (deduped, audit) →
  (∀ y, y ∈ rows deduped →
     ∃ x, x ∈ rows d ∧ x.1 = y.1 ∧
       ∀ k, k ∈ keys cfg → y.2 !! k = strip_cell <$> x.2 !! k) ∧
  (∀ y, y ∈ rows audit →
     ∃ x, x ∈ rows d ∧
       ∀ k, k ∈ keys cfg → y.2 !! k = strip_cell <$> x.2 !! k) ∧
  (∀ i j x y, i ≠ j → rows d !! i = Some x → rows d !! j = Some y →
     (∀ k, k ∈ keys cfg → strip_cell <$> x.2 !! k = strip_cell <$> y.2 !! k) →
     in_duplicate_group cfg (rows d) i ∧ in_duplicate_group cfg (rows d) j) ∧
  (∀ s, ∃ t, strip_cell (VStr s) = VStr t ∧ trimmed_form s t) ∧
  (∀ z, ∃ t, strip_cell (VInt z) = VStr t ∧ no_space t = true ∧
             option_map Z.of_int (NilZero.int_of_string t) = Some z) ∧
  (strip_cell (VInt 12) = VStr "12" ∧ strip_cell (VInt (-5)) = VStr "-5" ∧
   strip_cell (VInt 0) = VStr "0" ∧ strip_cell (VStr "  x y ") = VStr "x y") ∧
  (∀ z s, strip_cell (VInt z) = strip_cell (VStr s)
          ↔ ∃ pre post, s = pre +:+ (Z_to_string z +:+ post) ∧
                        blank pre = true ∧ blank post = true) ∧
  (∀ s pre post, blank pre = true → blank post = true →
     strip_cell (VStr (pre +:+ (s +:+ post))) = strip_cell (VStr s)).
Proof.
  intros Hkeys Hout. rewrite Forall_forall in Hkeys.
  split; [|split; [|split; [|split; [|split; [|split; [|split]]]]]].
  - intros y Hy. rewrite (rows_of_success _ _ _ _ Hout) in Hy.
    apply list_elem_of_fmap in Hy as (x & -> & Hx).
    apply list_elem_of_filter in Hx as [_ Hx]. exists x.
    split; [done|]. split; [done|]. intros k Hk. unfold out_row. cbn [snd].
    rewrite drop_row_lookup_ne, strip_row_lookup_key; [done|done|].
    intros Hin. apply (Hkeys k Hk). unfold transient_columns in Hin.
    unfold engine_columns. apply elem_of_cons in Hin as [->|Hin]; [left|].
    apply list_elem_of_singleton in Hin as ->. right. left.
  - intros y Hy.
    apply outcome_success in Hout
      as (_ & _ & _ & [(_ & _ & ->)|(_ & _ & ->)]);
      [|by apply elem_of_nil in Hy].
    apply audit_row_keys in Hy as (s & Hs & Hy).
    rewrite rows_staged in Hs. apply list_elem_of_fmap in Hs as (x & -> & Hx).
    exists x. split; [done|]. intros k Hk.
    rewrite Hy by auto. rewrite stage_row_lookup_ne.
    + by apply strip_row_lookup_key.
    + intros ->. apply (Hkeys _ Hk). unfold engine_columns. left.
    + intros ->. apply (Hkeys _ Hk). unfold engine_columns. right. left.
  - intros i j x y Hij Hx Hy Hk.
    pose proof (record_key_ext cfg _ _ Hk) as He.
    split.
    + by exists x, j, y.
    + by exists y, i, x.
  - intros s. exists (strip s). split; [done|]. apply strip_trimmed_form.
  - intros z. exists (Z_to_string z). unfold strip_cell. cbn [astype_str].
    rewrite strip_no_space by apply no_space_Z_to_string.
    split; [done|]. split; [apply no_space_Z_to_string|].
    apply numeral_Z_to_string.
  - repeat split; by vm_compute.
  - intros z s. unfold strip_cell. cbn [astype_str].
    rewrite strip_no_space by apply no_space_Z_to_string. split.
    + intros [= H]. destruct (strip_trimmed_form s) as (pre & post & Hs & Hpre & Hpost & _).
      exists pre, post. by rewrite H, <- Hs.
    + intros (pre & post & -> & Hpre & Hpost). f_equal.
      rewrite strip_surrounded by done.
      by rewrite strip_no_space by apply no_space_Z_to_string.
  - intros s pre post Hpre Hpost. unfold strip_cell. cbn [astype_str].
    by rewrite strip_surrounded.
Qed.

Lemma key_values_normalized_witness :
  (∀ y, y ∈ rows (deduped_frame main_config students) →
     ∃ x, x ∈ rows students ∧ x.1 = y.1 ∧
       ∀ k, k ∈ keys main_config → y.2 !! k = strip_cell <$> x.2 !! k) ∧
  (∀ y, y ∈ rows (audit_frame main_config students) →
     ∃ x, x ∈ rows students ∧
       ∀ k, k ∈ keys main_config → y.2 !! k = strip_cell <$> x.2 !! k) ∧
  (λ x, x.2 !! "STUDENTID") <$> rows students
  = [Some (VInt 1); Some (VStr " 1 "); Some (VInt 2)] ∧
  (λ x, x.2 !! "STUDENTID") <$> rows (deduped_frame main_config students)
  = [Some (VStr "1"); Some (VStr "2")] ∧
  (λ x, x.2 !! "STUDENTID") <$> rows (audit_frame main_config students)
  = [Some (VStr "1")].
Proof.
  destruct (key_values_normalized students main_config
              (deduped_frame main_config students)
              (audit_frame main_config students)) as (H1 & H2 & _).
  - apply (bool_decide_unpack _). vm_compute. exact I.
  - vm_compute. reflexivity.
  - split; [exact H1|]. split; [exact H2|]. repeat split; by vm_compute.
Defined.

(** The claim fails for a key column named like a column the engine
    writes.  With the key column [STAGE] the engine overwrites the key with
    the derived stage and drops it from the deduped frame, which then has no
    key column at all; with the key column [reason] the audit row shows the
    removal reason where the key value should be. *)
Lemma reserved_key_column_counterexample :
  (∃ deduped audit,
     outcome (deduplicate stage_key_frame (Some stage_key_config))
     = inr (deduped, audit) ∧
     keys stage_key_config = ["STAGE"] ∧
     (λ x, x.2 !! "STAGE") <$> rows stage_key_frame = [Some (VStr " x ")] ∧
     columns deduped = [] ∧
     (λ x, x.2 !! "STAGE") <$> rows deduped = [None]) ∧
  (∃ deduped audit,
     outcome (deduplicate reason_key_frame (Some reason_key_config))
     = inr (deduped, audit) ∧
     keys reason_key_config = ["reason"] ∧
     (λ x, x.2 !! "reason") <$> rows reason_key_frame
     = [Some (VStr "a"); Some (VStr "a")] ∧
     (λ x, x.2 !! "reason") <$> rows audit
     = [Some (VStr "duplicate: same stage, kept first")]).
Proof.
  split.
  - eexists _, _. split; [vm_compute; reflexivity|]. repeat split; by vm_compute.
  - eexists _, _. split; [vm_compute; reflexivity|]. repeat split; by vm_compute.
Qed.

(** * Further properties of the engine *)

(** ** The log and the returned objects, one outcome at a time *)

#[local] Opaque truthy_cols duplicated groupby_idxmax to_remove _log_formation
  drop_cols assign strip_keys loc_mask count_true score_map float_overflow.

Lemma events_Some d cfg :
  events (deduplicate d (Some cfg)) =
    if decide (keys cfg = []) then []
    else if decide (Forall (λ k, k ∈ columns d) (keys cfg)) then
      if decide (missing_cols_of cfg d = []) then
        if existsb id (dup_mask_of cfg d) then
          match threshold_for_removing cfg with
          | Some t =>
              let total := length (rows (staged cfg d)) in
              let removed_n := count_true (to_remove_mask_of cfg d) in
              let removed_share :=
                if decide (total = 0%nat) then 0%Q else share removed_n total in
              if float_overflow t then []
              else
              LogStats total removed_n removed_share (threshold_fraction t)
              :: (if Qlt_le_dec (threshold_fraction t) removed_share
                  then [LogWarning removed_n total removed_share (threshold_fraction t)]
                  else [])
          | None => []
          end
        else [LogNoDuplicates]
      else []
    else [].
Proof.
  run_engine.
  destruct (decide (keys cfg = [])); [done|]. simpl.
  destruct (decide (Forall _ (keys cfg))); [|done]. simpl.
  change (filter _ (truthy_cols _)) with (missing_cols_of cfg d).
  destruct (decide (missing_cols_of cfg d = [])); [|done]. simpl.
  change (duplicated _ _) with (dup_mask_of cfg d).
  destruct (existsb id (dup_mask_of cfg d)); [|done]. simpl.
  destruct (threshold_for_removing cfg) as [t|]; [|done]. simpl.
  destruct (float_overflow t); [done|]. simpl.
  unfold threshold_fraction, share.
  by destruct (Qlt_le_dec _ _).
Qed.

Lemma returns_argument_Some d cfg :
  returns_argument (deduplicate d (Some cfg)) = false.
Proof.
  run_engine.
  destruct (decide (keys cfg = [])); [done|]. simpl.
  destruct (decide (Forall _ (keys cfg))); [|done]. simpl.
  destruct (decide (_ = [])); [|done]. simpl.
  destruct (existsb id _); [|done]. simpl.
  destruct (threshold_for_removing cfg) as [t|]; [|done]. simpl.
  destruct (float_overflow t); [done|]. simpl.
  by destruct (Qlt_le_dec _ _).
Qed.

#[local] Transparent truthy_cols duplicated groupby_idxmax to_remove _log_formation
  drop_cols assign strip_keys loc_mask count_true score_map float_overflow.

Lemma count_true_fmap {A} (f : A → bool) (l : list A) :
  count_true (f <$> l) = length (filter (λ x, f x = true) l).
Proof.
  unfold count_true. induction l as [|x l IH]; [done|]. csimpl.
  rewrite !filter_cons. destruct (f x); simpl; by rewrite IH.
Qed.

Lemma length_rows_staged cfg d : length (rows (staged cfg d)) = length (rows d).
Proof. by rewrite rows_staged, length_fmap. Qed.

Lemma removed_count cfg d :
  count_true (to_remove_mask_of cfg d)
  = length (filter (λ x, marked cfg d x = true) (rows d)).
Proof. by rewrite to_remove_mask_marked, count_true_fmap. Qed.

Lemma has_duplicates_iff cfg d :
  "STAGE" ∉ keys cfg → "_score" ∉ keys cfg →
  existsb id (dup_mask_of cfg d) = true
  ↔ ∃ i, in_duplicate_group cfg (rows d) i.
Proof.
  intros H1 H2. split.
  - unfold dup_mask_of, duplicated. rewrite existsb_exists.
    intros (b & Hb & Hid). unfold id in Hid. subst b.
    apply list_elem_of_In, list_elem_of_fmap in Hb as (s & Hs & Hin).
    symmetry in Hs. apply bool_decide_eq_true in Hs.
    apply list_elem_of_lookup_1 in Hin as [i Hi]. exists i.
    apply (dupP_dup_at (keys cfg) _ i s Hi) in Hs.
    rewrite rows_staged in Hs. unfold in_duplicate_group.
    by rewrite (dup_at_fmap (record_key cfg)) in Hs
      by (by apply key_tuple_stage_row_iff).
  - intros [i Hi]. destruct (existsb id (dup_mask_of cfg d)) eqn:E; [done|].
    by apply (no_duplicates_iff cfg d H1 H2) in Hi.
Qed.

(** ** The empty configuration and the returned objects *)

(** X1.  With no configuration (or an empty one) the engine hands back the
    very frame object it was given, together with a new empty frame; it does
    not touch the frame and logs one message.  With any other configuration
    the first returned frame is never the object the caller passed. *)
Theorem empty_config_returns_the_argument :
  (∀ d, outcome (deduplicate d None) = inr (d, empty_frame) ∧
        returns_argument (deduplicate d None) = true ∧
        caller_frame (deduplicate d None) = d ∧
        events (deduplicate d None) = [LogEmptyConfig]) ∧
  (∀ d cfg, returns_argument (deduplicate d (Some cfg)) = false).
Proof. split; [done|]. apply returns_argument_Some. Qed.

(** ** Failing calls *)

(** X2.  What a failing call leaves behind.  With empty [keys], or with a
    key column the dataset lacks, the caller's frame is untouched.  With a
    plain configuration and a missing flag column the call fails after
    line 23: the caller's frame already has its key columns normalized.
    With a plain configuration, duplicates and no [threshold_for_removing]
    the call fails at line 86: the caller's frame already carries the stage
    and score columns.  A failing call logs nothing. *)
Theorem failed_call_leaves d cfg :
  (keys cfg = [] →
   outcome (deduplicate d (Some cfg)) = inl (ValueError "keys are empty" []) ∧
   caller_frame (deduplicate d (Some cfg)) = d ∧
   events (deduplicate d (Some cfg)) = []) ∧
  (keys cfg ≠ [] → ¬ Forall (λ k, k ∈ columns d) (keys cfg) →
   outcome (deduplicate d (Some cfg))
   = inl (KeyError (filter (λ k, k ∉ columns d) (keys cfg))) ∧
   caller_frame (deduplicate d (Some cfg)) = d ∧
   events (deduplicate d (Some cfg)) = []) ∧
  (plain_config cfg →
   keys cfg ≠ [] → Forall (λ k, k ∈ columns d) (keys cfg) →
   flag_column_missing cfg d →
   outcome (deduplicate d (Some cfg))
   = inl (ValueError "Dataset has no flag columns" (missing_cols_of cfg d)) ∧
   caller_frame (deduplicate d (Some cfg)) = strip_keys (keys cfg) d ∧
   events (deduplicate d (Some cfg)) = []) ∧
  (plain_config cfg →
   keys cfg ≠ [] → Forall (λ k, k ∈ columns d) (keys cfg) →
   ¬ flag_column_missing cfg d →
   (∃ i, in_duplicate_group cfg (rows d) i) →
   threshold_for_removing cfg = None →
   outcome (deduplicate d (Some cfg))
   = inl (TypeError "'>' not supported between instances of 'NoneType' and 'int'") ∧
   caller_frame (deduplicate d (Some cfg)) = staged cfg d ∧
   events (deduplicate d (Some cfg)) = []).
Proof.
  rewrite outcome_Some, caller_frame_Some, events_Some.
  split; [|split; [|split]].
  - intros Hk. by rewrite !decide_True.
  - intros Hk Hc. by rewrite !(decide_False (P := keys cfg = [])), !decide_False.
  - intros _ Hk Hc Hm. apply missing_cols_nonempty in Hm.
    rewrite !(decide_False (P := keys cfg = [])) by done.
    rewrite !(decide_True (P := Forall _ _)) by done.
    by rewrite !(decide_False (P := missing_cols_of cfg d = [])).
  - intros Hplain Hk Hc Hm Hd Ht. apply no_flag_column_missing in Hm.
    pose proof (plain_stage_not_key cfg Hplain) as H1.
    pose proof (plain_score_not_key cfg Hplain) as H2.
    apply (has_duplicates_iff cfg d H1 H2) in Hd.
    rewrite !(decide_False (P := keys cfg = [])) by done.
    rewrite !(decide_True (P := Forall _ _)) by done.
    rewrite !(decide_True (P := missing_cols_of cfg d = [])) by done.
    by rewrite Hd, Ht.
Qed.

Lemma failed_call_leaves_witness :
  (outcome (deduplicate students (Some no_keys_config))
   = inl (ValueError "keys are empty" []) ∧
   caller_frame (deduplicate students (Some no_keys_config)) = students) ∧
  (outcome (deduplicate students (Some missing_key_config)) = inl (KeyError ["ID"]) ∧
   caller_frame (deduplicate students (Some missing_key_config)) = students) ∧
  (outcome (deduplicate students (Some missing_flag_config))
   = inl (ValueError "Dataset has no flag columns" ["FLAG_X"]) ∧
   caller_frame (deduplicate students (Some missing_flag_config))
   = strip_keys ["STUDENTID"] students) ∧
  (outcome (deduplicate students (Some (with_threshold main_config None)))
   = inl (TypeError "'>' not supported between instances of 'NoneType' and 'int'") ∧
   caller_frame (deduplicate students (Some (with_threshold main_config None)))
   = staged main_config students).
Proof.
  split; [|split; [|split]].
  - destruct (failed_call_leaves students no_keys_config) as (H & _).
    destruct (H eq_refl) as (H1 & H2 & _). by split.
  - destruct (failed_call_leaves students missing_key_config) as (_ & H & _).
    destruct H as (H1 & H2 & _); [done| |by split].
    intros Hf. apply Forall_cons in Hf as [Hf _]. revert Hf.
    apply (bool_decide_unpack _). vm_compute. exact I.
  - destruct (failed_call_leaves students missing_flag_config) as (_ & _ & H & _).
    destruct H as (H1 & H2 & _); [|done| | |by split].
    + apply (bool_decide_unpack _). vm_compute. exact I.
    + apply (bool_decide_unpack _). vm_compute. exact I.
    + exists "ENROLL", "FLAG_X". split; [unfold precedence; left|].
      split; [done|]. split; [done|].
      apply (bool_decide_unpack _). vm_compute. exact I.
  - destruct (failed_call_leaves students (with_threshold main_config None))
      as (_ & _ & _ & H).
    destruct H as (H1 & H2 & _).
    + apply (bool_decide_unpack _). vm_compute. exact I.
    + discriminate.
    + apply (bool_decide_unpack _). vm_compute. exact I.
    + apply no_flag_column_missing. vm_compute. reflexivity.
    + apply has_duplicates_iff.
      * apply (bool_decide_unpack _). vm_compute. exact I.
      * apply (bool_decide_unpack _). vm_compute. exact I.
      * vm_compute. reflexivity.
    + reflexivity.
    + split; [exact H1|exact H2].
Defined.

(** ** The threshold and the statistics *)

Lemma frames_with_threshold cfg t d :
  missing_cols_of (with_threshold cfg t) d = missing_cols_of cfg d ∧
  staged (with_threshold cfg t) d = staged cfg d ∧
  dup_mask_of (with_threshold cfg t) d = dup_mask_of cfg d ∧
  deduped_frame (with_threshold cfg t) d = deduped_frame cfg d ∧
  audit_frame (with_threshold cfg t) d = audit_frame cfg d.
Proof. repeat split; reflexivity. Qed.

(** X3.  The threshold is advisory: two calls that differ only in a numeric
    [threshold_for_removing] that line 86 can convert to a float (every
    float, and every integer within the range of the floats) return the
    same frames (or fail alike) and leave the caller's frame in the same
    state. *)
Theorem threshold_is_advisory d cfg t1 t2 :
  float_overflow t1 = false → float_overflow t2 = false →
  outcome (deduplicate d (Some (with_threshold cfg (Some t1))))
  = outcome (deduplicate d (Some (with_threshold cfg (Some t2)))) ∧
  caller_frame (deduplicate d (Some (with_threshold cfg (Some t1))))
  = caller_frame (deduplicate d (Some (with_threshold cfg (Some t2)))).
Proof.
  intros H1 H2. rewrite !outcome_Some, !caller_frame_Some.
  destruct (frames_with_threshold cfg (Some t1) d) as (-> & -> & -> & -> & ->).
  destruct (frames_with_threshold cfg (Some t2) d) as (-> & -> & -> & -> & ->).
  cbn [threshold_for_removing with_threshold keys]. by rewrite H1, H2.
Qed.

Lemma threshold_is_advisory_witness :
  outcome (deduplicate students (Some (with_threshold main_config (Some (2 # 1)%Q))))
  = outcome (deduplicate students (Some (with_threshold main_config (Some (50 # 1)%Q))))
  ∧
  caller_frame (deduplicate students (Some (with_threshold main_config (Some (2 # 1)%Q))))
  = caller_frame (deduplicate students (Some (with_threshold main_config (Some (50 # 1)%Q)))).
Proof.
  apply (threshold_is_advisory students main_config (2 # 1)%Q (50 # 1)%Q).
  - vm_compute. reflexivity.
  - vm_compute. reflexivity.
Defined.

Lemma share_le_1 (r n : nat) : (r ≤ n)%nat → (0 < n)%nat → (share r n <= 1)%Q.
Proof.
  intros Hr Hn. unfold share. apply Qle_shift_div_r.
  - change 0%Q with (inject_Z 0). rewrite <- Zlt_Qlt. lia.
  - rewrite Qmult_1_l. rewrite <- Zle_Qle. lia.
Qed.

Lemma threshold_fraction_ge_1 t :
  (t == 1 ∨ 100 <= t)%Q → (1 <= threshold_fraction t)%Q.
Proof.
  intros Ht. unfold threshold_fraction.
  destruct (Qlt_le_dec 1 t) as [Hlt|Hle].
  - destruct Ht as [Ht|Ht]; [rewrite Ht in Hlt; by apply Qlt_irrefl in Hlt|].
    apply Qle_shift_div_l; [reflexivity|]. by rewrite Qmult_1_l.
  - destruct Ht as [Ht|Ht]; [by rewrite Ht|]. lra.
Qed.

Lemma removed_le_total cfg d :
  (count_true (to_remove_mask_of cfg d) ≤ length (rows (staged cfg d)))%nat.
Proof. rewrite removed_count, length_rows_staged. apply length_filter. Qed.

(** X4.  What a returning call logs.  Without duplicate groups it logs the
    single message "No duplicates found".  With duplicate groups it logs the
    statistics first: the number of input rows and the number of removed
    rows, which is the number of input rows minus the number of deduped
    rows; the only other message it can log is the warning, with the same
    two counts. *)
Theorem run_statistics d cfg t deduped audit :
  plain_config cfg → threshold_for_removing cfg = Some t →
  outcome (deduplicate d (Some cfg)) = inr (deduped, audit) →
  ((∀ i, ¬ in_duplicate_group cfg (rows d) i) ∧
   events (deduplicate d (Some cfg)) = [LogNoDuplicates])
  ∨ ((∃ i, in_duplicate_group cfg (rows d) i) ∧
     ∃ removed_share threshold rest,
       let total := length (rows d) in
       let removed := (length (rows d) - length (rows deduped))%nat in
       events (deduplicate d (Some cfg))
       = LogStats total removed removed_share threshold :: rest ∧
       (rest = [] ∨
        rest = [LogWarning removed total removed_share threshold])).
Proof.
  intros Hplain Ht Hout.
  pose proof (plain_stage_not_key cfg Hplain) as H1.
  pose proof (plain_score_not_key cfg Hplain) as H2.
  pose proof (rows_of_success _ _ _ _ Hout) as Hrows.
  pose proof Hout as Hov. rewrite outcome_Some, Ht in Hov.
  apply outcome_success in Hout as (Hk & Hc & Hm & Hcase).
  rewrite decide_False, decide_True, decide_True in Hov by done.
  rewrite events_Some, Ht.
  rewrite decide_False, decide_True, decide_True by done.
  destruct Hcase as [(Hd & _ & _)|(Hd & _ & _)]; rewrite Hd; rewrite Hd in Hov.
  - right. split; [by apply has_duplicates_iff|].
    destruct (float_overflow t); [done|].
    cbv zeta. rewrite length_rows_staged, removed_count.
    assert (length (filter (λ x, marked cfg d x = true) (rows d))
            = (length (rows d) - length (rows deduped))%nat) as ->.
    { rewrite Hrows, length_fmap.
      pose proof (length_filter_bool (marked cfg d) (rows d)). lia. }
    eexists _, _, _. split; [reflexivity|].
    destruct (Qlt_le_dec _ _); [by right|by left].
  - left. split; [by apply no_duplicates_iff|done].
Qed.

Lemma run_statistics_witness :
  ∃ removed_share threshold rest,
    events (deduplicate students (Some main_config))
    = LogStats 3 1 removed_share threshold :: rest ∧
    (rest = [] ∨ rest = [LogWarning 1 3 removed_share threshold]).
Proof.
  destruct (run_statistics students main_config (2 # 1)%Q
              (deduped_frame main_config students)
              (audit_frame main_config students)) as [[Hno _]|[_ H]].
  - apply (bool_decide_unpack _). vm_compute. exact I.
  - reflexivity.
  - vm_compute. reflexivity.
  - exfalso.
    assert (∃ i, in_duplicate_group main_config (rows students) i) as [i Hi];
      [|exact (Hno i Hi)].
    apply has_duplicates_iff.
    + apply (bool_decide_unpack _). vm_compute. exact I.
    + apply (bool_decide_unpack _). vm_compute. exact I.
    + vm_compute. reflexivity.
  - exact H.
Defined.

(** X5.  A threshold of exactly 1 is read as 100 percent, and so is any
    threshold of 100 or more: the removed share never exceeds it, so the
    warning is never logged. *)
Theorem no_warning_at_full_threshold d cfg t :
  threshold_for_removing cfg = Some t → (t == 1 ∨ 100 <= t)%Q →
  ∀ e, e ∈ events (deduplicate d (Some cfg)) → is_warning e = false.
Proof.
  intros Ht Hfull e. rewrite events_Some, Ht.
  destruct (decide (keys cfg = [])); [by intros ?%elem_of_nil|].
  destruct (decide (Forall _ _)); [|by intros ?%elem_of_nil].
  destruct (decide (missing_cols_of cfg d = [])); [|by intros ?%elem_of_nil].
  destruct (existsb id (dup_mask_of cfg d)).
  2:{ intros ->%list_elem_of_singleton. done. }
  destruct (float_overflow t); [by intros ?%elem_of_nil|].
  cbv zeta. pose proof (threshold_fraction_ge_1 t Hfull) as Hthr.
  pose proof (removed_le_total cfg d) as Hle.
  destruct (Qlt_le_dec _ _) as [Hlt|_].
  - exfalso. destruct (decide (length (rows (staged cfg d)) = 0%nat)) as [E|E].
    + lra.
    + pose proof (share_le_1 _ _ Hle ltac:(lia)). lra.
  - intros ->%list_elem_of_singleton. done.
Qed.

Lemma no_warning_at_full_threshold_witness :
  Forall (λ e, is_warning e = false)
    (events (deduplicate students (Some (with_threshold main_config (Some 1%Q))))).
Proof.
  apply Forall_forall.
  apply (no_warning_at_full_threshold students
           (with_threshold main_config (Some 1%Q)) 1%Q).
  - reflexivity.
  - left. reflexivity.
Defined.

(** ** The deduped frame *)

Lemma index_of_success d cfg deduped audit :
  outcome (deduplicate d (Some cfg)) = inr (deduped, audit) →
  index deduped = fst <$> filter (λ x, marked cfg d x = false) (rows d).
Proof.
  intros H. unfold index. rewrite (rows_of_success _ _ _ _ H).
  rewrite <- list_fmap_compose. by apply list_fmap_ext.
Qed.

(** X6.  Schema and pass-through.  On a returning call with a plain
    configuration the deduped frame has the columns of the input, in the
    same order, except [STAGE] and [_score]; its row labels
    are a sub-sequence of the input's labels; and each of its rows agrees
    with the input row of the same label in every column that is not a key
    column. *)
Theorem other_columns_pass_through d cfg deduped audit :
  plain_config cfg →
  outcome (deduplicate d (Some cfg)) = inr (deduped, audit) →
  columns deduped = filter (λ c, c ∉ transient_columns) (columns d) ∧
  index deduped `sublist_of` index d ∧
  (∀ y, y ∈ rows deduped →
     ∃ x, x ∈ rows d ∧ x.1 = y.1 ∧
       (∀ c, c ∉ keys cfg → c ∉ transient_columns → y.2 !! c = x.2 !! c) ∧
       (∀ c, c ∈ transient_columns → y.2 !! c = None)).
Proof.
  intros _ Hout. pose proof (frame_of_success _ _ _ _ Hout) as Hd.
  split; [by rewrite Hd|]. split.
  - rewrite (index_of_success _ _ _ _ Hout). unfold index.
    apply fmap_sublist, sublist_filter.
  - intros y Hy. rewrite Hd in Hy. cbn [rows] in Hy.
    apply list_elem_of_fmap in Hy as (x & -> & Hx).
    apply list_elem_of_filter in Hx as [_ Hx]. exists x.
    split; [done|]. split; [done|]. unfold out_row. cbn [snd]. split.
    + intros c Hk Ht. rewrite drop_row_lookup_ne, strip_row_lookup by done.
      destruct (x.2 !! c); [|done]. simpl. by rewrite decide_False.
    + intros c Hc. by apply drop_row_lookup_eq.
Qed.

Lemma other_columns_pass_through_witness :
  columns (deduped_frame main_config students) = student_columns ∧
  index (deduped_frame main_config students) `sublist_of` index students ∧
  (∀ y, y ∈ rows (deduped_frame main_config students) →
     ∃ x, x ∈ rows students ∧ x.1 = y.1 ∧
       (∀ c, c ∉ keys main_config → c ∉ transient_columns →
             y.2 !! c = x.2 !! c) ∧
       (∀ c, c ∈ transient_columns → y.2 !! c = None)).
Proof.
  apply (other_columns_pass_through students main_config
           (deduped_frame main_config students) (audit_frame main_config students)).
  - apply (bool_decide_unpack _). vm_compute. exact I.
  - vm_compute. reflexivity.
Defined.

(** X7.  One row per entity.  For a dataset with distinct row labels and a
    plain configuration, every normalized key of the input is the key of a
    row of the deduped frame, no two rows of the deduped frame share a
    normalized key, and the row labels of the deduped frame are distinct. *)
Theorem one_row_per_key d cfg deduped audit :
  NoDup (index d) → plain_config cfg →
  outcome (deduplicate d (Some cfg)) = inr (deduped, audit) →
  (∀ x, x ∈ rows d →
     ∃ y, y ∈ rows deduped ∧ record_key cfg y.2 = record_key cfg x.2) ∧
  (∀ i, ¬ in_duplicate_group cfg (rows deduped) i) ∧
  NoDup (index deduped).
Proof.
  intros Hnd Hplain Hout.
  pose proof (plain_stage_not_key cfg Hplain) as H1.
  pose proof (plain_score_not_key cfg Hplain) as H2.
  pose proof (rows_of_success _ _ _ _ Hout) as Hrows.
  split; [|split].
  - intros x Hx. apply list_elem_of_lookup_1 in Hx as [i Hi].
    destruct (first_max_exists (record_key cfg) (record_score cfg) _ _ _ Hi)
      as (j & (x' & y & Hx' & Hy & Hk) & Hj).
    rewrite Hi in Hx'. injection Hx' as <-.
    exists (out_row cfg y). split; [|by rewrite record_key_out_row].
    rewrite Hrows. apply list_elem_of_fmap. exists y. split; [done|].
    apply list_elem_of_filter. split; [|by eapply list_elem_of_lookup_2].
    by apply (marked_false cfg d Hnd H1 H2 j y Hy).
  - intros i. rewrite Hrows. by apply kept_no_duplicates.
  - rewrite (index_of_success _ _ _ _ Hout).
    apply (sublist_NoDup _ (index d)); [done|].
    apply fmap_sublist, sublist_filter.
Qed.

Lemma one_row_per_key_witness :
  (∀ x, x ∈ rows students →
     ∃ y, y ∈ rows (deduped_frame main_config students) ∧
          record_key main_config y.2 = record_key main_config x.2) ∧
  (∀ i, ¬ in_duplicate_group main_config
            (rows (deduped_frame main_config students)) i) ∧
  NoDup (index (deduped_frame main_config students)).
Proof.
  apply (one_row_per_key students main_config
           (deduped_frame main_config students) (audit_frame main_config students)).
  - apply (bool_decide_unpack _). vm_compute. exact I.
  - apply (bool_decide_unpack _). vm_compute. exact I.
  - vm_compute. reflexivity.
Defined.

(** ** The audit log *)

(** X9.  The audit log whatever the merge keys.  On a returning call with a
    plain configuration and distinct row labels, the audit rows come in
    blocks, one block per removed record and in the order of the removed
    records.  No block is empty, and each row of a block shows the key
    cells, stage and score of the removed record beside the stage and score
    of a survivor whose ['||']-joined key equals the removed record's, with
    the reason computed from the two scores.  So no removed record is
    missing from the log: the deduped rows and the audit rows together are
    at least as many as the input rows. *)
Theorem audit_rows_pair_with_a_survivor d cfg deduped audit :
  NoDup (index d) → plain_config cfg →
  outcome (deduplicate d (Some cfg)) = inr (deduped, audit) →
  (∃ blocks,
     snd <$> rows audit = concat blocks ∧
     Forall2 (λ g x, g ≠ [] ∧ Forall (λ r, audit_pair_of cfg (rows d) r x) g)
             blocks (filter (λ x, marked cfg d x = true) (rows d))) ∧
  (length (rows d) ≤ length (rows deduped) + length (rows audit))%nat.
Proof.
  intros Hnd Hplain Hout.
  assert (∃ blocks,
     snd <$> rows audit = concat blocks ∧
     Forall2 (λ g x, g ≠ [] ∧ Forall (λ r, audit_pair_of cfg (rows d) r x) g)
             blocks (filter (λ x, marked cfg d x = true) (rows d))) as HB.
  { pose proof Hout as Hs.
    apply outcome_success in Hs as (_ & _ & _ & [(_ & _ & ->)|(Hno & _ & ->)]).
    - apply audit_blocks; [done|]. intros k. by apply plain_keys.
    - exists []. split; [done|].
      rewrite no_duplicates_none_marked by done. constructor. }
  split; [done|]. destruct HB as (blocks & Hrows & HF).
  apply length_concat_nonempty in HF.
  rewrite <- Hrows, length_fmap in HF.
  rewrite (rows_of_success _ _ _ _ Hout), length_fmap.
  pose proof (length_filter_bool (marked cfg d) (rows d)). lia.
Qed.

Lemma audit_rows_pair_with_a_survivor_witness :
  (∃ blocks,
     snd <$> rows (audit_frame pair_config pairs) = concat blocks ∧
     Forall2 (λ g x, g ≠ [] ∧
                Forall (λ r, audit_pair_of pair_config (rows pairs) r x) g)
             blocks
             (filter (λ x, marked pair_config pairs x = true) (rows pairs))) ∧
  (length (rows pairs) ≤ length (rows (deduped_frame pair_config pairs))
                         + length (rows (audit_frame pair_config pairs)))%nat.
Proof.
  apply (audit_rows_pair_with_a_survivor pairs pair_config).
  - apply (bool_decide_unpack _). vm_compute. exact I.
  - apply (bool_decide_unpack _). vm_compute. exact I.
  - vm_compute. reflexivity.
Defined.

(** X10.  Conservation with a single key column.  With one key column that
    every row fills, a returning call on a dataset with distinct row labels
    splits the input: the deduped rows and the audit rows add up to the
    input rows, and every audit row carries a removed score that is at most
    the survivor score beside it and one of the two reasons of the
    specification. *)
Theorem single_key_conservation d cfg k deduped audit :
  NoDup (index d) → plain_config cfg → keys cfg = [k] →
  (∀ x, x ∈ rows d → is_Some (x.2 !! k)) →
  outcome (deduplicate d (Some cfg)) = inr (deduped, audit) →
  (length (rows deduped) + length (rows audit))%nat = length (rows d) ∧
  ∀ a, a ∈ rows audit →
    ∃ removed_score survivor_score,
      cell a.2 "_score" = VInt removed_score ∧
      cell a.2 "_score_kept" = VInt survivor_score ∧
      removed_score ≤ survivor_score ∧
      cell a.2 "reason" = VStr (reason_of removed_score survivor_score).
Proof.
  intros Hnd Hplain Hk Hfull Hout.
  pose proof (audit_of_distinct_merge_keys d cfg deduped audit Hnd Hplain
                (single_key_distinct cfg d k Hk Hfull) Hout) as HF.
  split.
  { apply (rows_split d cfg deduped audit Hout). by apply Forall2_length in HF. }
  intros a Ha.
  apply list_elem_of_lookup_1 in Ha as [i Hi].
  destruct (Forall2_lookup_l _ _ _ _ _ HF Hi)
    as (x & _ & j & y & _ & _ & _ & _ & _ & _ & H1 & H2 & H3 & H4).
  by eexists _, _.
Qed.

Lemma single_key_conservation_witness :
  (length (rows (deduped_frame main_config students))
   + length (rows (audit_frame main_config students)))%nat
  = length (rows students) ∧
  ∀ a, a ∈ rows (audit_frame main_config students) →
    ∃ removed_score survivor_score,
      cell a.2 "_score" = VInt removed_score ∧
      cell a.2 "_score_kept" = VInt survivor_score ∧
      removed_score ≤ survivor_score ∧
      cell a.2 "reason" = VStr (reason_of removed_score survivor_score).
Proof.
  apply (single_key_conservation students main_config "STUDENTID").
  - apply (bool_decide_unpack _). vm_compute. exact I.
  - apply (bool_decide_unpack _). vm_compute. exact I.
  - reflexivity.
  - apply Forall_forall. apply (bool_decide_unpack _). vm_compute. exact I.
  - vm_compute. reflexivity.
Defined.

(** ** What duplicates cost *)

Lemma survivor_kept cfg d i x :
  NoDup (index d) → "STAGE" ∉ keys cfg → "_score" ∉ keys cfg →
  rows d !! i = Some x →
  ∃ j y, rows d !! j = Some y ∧ record_key cfg y.2 = record_key cfg x.2 ∧
         is_survivor cfg (rows d) j ∧ marked cfg d y = false.
Proof.
  intros Hnd H1 H2 Hi.
  destruct (first_max_exists (record_key cfg) (record_score cfg) _ _ _ Hi)
    as (j & (x' & y & Hx' & Hy & Hk) & Hj).
  rewrite Hi in Hx'. injection Hx' as <-.
  exists j, y. split; [done|]. split; [done|]. split; [done|].
  by apply (marked_false cfg d Hnd H1 H2 j y Hy).
Qed.

Lemma some_record_marked cfg d i :
  NoDup (index d) → "STAGE" ∉ keys cfg → "_score" ∉ keys cfg →
  in_duplicate_group cfg (rows d) i →
  ∃ x, x ∈ rows d ∧ marked cfg d x = true.
Proof.
  intros Hnd H1 H2 Hdup. pose proof Hdup as (x & k & y & Hi & Hk & Hne & Hkey).
  destruct (first_max_exists (record_key cfg) (record_score cfg) _ _ _ Hi)
    as (j & Hsame & Hj).
  destruct (decide (i = j)) as [<-|Hij].
  - exists y. split; [by eapply list_elem_of_lookup_2|].
    apply (marked_true cfg d Hnd H1 H2 k y Hk). split.
    + exists y, i, x. by repeat split.
    + intros Hsurv. apply Hne.
      apply (first_max_unique (record_key cfg) (record_score cfg) (rows d));
        [done|done|]. by exists y, x.
  - exists x. split; [by eapply list_elem_of_lookup_2|].
    apply (marked_true cfg d Hnd H1 H2 i x Hi). split; [done|].
    intros Hsurv. apply Hij.
    by apply (first_max_unique (record_key cfg) (record_score cfg) (rows d)).
Qed.

Lemma filter_nil_iff {A} (P : A → Prop) `{!∀ x, Decision (P x)} (l : list A) :
  filter P l = [] ↔ ∀ x, x ∈ l → ¬ P x.
Proof.
  split.
  - intros Hf x Hx HP.
    assert (x ∈ filter P l) as Hin by (by apply list_elem_of_filter).
    rewrite Hf in Hin. by apply elem_of_nil in Hin.
  - intros Hall. destruct (filter P l) as [|x l'] eqn:E; [done|].
    assert (x ∈ filter P l) as Hin by (rewrite E; left).
    apply list_elem_of_filter in Hin as [HP Hx]. by destruct (Hall x Hx).
Qed.

(** X11.  What duplicates cost.  On a returning call with a plain
    configuration and distinct row labels: a non-empty dataset gives a
    non-empty deduped frame; the deduped frame is shorter than the input
    exactly when the input has a duplicate group; and the audit log has a
    row exactly when the input has a duplicate group. *)
Theorem duplicates_cost_rows d cfg deduped audit :
  NoDup (index d) → plain_config cfg →
  outcome (deduplicate d (Some cfg)) = inr (deduped, audit) →
  (rows d ≠ [] → rows deduped ≠ []) ∧
  ((∃ i, in_duplicate_group cfg (rows d) i)
   ↔ (length (rows deduped) < length (rows d))%nat) ∧
  ((∃ i, in_duplicate_group cfg (rows d) i) ↔ rows audit ≠ []).
Proof.
  intros Hnd Hplain Hout.
  pose proof (plain_stage_not_key cfg Hplain) as H1.
  pose proof (plain_score_not_key cfg Hplain) as H2.
  pose proof (rows_of_success _ _ _ _ Hout) as Hrows.
  pose proof (length_filter_bool (marked cfg d) (rows d)) as Hlen.
  assert ((∃ i, in_duplicate_group cfg (rows d) i)
          ↔ filter (λ x, marked cfg d x = true) (rows d) ≠ []) as Hiff.
  { rewrite filter_nil_iff. split.
    - intros [i Hi] Hall.
      destruct (some_record_marked cfg d i Hnd H1 H2 Hi) as (x & Hx & Hm).
      by apply (Hall x Hx).
    - intros Hsome.
      destruct (decide (existsb id (dup_mask_of cfg d) = true)) as [E|E];
        [by apply has_duplicates_iff|].
      apply not_true_is_false in E. destruct Hsome. intros x Hx.
      by rewrite (no_duplicates_marked cfg d x E Hx). }
  split; [|split].
  - intros Hne Hnil. destruct (rows d) as [|x l] eqn:El; [done|].
    destruct (survivor_kept cfg d 0 x Hnd H1 H2) as (j & y & Hj & _ & _ & Hm);
      [by rewrite El|].
    assert (out_row cfg y ∈ rows deduped) as Hin.
    { rewrite Hrows. apply list_elem_of_fmap. exists y. split; [done|].
      apply list_elem_of_filter. split; [done|].
      rewrite <- El. by eapply list_elem_of_lookup_2. }
    rewrite Hnil in Hin. by apply elem_of_nil in Hin.
  - rewrite Hiff, Hrows, length_fmap.
    destruct (filter (λ x, marked cfg d x = true) (rows d)); simpl in *.
    + split; [done|lia].
    + split; [lia|done].
  - rewrite Hiff. pose proof Hout as Hs.
    apply outcome_success in Hs as (_ & _ & _ & [(E & _ & ->)|(Hno & _ & ->)]).
    + destruct (audit_blocks cfg d Hnd) as (blocks & Hb & HF);
        [intros k; by apply plain_keys|].
      apply length_concat_nonempty in HF.
      rewrite <- Hb, length_fmap in HF. split.
      * intros Hne Hnil. rewrite Hnil in HF.
        destruct (filter (λ x, marked cfg d x = true) (rows d)); [done|].
        simpl in HF. lia.
      * intros _. by apply Hiff, has_duplicates_iff.
    + rewrite no_duplicates_none_marked by done. done.
Qed.

Lemma duplicates_cost_rows_witness :
  (rows students ≠ [] → rows (deduped_frame main_config students) ≠ []) ∧
  ((∃ i, in_duplicate_group main_config (rows students) i)
   ↔ (length (rows (deduped_frame main_config students))
      < length (rows students))%nat) ∧
  ((∃ i, in_duplicate_group main_config (rows students) i)
   ↔ rows (audit_frame main_config students) ≠ []).
Proof.
  apply (duplicates_cost_rows students main_config).
  - apply (bool_decide_unpack _). vm_compute. exact I.
  - apply (bool_decide_unpack _). vm_compute. exact I.
  - vm_compute. reflexivity.
Defined.

(** ** Runs without scores *)

Lemma record_score_unranked cfg r :
  flags cfg = ∅ ∨ funnel_priority cfg = [] → record_score cfg r = 0.
Proof.
  intros [Hf|Hp]; unfold record_score, record_stage.
  - unfold stage_of. by rewrite Hf, !lookup_empty.
  - rewrite Hp. unfold priority, score_map. simpl.
    by destruct (of_option_str _).
Qed.

Lemma kept_label cfg d deduped audit i x :
  NoDup (index d) →
  outcome (deduplicate d (Some cfg)) = inr (deduped, audit) →
  rows d !! i = Some x →
  x.1 ∈ index deduped ↔ marked cfg d x = false.
Proof.
  intros Hnd Hout Hi. rewrite (index_of_success _ _ _ _ Hout).
  rewrite list_elem_of_fmap. split.
  - intros (y & Hlab & Hy). apply list_elem_of_filter in Hy as [Hm Hy].
    assert (x = y) as ->; [|done].
    apply (same_label (rows d) Hnd); [by eapply list_elem_of_lookup_2|done|done].
  - intros Hm. exists x. split; [done|]. apply list_elem_of_filter.
    split; [done|]. by eapply list_elem_of_lookup_2.
Qed.

(** X12.  Without scores the first record wins.  When the configuration
    maps no stage to a flag column, or ranks no stage, every record has the
    score 0 and the engine keeps, of each normalized key, the first record
    in input order: a record is kept exactly when no earlier record has its
    normalized key. *)
Theorem first_record_wins_without_scores d cfg deduped audit :
  NoDup (index d) → plain_config cfg →
  flags cfg = ∅ ∨ funnel_priority cfg = [] →
  outcome (deduplicate d (Some cfg)) = inr (deduped, audit) →
  ∀ i x, rows d !! i = Some x →
    (x.1 ∈ index deduped
     ↔ ∀ j y, (j < i)%nat → rows d !! j = Some y →
              record_key cfg y.2 ≠ record_key cfg x.2).
Proof.
  intros Hnd Hplain Hzero Hout i x Hi.
  pose proof (plain_stage_not_key cfg Hplain) as H1.
  pose proof (plain_score_not_key cfg Hplain) as H2.
  rewrite (kept_label cfg d deduped audit i x Hnd Hout Hi).
  rewrite (marked_false cfg d Hnd H1 H2 i x Hi). split.
  - intros Hs j y Hlt Hj Hk.
    destruct Hs as (x' & Hx' & Hmax).
    + exists x, j, y. repeat split; [done|done|lia|done].
    + rewrite Hi in Hx'. injection Hx' as <-.
      destruct (Hmax j y Hj Hk) as [_ Hlt'].
      specialize (Hlt' Hlt). rewrite !record_score_unranked in Hlt' by done. lia.
  - intros Hfirst _. exists x. split; [done|]. intros j y Hj Hk.
    rewrite !record_score_unranked by done. split; [done|].
    intros Hlt. by destruct (Hfirst j y Hlt Hj).
Qed.

Lemma first_record_wins_without_scores_witness :
  ∃ x, rows students !! 1%nat = Some x ∧
    (x.1 ∈ index (deduped_frame (with_flags main_config ∅) students)
     ↔ ∀ j y, (j < 1)%nat → rows students !! j = Some y →
              record_key (with_flags main_config ∅) y.2
              ≠ record_key (with_flags main_config ∅) x.2).
Proof.
  eexists. split; [reflexivity|].
  apply (first_record_wins_without_scores students (with_flags main_config ∅)
           (deduped_frame (with_flags main_config ∅) students)
           (audit_frame (with_flags main_config ∅) students)).
  - apply (bool_decide_unpack _). vm_compute. exact I.
  - apply (bool_decide_unpack _). vm_compute. exact I.
  - by left.
  - vm_compute. reflexivity.
  - reflexivity.
Defined.

(** ** The schema of the audit log *)

Lemma index_from_records cols (recs : list Row) :
  index (from_records cols recs) = seq 0 (length recs).
Proof.
  unfold index, from_records. cbn [rows].
  assert (∀ (f : nat → nat),
            fst <$> imap (λ i (r : Row), (f i, r)) recs
            = f <$> seq 0 (length recs)) as H.
  { induction recs as [|r recs IH]; intros f; [done|].
    csimpl. f_equal. etrans; [apply (IH (f ∘ S))|].
    by rewrite <- fmap_S_seq, <- list_fmap_compose. }
  etrans; [apply (H id)|]. by rewrite list_fmap_id.
Qed.

Lemma length_from_records cols (recs : list Row) :
  length (rows (from_records cols recs)) = length recs.
Proof. unfold from_records. cbn [rows]. by rewrite length_imap. Qed.

Lemma select_row_lookup_Some cs (r : Row) c v :
  select_row cs r !! c = Some v → c ∈ cs.
Proof.
  unfold select_row. rewrite map_lookup_filter_Some. by intros [_ H].
Qed.

(** X13.  The schema of the audit log.  On a returning call the audit rows
    are labelled 0, 1, 2, ... (the labels of the removed input rows are not
    kept); a non-empty audit log has the key columns followed by [STAGE],
    [STAGE_kept], [_score], [_score_kept] and [reason]; an audit row has no
    cell outside these columns, so with a plain configuration the flag
    columns selected at line 106 never reach the log. *)
Theorem audit_log_schema d cfg deduped audit :
  plain_config cfg →
  outcome (deduplicate d (Some cfg)) = inr (deduped, audit) →
  index audit = seq 0 (length (rows audit)) ∧
  (rows audit ≠ [] →
   columns audit
   = keys cfg ++ ["STAGE"; "STAGE_kept"; "_score"; "_score_kept"; "reason"]) ∧
  (∀ a c, a ∈ rows audit → is_Some (a.2 !! c) → c ∈ columns audit) ∧
  (∀ a c, a ∈ rows audit → c ∈ flag_cols_of cfg → a.2 !! c = None).
Proof.
  intros Hplain Hout.
  apply outcome_success in Hout as (_ & _ & _ & [(_ & _ & ->)|(_ & _ & ->)]).
  2:{ split; [done|]. split; [done|].
      split; intros a c Ha; by apply elem_of_nil in Ha. }
  assert (∀ a c, a ∈ rows (audit_frame cfg d) → is_Some (a.2 !! c) →
                 c ∈ log_columns (keys cfg)) as Hcells.
  { intros a c Ha [v Hv]. unfold audit_frame, _log_formation, from_records in Ha.
    cbn [rows] in Ha. apply elem_of_lookup_imap in Ha as (i & r & -> & Hr).
    apply list_elem_of_lookup_2, list_elem_of_fmap in Hr as (m & -> & _).
    by apply select_row_lookup_Some in Hv. }
  split; [|split; [done|split; [exact Hcells|]]].
  - unfold audit_frame, _log_formation.
    by rewrite index_from_records, length_from_records.
  - intros a c Ha Hc. destruct (a.2 !! c) as [v|] eqn:E; [|done].
    exfalso. specialize (Hcells a c Ha (mk_is_Some _ _ E)).
    destruct Hplain as (_ & _ & Hf). rewrite Forall_forall in Hf.
    destruct (Hf c Hc) as [Heng Hkey].
    unfold log_columns in Hcells. apply elem_of_app in Hcells as [?|Hcells]; [done|].
    apply Heng. unfold engine_columns.
    repeat (apply elem_of_cons in Hcells as [->|Hcells];
            [apply (bool_decide_unpack _); vm_compute; exact I|]).
    by apply elem_of_nil in Hcells.
Qed.

Lemma audit_log_schema_witness :
  index (audit_frame main_config students)
  = seq 0 (length (rows (audit_frame main_config students))) ∧
  (rows (audit_frame main_config students) ≠ [] →
   columns (audit_frame main_config students)
   = keys main_config ++ ["STAGE"; "STAGE_kept"; "_score"; "_score_kept"; "reason"]) ∧
  (∀ a c, a ∈ rows (audit_frame main_config students) →
          is_Some (a.2 !! c) → c ∈ columns (audit_frame main_config students)) ∧
  (∀ a c, a ∈ rows (audit_frame main_config students) →
          c ∈ flag_cols_of main_config → a.2 !! c = None).
Proof.
  apply (audit_log_schema students main_config
           (deduped_frame main_config students)).
  - apply (bool_decide_unpack _). vm_compute. exact I.
  - vm_compute. reflexivity.
Defined.

(** ** Scores *)

Lemma score_map_of_lookup n (l : list string) s v :
  score_map_of n l !! s = Some v →
  ∃ i, l !! i = Some s ∧ v = Z.of_nat n - Z.of_nat i.
Proof.
  induction l as [|z l IH] using rev_ind; [done|].
  rewrite score_map_of_snoc. destruct (decide (z = s)) as [->|Hne].
  - rewrite lookup_insert_eq. intros [= <-]. exists (length l).
    split; [by apply list_lookup_middle|done].
  - rewrite lookup_insert_ne by done. intros H.
    destruct (IH H) as (i & Hi & ->). exists i. split; [|done].
    rewrite lookup_app_l; [done|]. by eapply lookup_lt_Some.
Qed.

Lemma score_map_of_present n (l : list string) s :
  s ∈ l → is_Some (score_map_of n l !! s).
Proof.
  induction l as [|z l IH] using rev_ind; [by intros ?%elem_of_nil|].
  rewrite score_map_of_snoc. destruct (decide (z = s)) as [->|Hne].
  - by rewrite lookup_insert_eq.
  - rewrite lookup_insert_ne by done. intros [H|H]%elem_of_app; [by apply IH|].
    by apply list_elem_of_singleton in H.
Qed.

(** X14.  The order of the scores.  A score lies between 0 and the length
    of the ranking; it is positive exactly for the stages the ranking
    lists; and along a ranking without repetitions it falls strictly, so a
    stage listed earlier beats every stage listed later, and a listed stage
    beats a stage that is not listed and a record without a stage. *)
Theorem priority_order ranking :
  (∀ stage, 0 ≤ priority ranking stage ≤ Z.of_nat (length ranking)) ∧
  (∀ s, 0 < priority ranking (Some s) ↔ s ∈ ranking) ∧
  priority ranking None = 0 ∧
  (NoDup ranking →
   ∀ i j s t, ranking !! i = Some s → ranking !! j = Some t → (i < j)%nat →
              priority ranking (Some t) < priority ranking (Some s)).
Proof.
  assert (∀ s, priority ranking (Some s)
               = default 0 (score_map_of (length ranking) ranking !! s)) as Hp
    by done.
  split; [|split; [|split; [done|]]].
  - intros [s|]; [|unfold priority; simpl; lia]. rewrite Hp.
    destruct (score_map_of _ _ !! s) as [v|] eqn:E; simpl; [|lia].
    apply score_map_of_lookup in E as (i & Hi & ->).
    apply lookup_lt_Some in Hi. lia.
  - intros s. rewrite Hp. split.
    + intros Hpos. destruct (decide (s ∈ ranking)) as [|Hn]; [done|].
      rewrite score_map_of_absent in Hpos by done. simpl in Hpos. lia.
    + intros Hs. destruct (score_map_of_present (length ranking) _ _ Hs) as [v E].
      rewrite E. simpl. apply score_map_of_lookup in E as (i & Hi & ->).
      apply lookup_lt_Some in Hi. lia.
  - intros Hnd i j s t Hi Hj Hlt. rewrite !Hp.
    rewrite (score_map_of_last _ _ i s), (score_map_of_last _ _ j t); simpl.
    + lia.
    + done.
    + intros k Hk Hk'. pose proof (NoDup_lookup _ _ _ _ Hnd Hj Hk'). lia.
    + done.
    + intros k Hk Hk'. pose proof (NoDup_lookup _ _ _ _ Hnd Hi Hk'). lia.
Qed.

(** ** A second call on the frame the first call changed *)

Lemma strip_row_idem ks (r : Row) : strip_row ks (strip_row ks r) = strip_row ks r.
Proof.
  apply map_eq. intros c. rewrite !strip_row_lookup.
  destruct (r !! c) as [v|]; [|done]. simpl.
  destruct (decide (c ∈ ks)); [|done]. by rewrite strip_cell_idem.
Qed.

Lemma strip_keys_idem ks d : strip_keys ks (strip_keys ks d) = strip_keys ks d.
Proof.
  unfold strip_keys. cbn [rows columns]. f_equal.
  rewrite <- list_fmap_compose. apply list_fmap_ext. intros i x _.
  unfold compose. cbn [fst snd]. by rewrite strip_row_idem.
Qed.

Lemma strip_stage_row_lookup cfg x c :
  c ≠ "STAGE" → c ≠ "_score" →
  strip_row (keys cfg) (stage_row cfg x).2 !! c
  = strip_row (keys cfg) x.2 !! c.
Proof.
  intros H1 H2. rewrite strip_row_lookup.
  rewrite stage_row_lookup_ne by done.
  rewrite <- strip_row_lookup. by rewrite strip_row_idem.
Qed.

Lemma stage_of_ext cfg (r1 r2 : Row) :
  (∀ label c, flags cfg !! label = Some c → r1 !! c = r2 !! c) →
  stage_of cfg r1 = stage_of cfg r2.
Proof.
  intros H.
  assert (∀ label, row_get r1 (flags cfg !! label)
                   = row_get r2 (flags cfg !! label)) as Hg.
  { intros label. destruct (flags cfg !! label) as [c|] eqn:E; [|done].
    simpl. by apply (H label). }
  unfold stage_of, derive_stage. by rewrite !Hg.
Qed.

Lemma plain_flag_not_transient cfg label c :
  plain_config cfg → label ∈ precedence → flags cfg !! label = Some c →
  c ≠ "STAGE" ∧ c ≠ "_score".
Proof.
  intros Hplain Hl Hc. destruct (decide (c = "")) as [->|Hne]; [done|].
  assert (c ∈ flag_cols_of cfg) as Hin
    by (apply elem_of_flag_cols; by exists label).
  pose proof (plain_flags_not_transient cfg c Hplain Hin) as Ht.
  split; intros ->; apply Ht; unfold transient_columns; [left|right; left].
Qed.

Lemma record_stage_stage_row cfg x :
  plain_config cfg →
  record_stage cfg (stage_row cfg x).2 = record_stage cfg x.2.
Proof.
  intros Hplain. unfold record_stage.
  assert (∀ label, label ∈ precedence →
            row_get (strip_row (keys cfg) (stage_row cfg x).2) (flags cfg !! label)
            = row_get (strip_row (keys cfg) x.2) (flags cfg !! label)) as Hg.
  { intros label Hl. destruct (flags cfg !! label) as [c|] eqn:E; [|done].
    simpl. destruct (plain_flag_not_transient cfg label c Hplain Hl E).
    by apply strip_stage_row_lookup. }
  unfold stage_of, derive_stage.
  rewrite !Hg; [done|unfold precedence..].
  - do 3 right. left.
  - do 2 right. left.
  - right. left.
  - left.
Qed.

Lemma stage_row_idem cfg x :
  plain_config cfg → stage_row cfg (stage_row cfg x) = stage_row cfg x.
Proof.
  intros Hplain. unfold stage_row at 1. cbn [fst].
  unfold record_score. rewrite record_stage_stage_row by done.
  unfold stage_row at 3. f_equal. fold (record_score cfg x.2).
  apply map_eq. intros c.
  destruct (decide (c = "_score")) as [->|H2]; [by rewrite !lookup_insert_eq|].
  rewrite !(lookup_insert_ne _ "_score") by done.
  destruct (decide (c = "STAGE")) as [->|H1]; [by rewrite !lookup_insert_eq|].
  rewrite !(lookup_insert_ne _ "STAGE") by done.
  by apply strip_stage_row_lookup.
Qed.

Lemma columns_assign_self c f d : c ∈ columns (assign c f d).
Proof.
  unfold assign. cbn [columns]. case_decide; [done|].
  apply elem_of_app. right. left.
Qed.

Lemma columns_assign_mono c f d c' :
  c' ∈ columns d → c' ∈ columns (assign c f d).
Proof.
  intros H. unfold assign. cbn [columns]. case_decide; [done|].
  apply elem_of_app. by left.
Qed.

Lemma columns_assign_in c f d :
  c ∈ columns d → columns (assign c f d) = columns d.
Proof. intros H. unfold assign. cbn [columns]. by rewrite decide_True. Qed.

Lemma columns_staged cfg d c : c ∈ columns d → c ∈ columns (staged cfg d).
Proof. intros Hc. unfold staged. by do 2 apply columns_assign_mono. Qed.

Lemma transient_in_staged cfg d :
  "STAGE" ∈ columns (staged cfg d) ∧ "_score" ∈ columns (staged cfg d).
Proof.
  unfold staged. split; [|apply columns_assign_self].
  apply columns_assign_mono, columns_assign_self.
Qed.

Lemma staged_idem cfg d :
  plain_config cfg → staged cfg (staged cfg d) = staged cfg d.
Proof.
  intros Hplain.
  assert (rows (staged cfg (staged cfg d)) = rows (staged cfg d)) as Hr.
  { rewrite !rows_staged, <- list_fmap_compose. apply list_fmap_ext.
    intros i x _. by apply stage_row_idem. }
  assert (columns (staged cfg (staged cfg d)) = columns (staged cfg d)) as Hc.
  { destruct (transient_in_staged cfg d) as [Hs1 Hs2].
    unfold staged at 1.
    rewrite columns_assign_in; rewrite columns_assign_in; done. }
  destruct (staged cfg (staged cfg d)), (staged cfg d). simpl in *. by subst.
Qed.

(** X16.  A second call on the frame the first call changed.  The engine
    writes into the caller's frame, but with a plain configuration a second
    call that passes the changed frame again has the outcome of the first
    call (the same two frames, or the same error) and leaves the frame as
    the first call left it. *)
Theorem second_call_on_changed_frame d cfg :
  plain_config cfg →
  outcome (deduplicate (caller_frame (deduplicate d (Some cfg))) (Some cfg))
  = outcome (deduplicate d (Some cfg)) ∧
  caller_frame (deduplicate (caller_frame (deduplicate d (Some cfg))) (Some cfg))
  = caller_frame (deduplicate d (Some cfg)).
Proof.
  intros Hplain. rewrite (caller_frame_Some d cfg).
  destruct (decide (keys cfg = [])) as [Hk|Hk]; [by rewrite caller_frame_Some, decide_True|].
  destruct (decide (Forall (λ k, k ∈ columns d) (keys cfg))) as [Hf|Hf].
  2:{ rewrite caller_frame_Some. by rewrite decide_False, decide_False. }
  destruct (decide (missing_cols_of cfg d = [])) as [Hm|Hm].
  - assert (Forall (λ k, k ∈ columns (staged cfg d)) (keys cfg)) as Hf'.
    { eapply Forall_impl; [exact Hf|]. intros k. apply columns_staged. }
    assert (missing_cols_of cfg (staged cfg d) = []) as Hm'.
    { unfold missing_cols_of in *. rewrite filter_nil_iff in Hm.
      apply filter_nil_iff. intros c Hc Hn. apply (Hm c Hc). intros Hin.
      by apply Hn, columns_staged. }
    rewrite !outcome_Some, caller_frame_Some.
    rewrite !(decide_False (P := keys cfg = [])) by done.
    rewrite !(decide_True (P := Forall _ _)) by done.
    rewrite !(decide_True (P := _ = [])) by done.
    unfold deduped_frame, audit_frame, to_remove_mask_of, keep_idx_of, dup_mask_of.
    by rewrite staged_idem.
  - assert (missing_cols_of cfg (strip_keys (keys cfg) d) = missing_cols_of cfg d)
      as Hm' by done.
    rewrite !outcome_Some, caller_frame_Some. rewrite Hm'.
    change (columns (strip_keys (keys cfg) d)) with (columns d).
    rewrite !(decide_False (P := keys cfg = [])) by done.
    rewrite !(decide_True (P := Forall _ _)) by done.
    rewrite !(decide_False (P := _ = [])) by done.
    by rewrite strip_keys_idem.
Qed.

Lemma second_call_on_changed_frame_witness :
  outcome (deduplicate (caller_frame (deduplicate students (Some main_config)))
             (Some main_config))
  = outcome (deduplicate students (Some main_config)) ∧
  caller_frame (deduplicate (caller_frame (deduplicate students (Some main_config)))
                  (Some main_config))
  = caller_frame (deduplicate students (Some main_config)).
Proof.
  apply (second_call_on_changed_frame students main_config).
  apply (bool_decide_unpack _). vm_compute. exact I.
Defined.

